(** * The Hundred analytics: win-probability model and tournament simulator

    A shallow embedding of [match_analyzer.py] (class [MatchAnalyzer]) and
    [tournament_simulator.py] (class [TournamentSimulator]).

    - Python numbers are kept behind the interface [PyNum], with two
      instances: [b64_num], IEEE-754 binary64 as CPython evaluates the code,
      and [Q_num], the same expressions over exact rationals.
    - The process-wide [random] module is an explicit entropy tape threaded
      through a state-and-exception monad [M].
    - pandas frames are lists of row records, dictionaries whose iteration
      order is observed are association lists, counters are [gmap]s. *)

From Stdlib Require Import ZArith QArith Qround Qabs Lqa Lia List Bool Sorted.
From Stdlib Require Import Floats.SpecFloat.
From stdpp Require Import base option list strings pretty gmap.

Local Open Scope string_scope.
Local Open Scope list_scope.
Local Open Scope Z_scope.

(** ** Exceptions and outcomes *)

Inductive exn : Type :=
| ValueError (msg : string)
| KeyError (key : string)
| IndexError
| ZeroDivisionError
| OverflowError.

Inductive outcome (A : Type) : Type :=
| Ok (a : A)
| Raise (e : exn).
Arguments Ok {A} a.
Arguments Raise {A} e.

(** ** Numbers *)

(** The operations the two modules apply to numbers.  [fdiv] is the raw
    quotient; Python's [ZeroDivisionError] is added by [py_div] below.
    [ftrunc] is [int(x)] and [fround1] is [round(x, 1)]. *)
Class PyNum (F : Type) : Type := {
  of_Z : Z -> F;
  fadd : F -> F -> F;
  fsub : F -> F -> F;
  fmul : F -> F -> F;
  fdiv : F -> F -> F;
  fltb : F -> F -> bool;
  feqb : F -> F -> bool;
  fabs : F -> F;
  ftrunc : F -> outcome Z;
  fround1 : F -> F
}.

(** A decimal literal [p/q] of the source text, e.g. [lit 1 10] for [0.1]. *)
Definition lit `{PyNum F} (p q : Z) : F := fdiv (of_Z p) (of_Z q).

Definition fgtb `{PyNum F} (x y : F) : bool := fltb y x.
Definition fneb `{PyNum F} (x y : F) : bool := negb (feqb x y).

(** Python's two-argument [min(a, b)] and [max(a, b)]: the first argument
    is kept unless the second one is strictly better. *)
Definition py_min `{PyNum F} (a b : F) : F := if fltb b a then b else a.
Definition py_max `{PyNum F} (a b : F) : F := if fltb a b then b else a.

(** *** Exact rationals *)

Module QNum.

Definition ltb (x y : Q) : bool := negb (Qle_bool y x).

(** [int(x)]: truncation toward zero. *)
Definition trunc (x : Q) : Z :=
  if Qle_bool 0 x then Qfloor x else Qceiling x.

(** Nearest integer, ties to the even one. *)
Definition rne (x : Q) : Z :=
  let f := Qfloor x in
  match Qcompare (x - inject_Z f) (1 # 2) with
  | Lt => f
  | Gt => f + 1
  | Eq => if Z.even f then f else f + 1
  end.

Definition round1 (x : Q) : Q := inject_Z (rne (x * 10)) / 10.

End QNum.

#[export] Instance Q_num : PyNum Q := {|
  of_Z := inject_Z;
  fadd := Qplus;
  fsub := Qminus;
  fmul := Qmult;
  fdiv := Qdiv;
  fltb := QNum.ltb;
  feqb := Qeq_bool;
  fabs := Qabs;
  ftrunc := fun x => Ok (QNum.trunc x);
  fround1 := QNum.round1
|}.

(** *** IEEE-754 binary64 *)

Module B64.

Definition prec : Z := 53.
Definition emax : Z := 1024.

Definition t : Type := spec_float.

Definition of_int (z : Z) : t := binary_normalize prec emax z 0 false.

(** [int(x)] on a float; infinities and NaN raise in Python. *)
Definition trunc (x : t) : outcome Z :=
  match x with
  | S754_zero _ => Ok 0
  | S754_finite s m e =>
      let a := match e with
               | Zneg k => Z.shiftr (Zpos m) (Zpos k)
               | _ => Z.shiftl (Zpos m) e
               end in
      Ok (if s then - a else a)
  | S754_infinity _ => Raise OverflowError
  | S754_nan => Raise (ValueError "cannot convert float NaN to integer")
  end.

(** The integer nearest to [10 * m * 2^(-k)], ties to even: the digit
    string that CPython's [round(x, 1)] obtains from the exact value. *)
Definition tenths (m k : positive) : Z :=
  let n := 10 * Zpos m in
  let d := Z.shiftl 1 (Zpos k) in
  let q := n / d in
  match Z.compare (2 * (n mod d)) d with
  | Lt => q
  | Gt => q + 1
  | Eq => if Z.even q then q else q + 1
  end.

(** [round(x, 1)]: round the exact value to one decimal, then take the
    binary64 value nearest to that decimal (a correctly rounded
    quotient by ten). *)
Definition round1 (x : t) : t :=
  match x with
  | S754_finite s m (Zneg k) =>
      match tenths m k with
      | Zpos n => SFdiv prec emax (S754_finite s n 0) (S754_finite false 10 0)
      | _ => S754_zero s
      end
  | _ => x
  end.

End B64.

#[export] Instance b64_num : PyNum B64.t := {|
  of_Z := B64.of_int;
  fadd := SFadd B64.prec B64.emax;
  fsub := SFsub B64.prec B64.emax;
  fmul := SFmul B64.prec B64.emax;
  fdiv := SFdiv B64.prec B64.emax;
  fltb := SFltb;
  feqb := SFeqb;
  fabs := SFabs;
  ftrunc := B64.trunc;
  fround1 := B64.round1
|}.

(** ** The random source and the monad of the simulation *)

(** The state of Python's [random] module: a tape of raw entropy and the
    number of draws made so far. *)
Record Rng : Type := { tape : nat -> Z; pos : nat }.

Definition M (A : Type) : Type := Rng -> outcome (A * Rng).

Definition ret {A} (a : A) : M A := fun r => Ok (a, r).
Definition raise {A} (e : exn) : M A := fun _ => Raise e.
Definition bind {A B} (c : M A) (k : A -> M B) : M B :=
  fun r => match c r with
           | Ok (a, r') => k a r'
           | Raise e => Raise e
           end.
Definition lift {A} (o : outcome A) : M A :=
  fun r => match o with Ok a => Ok (a, r) | Raise e => Raise e end.

Notation "'let!' x ':=' c 'in' k" := (bind c (fun x => k))
  (at level 10, x name, c at level 100, k at level 200).

(** A [for] loop with an accumulator: the body runs once per element, in
    order; the first exception ends the loop. *)
Fixpoint for_each {A S} (l : list A) (body : S -> A -> M S) (s : S) : M S :=
  match l with
  | [] => ret s
  | x :: l' => let! s' := body s x in for_each l' body s'
  end.

Definition draw : M Z :=
  fun r => Ok (tape r (pos r), {| tape := tape r; pos := S (pos r) |}).

(** [random.randint(a, b)]: an integer of [a..b]. *)
Definition randint (a b : Z) : M Z :=
  let! x := draw in ret (a + x mod (b - a + 1)).

(** [random.choice([x, y])]. *)
Definition choice {A} (x y : A) : M A :=
  let! k := draw in ret (if Z.even k then x else y).

(** [random.random()]: 53 random bits scaled into [0, 1). *)
Definition random `{PyNum F} : M F :=
  let! k := draw in ret (fdiv (of_Z (k mod 2 ^ 53)) (of_Z (2 ^ 53))).

(** Float division [x / y] and [int(x)] as Python statements.  The ratings
    and venue figures reach the code as Python floats (rows of a frame that
    also holds text), so a zero divisor raises. *)
Definition py_div `{PyNum F} (x y : F) : M F :=
  if feqb y (of_Z 0) then raise ZeroDivisionError else ret (fdiv x y).
Definition py_int `{PyNum F} (x : F) : M Z := lift (ftrunc x).

(** True division [a / b] of two Python ints (the counts divided here are
    far below 2^53, where the quotient of the converted operands is the
    correctly rounded quotient). *)
Definition py_int_div `{PyNum F} (a b : Z) : M F :=
  if b =? 0 then raise ZeroDivisionError else ret (fdiv (of_Z a) (of_Z b)).

(** ** Sorting *)

(** A stable sort into descending key order: the order in which
    [list.sort(key=..., reverse=True)] and a stable [sort_values(...,
    ascending=False)] leave their rows.  pandas' default sort kind does not
    promise an order among equal keys; the stable one is taken here and no
    result below depends on it. *)
Section Sorting.
Context {A K : Type} (ltb : K -> K -> bool) (key : A -> K).

Fixpoint insert_desc (x : A) (l : list A) : list A :=
  match l with
  | [] => [x]
  | y :: l' => if ltb (key x) (key y) then y :: insert_desc x l'
               else x :: y :: l'
  end.

Fixpoint sort_desc (l : list A) : list A :=
  match l with
  | [] => []
  | x :: l' => insert_desc x (sort_desc l')
  end.
End Sorting.

(** ** Dictionaries with insertion order *)

Section Dict.
Context {V : Type}.

Fixpoint dict_get (k : string) (d : list (string * V)) : option V :=
  match d with
  | [] => None
  | (k', v) :: d' => if String.eqb k k' then Some v else dict_get k d'
  end.

(** [d[k] = v]: an existing key keeps its place, a new key goes last. *)
Fixpoint dict_set (k : string) (v : V) (d : list (string * V))
  : list (string * V) :=
  match d with
  | [] => [(k, v)]
  | (k', v') :: d' =>
      if String.eqb k k' then (k, v) :: d' else (k', v') :: dict_set k v d'
  end.

(** [d[k]] read as an expression: a missing key raises [KeyError]. *)
Definition dict_item (k : string) (d : list (string * V)) : M V :=
  match dict_get k d with
  | Some v => ret v
  | None => raise (KeyError k)
  end.
End Dict.

(** ** Reference data *)

(** One row of the schedule; the dictionary that [simulate_playoffs] builds
    for the final has the first four keys only, which are the ones read. *)
Record Fixture : Type := {
  Match_ID : Z;
  Team1 : string;
  Team2 : string;
  Venue : string;
  Date : string;
  Time' : string
}.

Section Tables.
Context {F : Type}.

Record RatingRow : Type := {
  Team : string;
  Bat_Rating : F;
  Bowl_Rating : F;
  Overall_Rating : F
}.

Record VenueRow : Type := {
  venue : string;
  win_percent_bat_first : F;
  win_percent_bowl_first : F;
  avg_first_innings_score : F;
  run_rate : F
}.

Record PlayerRow : Type := {
  team : string;
  player : string;
  role : string;
  bat_avg_first : F;
  bat_sr_first : F;
  bowl_econ_first : F
}.

(** The four CSV files named in [config.py], already parsed. *)
Record Files : Type := {
  SCHEDULE_FILE : list Fixture;
  TEAM_RATINGS_FILE : list RatingRow;
  VENUE_STATS_FILE : list VenueRow;
  PLAYER_STATS_FILE : list PlayerRow
}.
End Tables.
Arguments RatingRow F : clear implicits.
Arguments VenueRow F : clear implicits.
Arguments PlayerRow F : clear implicits.
Arguments Files F : clear implicits.

(** ** match_analyzer.py *)

Module MatchAnalyzer.
Section WithNumbers.
Context `{PyNum F}.

Record Rating : Type := { batting : F; bowling : F; overall : F }.

Record VenueImpact : Type := {
  bat_first_win_pct : F;
  bowl_first_win_pct : F;
  avg_score : F;
  vi_run_rate : F
}.

Record t : Type := {
  schedule_df : list Fixture;
  team_ratings_df : list (RatingRow F);
  venue_stats_df : list (VenueRow F);
  player_stats_df : list (PlayerRow F);
  team_ratings : gmap string Rating;
  venue_stats : gmap string VenueImpact
}.

(** [__init__]: the two lookups are dictionary comprehensions over the
    rows, so a later row of the same name replaces an earlier one. *)
Definition init (csv : Files F) : t := {|
  schedule_df := SCHEDULE_FILE csv;
  team_ratings_df := TEAM_RATINGS_FILE csv;
  venue_stats_df := VENUE_STATS_FILE csv;
  player_stats_df := PLAYER_STATS_FILE csv;
  team_ratings :=
    foldl (fun d row =>
             <[Team row := {| batting := Bat_Rating row;
                              bowling := Bowl_Rating row;
                              overall := Overall_Rating row |}]> d)
          ∅ (TEAM_RATINGS_FILE csv);
  venue_stats :=
    foldl (fun d row =>
             <[venue row := {| bat_first_win_pct := win_percent_bat_first row;
                               bowl_first_win_pct := win_percent_bowl_first row;
                               avg_score := avg_first_innings_score row;
                               vi_run_rate := run_rate row |}]> d)
          ∅ (VENUE_STATS_FILE csv)
|}.

Record MatchDetails : Type := {
  md_match_id : Z;
  md_team1 : string;
  md_team2 : string;
  md_venue : string;
  md_date : string;
  md_time : string
}.

Definition not_found (match_id : Z) : exn :=
  ValueError ("Match ID " +:+ pretty match_id +:+ " not found").

Definition get_match_details (self : t) (match_id : Z) : M MatchDetails :=
  match filter (fun row => Match_ID row = match_id) (schedule_df self) with
  | [] => raise (not_found match_id)
  | row :: _ =>
      ret {| md_match_id := match_id;
             md_team1 := Team1 row;
             md_team2 := Team2 row;
             md_venue := Venue row;
             md_date := Date row;
             md_time := Time' row |}
  end.

Definition default_rating : Rating :=
  {| batting := of_Z 50; bowling := of_Z 50; overall := of_Z 50 |}.

Definition get_team_rating (self : t) (team_name : string) : Rating :=
  default default_rating (team_ratings self !! team_name).

Definition default_venue : VenueImpact :=
  {| bat_first_win_pct := of_Z 50; bowl_first_win_pct := of_Z 50;
     avg_score := of_Z 150; vi_run_rate := lit 85 10 |}.

Definition get_venue_impact (self : t) (venue_name : string) : VenueImpact :=
  default default_venue (venue_stats self !! venue_name).

Record HeadToHead : Type := {
  total_matches : Z;
  team1_wins : Z;
  team2_wins : Z;
  team1_win_pct : F;
  team2_win_pct : F
}.

(** [(wins / total_matches) * 100 if total_matches > 0 else 50]. *)
Definition win_pct (wins total : Z) : M F :=
  if 0 <? total
  then let! q := py_int_div wins total in ret (fmul q (of_Z 100))
  else ret (of_Z 50).

Definition get_head_to_head_record (self : t) (team1 team2 : string)
  : M HeadToHead :=
  let team1_rating := overall (get_team_rating self team1) in
  let team2_rating := overall (get_team_rating self team2) in
  let! total := randint 8 15 in
  let! wins1 :=
    if fgtb team1_rating team2_rating
    then py_int (fmul (of_Z total)
                   (fadd (lit 1 2)
                      (fdiv (fsub team1_rating team2_rating) (of_Z 100))))
    else py_int (fmul (of_Z total)
                   (fsub (lit 1 2)
                      (fdiv (fsub team2_rating team1_rating) (of_Z 100)))) in
  let wins2 := total - wins1 in
  let! pct1 := win_pct wins1 total in
  let! pct2 := win_pct wins2 total in
  ret {| total_matches := total;
         team1_wins := wins1;
         team2_wins := wins2;
         team1_win_pct := pct1;
         team2_win_pct := pct2 |}.

(** The f-strings of [get_player_to_watch], as the data they print. *)
Inductive PlayerNote : Type :=
| BestBatter (name : string) (avg sr : F)
| BestBowler (name : string) (econ : F)
| Unavailable.

(** [idxmax] / [idxmin]: the first row whose key is not beaten later. *)
Definition first_best (better : F -> F -> bool) (key : PlayerRow F -> F)
    (row : PlayerRow F) (rows : list (PlayerRow F)) : PlayerRow F :=
  foldl (fun best x => if better (key x) (key best) then x else best)
        row rows.

Definition get_player_to_watch (self : t) (team_name venue_name : string)
  : PlayerNote :=
  let team_players :=
    filter (fun p => team p = team_name) (player_stats_df self) in
  let batters :=
    filter (fun p => role p = "Batter" \/ role p = "All-rounder")
           team_players in
  let batters :=
    filter (fun p => fgtb (bat_avg_first p) (of_Z 0) = true) batters in
  match batters with
  | b :: bs =>
      let best := first_best fgtb bat_avg_first b bs in
      BestBatter (player best) (bat_avg_first best) (bat_sr_first best)
  | [] =>
      let bowlers :=
        filter (fun p => role p = "Bowler" \/ role p = "All-rounder")
               team_players in
      let bowlers :=
        filter (fun p => fgtb (bowl_econ_first p) (of_Z 0) = true) bowlers in
      match bowlers with
      | b :: bs =>
          let best := first_best fltb bowl_econ_first b bs in
          BestBowler (player best) (bowl_econ_first best)
      | [] => Unavailable
      end
  end.

(** The rating part of [calculate_win_probability]: the 50-50 split
    moved by 1.5 points per point of overall-rating gap, then blended
    with the head-to-head percentage at a weight of 10%.  This is
    [base_prob_team1] as it stands before the toss is looked at. *)
Definition base_win_probability (team1_ratings team2_ratings : Rating)
    (h2h : HeadToHead) : F :=
  let base_prob_team1 :=
    fadd (of_Z 50)
         (fmul (fsub (overall team1_ratings) (overall team2_ratings))
               (lit 3 2)) in
  let h2h_factor := lit 1 10 in
  fadd (fmul base_prob_team1 (fsub (of_Z 1) h2h_factor))
       (fmul (team1_win_pct h2h) h2h_factor).

(** The toss: the winner of the toss gains 15 points for the decision the
    venue favours and half of that otherwise.  Any [toss_winner] other
    than ["Team A"] is team 2, any [toss_decision] other than ["Bat"] is
    bowling first. *)
Definition apply_toss_advantage (venue_impact : VenueImpact)
    (toss_winner toss_decision : string)
    (base_prob_team1 base_prob_team2 : F) : F * F :=
  let toss_advantage := of_Z 15 in
  if decide (toss_winner = "Team A") then
    if decide (toss_decision = "Bat") then
      if fgtb (bat_first_win_pct venue_impact) (of_Z 50)
      then (fadd base_prob_team1 toss_advantage, base_prob_team2)
      else (fadd base_prob_team1 (fmul toss_advantage (lit 1 2)),
            base_prob_team2)
    else
      if fgtb (bowl_first_win_pct venue_impact) (of_Z 50)
      then (fadd base_prob_team1 toss_advantage, base_prob_team2)
      else (fadd base_prob_team1 (fmul toss_advantage (lit 1 2)),
            base_prob_team2)
  else
    if decide (toss_decision = "Bat") then
      if fgtb (bat_first_win_pct venue_impact) (of_Z 50)
      then (base_prob_team1, fadd base_prob_team2 toss_advantage)
      else (base_prob_team1,
            fadd base_prob_team2 (fmul toss_advantage (lit 1 2)))
    else
      if fgtb (bowl_first_win_pct venue_impact) (of_Z 50)
      then (base_prob_team1, fadd base_prob_team2 toss_advantage)
      else (base_prob_team1,
            fadd base_prob_team2 (fmul toss_advantage (lit 1 2))).

(** "Normalize probabilities". *)
Definition normalize (base_prob_team1 base_prob_team2 : F) : M (F * F) :=
  let total_prob := fadd base_prob_team1 base_prob_team2 in
  if fneb total_prob (of_Z 100) then
    let! q1 := py_div base_prob_team1 total_prob in
    let! q2 := py_div base_prob_team2 total_prob in
    ret (fmul q1 (of_Z 100), fmul q2 (of_Z 100))
  else ret (base_prob_team1, base_prob_team2).

(** "Ensure probabilities are within reasonable bounds". *)
Definition clamp (base_prob_team1 : F) : F * F :=
  let base_prob_team1 := py_max (of_Z 15) (py_min (of_Z 85) base_prob_team1) in
  (base_prob_team1, fsub (of_Z 100) base_prob_team1).

Definition key_factor_text (venue_impact : VenueImpact)
    (team1 team2 : string) (team1_ratings team2_ratings : Rating) : string :=
  let key_factors :=
    app
    (if fgtb (bat_first_win_pct venue_impact) (of_Z 55)
     then ["Venue favors batting first teams"]
     else if fgtb (bowl_first_win_pct venue_impact) (of_Z 55)
     then ["Venue favors chasing teams"]
     else [])
    (if fgtb (fabs (fsub (overall team1_ratings) (overall team2_ratings)))
             (of_Z 3)
     then
       let stronger_team :=
         if fgtb (overall team1_ratings) (overall team2_ratings)
         then team1 else team2 in
       [stronger_team +:+ " has higher overall rating"]
     else []) in
  let key_factors :=
    match key_factors with
    | [] => ["Evenly matched teams"]
    | _ => key_factors
    end in
  String.concat "; " key_factors.

(** The returned dictionary.  [venue_impact] and [toss_impact] hold the
    values that the source formats into text. *)
Record WinProbability : Type := {
  wp_team1 : string;
  wp_team2 : string;
  wp_venue : string;
  win_prob : F * F;
  key_factor : string;
  player_to_watch : PlayerNote * PlayerNote;
  wp_venue_impact : F * F;
  head_to_head : string;
  toss_impact : string * string
}.

Definition calculate_win_probability (self : t) (match_id : Z)
    (toss_winner toss_decision : string) : M WinProbability :=
  let! match_details := get_match_details self match_id in
  let team1 := md_team1 match_details in
  let team2 := md_team2 match_details in
  let venue_name := md_venue match_details in
  let team1_ratings := get_team_rating self team1 in
  let team2_ratings := get_team_rating self team2 in
  let venue_impact := get_venue_impact self venue_name in
  let! h2h := get_head_to_head_record self team1 team2 in
  (* batting strength against the opponent's bowling, scaled by venue *)
  let! e1 := py_div (batting team1_ratings)
                    (fadd (bowling team2_ratings) (of_Z 20)) in
  let team1_bat_vs_team2_bowl := fmul e1 (of_Z 100) in
  let! e2 := py_div (batting team2_ratings)
                    (fadd (bowling team1_ratings) (of_Z 20)) in
  let team2_bat_vs_team1_bowl := fmul e2 (of_Z 100) in
  let venue_bat_impact := fdiv (bat_first_win_pct venue_impact) (of_Z 50) in
  let venue_bowl_impact := fdiv (bowl_first_win_pct venue_impact) (of_Z 50) in
  let '(team1_bat_vs_team2_bowl, team2_bat_vs_team1_bowl) :=
    if fgtb (bat_first_win_pct venue_impact) (of_Z 50)
    then (fmul team1_bat_vs_team2_bowl venue_bat_impact,
          fmul team2_bat_vs_team1_bowl venue_bat_impact)
    else (fmul team1_bat_vs_team2_bowl venue_bowl_impact,
          fmul team2_bat_vs_team1_bowl venue_bowl_impact) in
  (* base probability, head-to-head, toss *)
  let base_prob_team1 :=
    base_win_probability team1_ratings team2_ratings h2h in
  let base_prob_team2 := fsub (of_Z 100) base_prob_team1 in
  let '(base_prob_team1, base_prob_team2) :=
    apply_toss_advantage venue_impact toss_winner toss_decision
                         base_prob_team1 base_prob_team2 in
  let! normalized := normalize base_prob_team1 base_prob_team2 in
  let '(base_prob_team1, base_prob_team2) := normalized in
  let '(base_prob_team1, base_prob_team2) := clamp base_prob_team1 in
  let team1_player := get_player_to_watch self team1 venue_name in
  let team2_player := get_player_to_watch self team2 venue_name in
  ret {| wp_team1 := team1;
         wp_team2 := team2;
         wp_venue := venue_name;
         win_prob := (fround1 base_prob_team1, fround1 base_prob_team2);
         key_factor :=
           key_factor_text venue_impact team1 team2
                           team1_ratings team2_ratings;
         player_to_watch := (team1_player, team2_player);
         wp_venue_impact := (bat_first_win_pct venue_impact,
                             bowl_first_win_pct venue_impact);
         head_to_head :=
           team1 +:+ " " +:+ pretty (team1_wins h2h) +:+ "-"
                 +:+ pretty (team2_wins h2h) +:+ " " +:+ team2;
         toss_impact := (toss_winner, toss_decision) |}.

End WithNumbers.
Arguments Rating F : clear implicits.
Arguments VenueImpact F : clear implicits.
Arguments t F : clear implicits.
Arguments HeadToHead F : clear implicits.
Arguments PlayerNote F : clear implicits.
Arguments WinProbability F : clear implicits.
End MatchAnalyzer.

(** ** tournament_simulator.py *)

(** [seq[i]] read as an expression. *)
Definition list_item {A} (l : list A) (i : nat) : M A :=
  match l !! i with
  | Some x => ret x
  | None => raise IndexError
  end.

Module TournamentSimulator.
Section WithNumbers.
Context `{PyNum F}.

Record t : Type := {
  num_simulations : Z;
  schedule_df : list Fixture;
  team_ratings_df : list (RatingRow F);
  venue_stats_df : list (VenueRow F);
  analyzer : MatchAnalyzer.t F;
  teams : list string
}.

Definition init (csv : Files F) (n : Z) : t := {|
  num_simulations := n;
  schedule_df := SCHEDULE_FILE csv;
  team_ratings_df := TEAM_RATINGS_FILE csv;
  venue_stats_df := VENUE_STATS_FILE csv;
  analyzer := MatchAnalyzer.init csv;
  teams := map Team (TEAM_RATINGS_FILE csv)
|}.

Definition simulate_optimal_toss_decision (self : t) (venue_name : string)
  : M string :=
  match filter (fun row => venue row = venue_name) (venue_stats_df self) with
  | [] => choice "Bat" "Bowl"
  | row :: _ =>
      let bat_first_win_pct := win_percent_bat_first row in
      if fgtb bat_first_win_pct (of_Z 52) then
        let! u := random in
        ret (if fgtb u (lit 2 10) then "Bat" else "Bowl")
      else if fltb bat_first_win_pct (of_Z 48) then
        let! u := random in
        ret (if fgtb u (lit 2 10) then "Bowl" else "Bat")
      else choice "Bat" "Bowl"
  end.

Record MatchResult : Type := {
  mr_match_id : Z;
  mr_team1 : string;
  mr_team2 : string;
  mr_venue : string;
  winner : string;
  loser : string;
  win_prob_team1 : F;
  win_prob_team2 : F;
  mr_toss_winner : string;
  mr_toss_decision : string
}.

Definition simulate_single_match (self : t) (match_data : Fixture)
  : M MatchResult :=
  let match_id := Match_ID match_data in
  let team1 := Team1 match_data in
  let team2 := Team2 match_data in
  let venue_name := Venue match_data in
  let! toss_winner := choice "Team A" "Team B" in
  let! toss_decision := simulate_optimal_toss_decision self venue_name in
  let! match_result :=
    MatchAnalyzer.calculate_win_probability
      (analyzer self) match_id toss_winner toss_decision in
  let team1_prob :=
    fdiv (fst (MatchAnalyzer.win_prob match_result)) (of_Z 100) in
  let! u := random in
  let '(w, l) := if fltb u team1_prob then (team1, team2)
                 else (team2, team1) in
  ret {| mr_match_id := match_id;
         mr_team1 := team1;
         mr_team2 := team2;
         mr_venue := venue_name;
         winner := w;
         loser := l;
         win_prob_team1 := fst (MatchAnalyzer.win_prob match_result);
         win_prob_team2 := snd (MatchAnalyzer.win_prob match_result);
         mr_toss_winner := toss_winner;
         mr_toss_decision := toss_decision |}.

Record TeamStats : Type := { wins : Z; losses : Z; points : Z }.

Record StandingsRow : Type := {
  st_team : string;
  st_wins : Z;
  st_losses : Z;
  st_points : Z
}.

(** [df.sort_values('points', ascending=False)].  A frame built from an
    empty list of records has no columns, and sorting it by a column
    raises [KeyError]. *)
Definition sort_by_points (df : list StandingsRow) : M (list StandingsRow) :=
  match df with
  | [] => raise (KeyError "points")
  | _ => ret (sort_desc Z.ltb st_points df)
  end.

(** "Update team stats (2 points for win, 0 for loss)". *)
Definition update_team_stats (team_stats : list (string * TeamStats))
    (result : MatchResult) : M (list (string * TeamStats)) :=
  let! s := dict_item (winner result) team_stats in
  let team_stats :=
    dict_set (winner result)
      {| wins := wins s + 1; losses := losses s; points := points s |}
      team_stats in
  let! s := dict_item (winner result) team_stats in
  let team_stats :=
    dict_set (winner result)
      {| wins := wins s; losses := losses s; points := points s + 2 |}
      team_stats in
  let! s := dict_item (loser result) team_stats in
  ret (dict_set (loser result)
         {| wins := wins s; losses := losses s + 1; points := points s |}
         team_stats).

Record GroupStage : Type := {
  standings : list StandingsRow;
  match_results : list MatchResult
}.

(** The body of the loop of [simulate_group_stage]; [acc] holds
    [team_stats] and [match_results]. *)
Definition play_fixture (self : t)
    (acc : list (string * TeamStats) * list MatchResult)
    (match_data : Fixture)
  : M (list (string * TeamStats) * list MatchResult) :=
  let! result := simulate_single_match self match_data in
  let! team_stats := update_team_stats (fst acc) result in
  ret (team_stats, snd acc ++ [result]).

Definition simulate_group_stage (self : t) : M GroupStage :=
  let team_stats :=
    foldl (fun d team_name =>
             dict_set team_name {| wins := 0; losses := 0; points := 0 |} d)
          [] (teams self) in
  let! acc :=
    for_each (schedule_df self) (play_fixture self) (team_stats, []) in
  let standings_rows :=
    map (fun kv => {| st_team := fst kv;
                      st_wins := wins (snd kv);
                      st_losses := losses (snd kv);
                      st_points := points (snd kv) |}) (fst acc) in
  let! standings_df := sort_by_points standings_rows in
  ret {| standings := standings_df; match_results := snd acc |}.

Record PlayoffTeams : Type := {
  top_3 : list string;
  eliminator : list string;
  final_4 : list string
}.

Definition determine_playoffs (standings_df : list StandingsRow)
  : M PlayoffTeams :=
  let! standings_df := sort_by_points standings_df in
  let top := map st_team (take 3 standings_df) in
  let eliminator_teams :=
    if (5 <=? length standings_df)%nat
    then map st_team (take 2 (drop 3 standings_df)) else [] in
  ret {| top_3 := top;
         eliminator := eliminator_teams;
         final_4 := match eliminator_teams with
                    | [] => top
                    | _ => top ++ take 1 eliminator_teams
                    end |}.

Definition simulate_playoffs (self : t) (playoff_teams : PlayoffTeams)
  : M string :=
  if (length (top_3 playoff_teams) <? 3)%nat then
    match top_3 playoff_teams with
    | [] => list_item (teams self) 0
    | _ => list_item (top_3 playoff_teams) 0
    end
  else
    let! team1 := list_item (top_3 playoff_teams) 0 in
    let! team2 := list_item (top_3 playoff_teams) 1 in
    let final_match :=
      {| Match_ID := 999;
         Team1 := team1;
         Team2 := team2;
         Venue := "Lord's, London";
         Date := "";
         Time' := "" |} in
    let! final_result := simulate_single_match self final_match in
    ret (winner final_result).

Record Simulation : Type := {
  sim_winner : string;
  sim_standings : list StandingsRow;
  sim_playoff_teams : PlayoffTeams;
  sim_match_results : list MatchResult
}.

Definition run_simulation (self : t) : M Simulation :=
  let! group_result := simulate_group_stage self in
  let! playoff_teams := determine_playoffs (standings group_result) in
  let! champion := simulate_playoffs self playoff_teams in
  ret {| sim_winner := champion;
         sim_standings := standings group_result;
         sim_playoff_teams := playoff_teams;
         sim_match_results := match_results group_result |}.

(** [d[k] += 1] on a [defaultdict(int)]. *)
Definition incr (k : string) (d : gmap string Z) : gmap string Z :=
  <[k := default 0 (d !! k) + 1]> d.

Record SimulationData : Type := {
  winners : list string;
  playoff_appearances : gmap string Z;
  final_standings : gmap string (list Z);
  sample_match_results : list MatchResult
}.

(** One pass of the loop of [run_multiple_simulations], [i] being the
    loop index. *)
Definition simulation_step (self : t) (acc : SimulationData) (i : nat)
  : M SimulationData :=
  let! sim_result := run_simulation self in
  let appearances :=
    foldl (fun d team_name => incr team_name d)
          (playoff_appearances acc)
          (top_3 (sim_playoff_teams sim_result)) in
  let appearances :=
    foldl (fun d team_name => incr team_name d)
          appearances
          (eliminator (sim_playoff_teams sim_result)) in
  let points_lists :=
    foldl (fun d row =>
             <[st_team row :=
                 default [] (d !! st_team row) ++ [st_points row]]> d)
          (final_standings acc) (sim_standings sim_result) in
  ret {| winners := winners acc ++ [sim_winner sim_result];
         playoff_appearances := appearances;
         final_standings := points_lists;
         sample_match_results :=
           match i with
           | O => sim_match_results sim_result
           | _ => sample_match_results acc
           end |}.

Definition run_multiple_simulations (self : t) : M SimulationData :=
  for_each (seq 0 (Z.to_nat (num_simulations self)))
           (simulation_step self)
           {| winners := [];
              playoff_appearances := ∅;
              final_standings := ∅;
              sample_match_results := [] |}.

Record AnalysisRow : Type := {
  ar_Team : string;
  Win_Probability : F;
  Playoff_Probability : F;
  Titles_Won : Z;
  Playoff_Appearances : Z
}.

(** [Counter(winners)]. *)
Definition Counter (l : list string) : gmap string Z :=
  foldl (fun c x => incr x c) ∅ l.

Definition analyze_results (self : t) (simulation_data : SimulationData)
  : M (list AnalysisRow) :=
  let winner_counts := Counter (winners simulation_data) in
  let appearances := playoff_appearances simulation_data in
  let! analysis :=
    for_each (teams self)
      (fun analysis team_name =>
         let titles := default 0 (winner_counts !! team_name) in
         let played := default 0 (appearances !! team_name) in
         let! q := py_int_div titles (num_simulations self) in
         let win_probability := fmul q (of_Z 100) in
         let! q := py_int_div played (num_simulations self) in
         let playoff_probability := fmul q (of_Z 100) in
         ret (analysis ++
              [{| ar_Team := team_name;
                  Win_Probability := fround1 win_probability;
                  Playoff_Probability := fround1 playoff_probability;
                  Titles_Won := titles;
                  Playoff_Appearances := played |}]))
      [] in
  match analysis with
  | [] => raise (KeyError "Win_Probability_%")
  | _ => ret (sort_desc fltb Win_Probability analysis)
  end.

Record CrucialMatch : Type := {
  cm_match_id : Z;
  cm_teams : string;
  cm_venue : string;
  cm_winner : string;
  importance_score : F;
  prob_difference : F
}.

(** [team_ratings_df.nlargest(4, 'Overall_Rating')['Team'].tolist()]:
    the four highest ratings, the earlier row first among equal ones. *)
Definition top_teams (self : t) : list string :=
  map Team (take 4 (sort_desc fltb Overall_Rating (team_ratings_df self))).

Definition crucial_entry (m : MatchResult) : CrucialMatch :=
  let prob_diff := fabs (fsub (win_prob_team1 m) (win_prob_team2 m)) in
  let importance := fsub (of_Z 100) prob_diff in
  {| cm_match_id := mr_match_id m;
     cm_teams := mr_team1 m +:+ " vs " +:+ mr_team2 m;
     cm_venue := mr_venue m;
     cm_winner := winner m;
     importance_score := fround1 importance;
     prob_difference := fround1 prob_diff |}.

Definition find_crucial_matches (self : t) (results : list MatchResult)
  : list CrucialMatch :=
  let top := top_teams self in
  let crucial_matches :=
    map crucial_entry
        (filter (fun m => mr_team1 m ∈ top /\ mr_team2 m ∈ top) results) in
  take 5 (sort_desc fltb importance_score crucial_matches).

(** One row of the match-by-match predictions table. *)
Record Prediction : Type := {
  pr_Match_ID : Z;
  pr_Team1 : string;
  pr_Team2 : string;
  pr_Venue : string;
  Predicted_Winner : string;
  Team1_Win_Prob : F;
  Team2_Win_Prob : F;
  Toss_Winner : string;
  Toss_Decision : string
}.

Definition create_match_predictions (self : t)
    (match_results : list MatchResult) : list Prediction :=
  map (fun m => {| pr_Match_ID := mr_match_id m;
                   pr_Team1 := mr_team1 m;
                   pr_Team2 := mr_team2 m;
                   pr_Venue := mr_venue m;
                   Predicted_Winner := winner m;
                   Team1_Win_Prob := fround1 (win_prob_team1 m);
                   Team2_Win_Prob := fround1 (win_prob_team2 m);
                   Toss_Winner := mr_toss_winner m;
                   Toss_Decision := mr_toss_decision m |})
      match_results.

End WithNumbers.
Arguments t F : clear implicits.
Arguments MatchResult F : clear implicits.
Arguments Prediction F : clear implicits.
Arguments SimulationData F : clear implicits.
Arguments AnalysisRow F : clear implicits.
Arguments CrucialMatch F : clear implicits.
Arguments GroupStage F : clear implicits.
Arguments Simulation F : clear implicits.
End TournamentSimulator.

(** * Vocabulary of the statements *)

Definition sum_with {A} (f : A -> Z) (l : list A) : Z :=
  foldr (fun x acc => f x + acc) 0 l.

(** Descending order of a rational key. *)
Definition descending {A} (key : A -> Q) (a b : A) : Prop :=
  (key b <= key a)%Q.

Section AnalyzerVocabulary.
Context `{PyNum F}.
Import MatchAnalyzer.

(** The dictionary that [get_match_details] builds from a schedule row. *)
Definition details_of (match_id : Z) (row : Fixture) : MatchDetails :=
  {| md_match_id := match_id;
     md_team1 := Team1 row;
     md_team2 := Team2 row;
     md_venue := Venue row;
     md_date := Date row;
     md_time := Time' row |}.

(** The probability pair after the toss, as a function of what it is
    computed from: the two ratings, the venue, the head-to-head record and
    the toss. *)
Definition tossed (team1_ratings team2_ratings : Rating F)
    (venue_impact : VenueImpact F) (h2h : HeadToHead F)
    (tw td : string) : F * F :=
  let b1 := base_win_probability team1_ratings team2_ratings h2h in
  apply_toss_advantage venue_impact tw td b1 (fsub (of_Z 100) b1).

Definition rounded (p : F * F) : F * F := (fround1 (fst p), fround1 (snd p)).

(** The lookup entry that [__init__] makes of a rating row. *)
Definition rating_of (row : RatingRow F) : Rating F :=
  {| batting := Bat_Rating row;
     bowling := Bowl_Rating row;
     overall := Overall_Rating row |}.

(** Two rating tables that agree on team names and overall ratings. *)
Definition same_overall (rows1 rows2 : list (RatingRow F)) : Prop :=
  Forall2 (fun a b => Team a = Team b /\ Overall_Rating a = Overall_Rating b)
          rows1 rows2.

Definition overall_rel (a b : option (Rating F)) : Prop :=
  match a, b with
  | Some x, Some y => overall x = overall y
  | None, None => True
  | _, _ => False
  end.
End AnalyzerVocabulary.

(** Reference data on which no division of the model is by zero: no
    bowling rating is -20. *)
Definition bowling_defined (csv : Files Q) : Prop :=
  forall row, row ∈ TEAM_RATINGS_FILE csv -> ~ (Bowl_Rating row + 20 == 0)%Q.

Section SimulatorVocabulary.
Context `{PyNum F}.
Import TournamentSimulator.

(** What one simulated match records about its fixture. *)
Definition played (match_data : Fixture) (res : MatchResult F) : Prop :=
  mr_match_id res = Match_ID match_data
  /\ mr_team1 res = Team1 match_data
  /\ mr_team2 res = Team2 match_data
  /\ mr_venue res = Venue match_data
  /\ ((winner res = Team1 match_data /\ loser res = Team2 match_data)
      \/ (winner res = Team2 match_data /\ loser res = Team1 match_data)).

Definition points_rule (s : TeamStats) : Prop := points s = 2 * wins s.

(** The standings row of a dictionary entry. *)
Definition row_of (kv : string * TeamStats) : StandingsRow :=
  {| st_team := fst kv;
     st_wins := wins (snd kv);
     st_losses := losses (snd kv);
     st_points := points (snd kv) |}.

(** [team_stats] as [simulate_group_stage] initialises it. *)
Definition initial_stats (self : t F) : list (string * TeamStats) :=
  foldl (fun d team_name =>
           dict_set team_name {| wins := 0; losses := 0; points := 0 |} d)
        [] (teams self).

(** Titles never exceed playoff appearances in the running totals. *)
Definition titles_within_appearances (acc : SimulationData F) : Prop :=
  forall team_name,
    default 0 (Counter (winners acc) !! team_name)
    <= default 0 (playoff_appearances acc !! team_name).
End SimulatorVocabulary.

(** ** Sample reference data *)

Section Samples.
Context `{PyNum F}.

Definition rating_row (name : string) (bat bowl ovr : F) : RatingRow F :=
  {| Team := name; Bat_Rating := bat; Bowl_Rating := bowl;
     Overall_Rating := ovr |}.

Definition fixture (match_id : Z) (team1 team2 venue_name : string)
  : Fixture :=
  {| Match_ID := match_id; Team1 := team1; Team2 := team2;
     Venue := venue_name; Date := "2025-08-05"; Time' := "11:00 PM" |}.

Definition oval : VenueRow F :=
  {| venue := "Kennington Oval, London";
     win_percent_bat_first := of_Z 60;
     win_percent_bowl_first := of_Z 40;
     avg_first_innings_score := of_Z 150;
     run_rate := lit 85 10 |}.

(** Two rated teams that meet twice at a batting-friendly ground;
    [bat], [bowl] and [ovr] are the ratings of the first team. *)
Definition two_teams_with (bat bowl ovr : F) : Files F :=
  {| SCHEDULE_FILE :=
       [fixture 1 "Oval Invincibles" "Welsh Fire" "Kennington Oval, London";
        fixture 2 "Welsh Fire" "Oval Invincibles" "Kennington Oval, London"];
     TEAM_RATINGS_FILE :=
       [rating_row "Oval Invincibles" bat bowl ovr;
        rating_row "Welsh Fire" (of_Z 48) (of_Z 50) (of_Z 50)];
     VENUE_STATS_FILE := [oval];
     PLAYER_STATS_FILE := [] |}.

Definition two_teams (ovr : F) : Files F :=
  two_teams_with (of_Z 55) (of_Z 52) ovr.

(** Three rated teams and a three-match schedule. *)
Definition three_teams : Files F :=
  {| SCHEDULE_FILE :=
       [fixture 1 "Oval Invincibles" "Welsh Fire" "Kennington Oval, London";
        fixture 2 "Welsh Fire" "London Spirit" "Sophia Gardens, Cardiff";
        fixture 3 "London Spirit" "Oval Invincibles" "Lord's, London"];
     TEAM_RATINGS_FILE :=
       [rating_row "Oval Invincibles" (of_Z 55) (of_Z 52) (of_Z 54);
        rating_row "Welsh Fire" (of_Z 48) (of_Z 50) (of_Z 50);
        rating_row "London Spirit" (of_Z 50) (of_Z 51) (of_Z 51)];
     VENUE_STATS_FILE := [oval];
     PLAYER_STATS_FILE := [] |}.

(** Two rated teams and one fixture between a rated and an unrated team. *)
Definition unrated_visitor : Files F :=
  {| SCHEDULE_FILE :=
       [fixture 1 "Oval Invincibles" "Trent Rockets" "Kennington Oval, London"];
     TEAM_RATINGS_FILE :=
       [rating_row "Oval Invincibles" (of_Z 55) (of_Z 52) (of_Z 54);
        rating_row "Welsh Fire" (of_Z 48) (of_Z 50) (of_Z 50)];
     VENUE_STATS_FILE := [oval];
     PLAYER_STATS_FILE := [] |}.

(** Two teams of equal overall rating meeting at a ground without a venue
    profile (the neutral 50/50 defaults apply). *)
Definition level_teams : Files F :=
  {| SCHEDULE_FILE :=
       [fixture 1 "Oval Invincibles" "Welsh Fire" "Sophia Gardens, Cardiff"];
     TEAM_RATINGS_FILE :=
       [rating_row "Oval Invincibles" (of_Z 55) (of_Z 52) (of_Z 50);
        rating_row "Welsh Fire" (of_Z 48) (of_Z 50) (of_Z 50)];
     VENUE_STATS_FILE := [];
     PLAYER_STATS_FILE := [] |}.
End Samples.

(** A tape that always yields the same raw value. *)
Definition constant_tape (z : Z) : Rng := {| tape := fun _ => z; pos := 0 |}.

(** ** Vocabulary of the further properties *)

(** The random state after [k] more calls to the random module. *)
Definition advance (r : Rng) (k : nat) : Rng :=
  {| tape := tape r; pos := (k + pos r)%nat |}.

(** Descending order of an integer key. *)
Definition descending_Z {A} (key : A -> Z) (a b : A) : Prop := key b <= key a.

(** The number of times a team is named in a list of fixtures. *)
Definition fixtures_of (team_name : string) (l : list Fixture) : Z :=
  sum_with (fun m => (if decide (Team1 m = team_name) then 1 else 0)
                     + (if decide (Team2 m = team_name) then 1 else 0)) l.

(** The number of playoff places that one run hands out: the top three
    and, with five teams or more, the two eliminator places. *)
Definition playoff_places (team_count : nat) : nat :=
  if (5 <=? team_count)%nat then 5%nat else Nat.min 3 team_count.

(** Team 1's share of the probability mass once the toss bonus [t] has
    been added to the toss winner's side of a [b] / [100 - b] split. *)
Definition toss_share (b t : Q) (toss_winner : string) : Q :=
  ((if decide (toss_winner = "Team A") then b + t else b) / (100 + t) * 100)%Q.

Section LookupVocabulary.
Context `{PyNum F}.
Import MatchAnalyzer.

(** The lookup entry that [__init__] makes of a venue row. *)
Definition impact_of (row : VenueRow F) : VenueImpact F :=
  {| bat_first_win_pct := win_percent_bat_first row;
     bowl_first_win_pct := win_percent_bowl_first row;
     avg_score := avg_first_innings_score row;
     vi_run_rate := run_rate row |}.

(** The points the toss is worth: 15 for the decision the venue favours,
    half of that otherwise. *)
Definition toss_bonus (venue_impact : VenueImpact F) (toss_decision : string)
  : F :=
  if decide (toss_decision = "Bat") then
    if fgtb (bat_first_win_pct venue_impact) (of_Z 50)
    then of_Z 15 else fmul (of_Z 15) (lit 1 2)
  else
    if fgtb (bowl_first_win_pct venue_impact) (of_Z 50)
    then of_Z 15 else fmul (of_Z 15) (lit 1 2).

(** The players [get_player_to_watch] considers as batters of a team, and
    as bowlers. *)
Definition can_bat (team_name : string) (p : PlayerRow F) : Prop :=
  team p = team_name
  /\ (role p = "Batter" \/ role p = "All-rounder")
  /\ fgtb (bat_avg_first p) (of_Z 0) = true.

Definition can_bowl (team_name : string) (p : PlayerRow F) : Prop :=
  team p = team_name
  /\ (role p = "Bowler" \/ role p = "All-rounder")
  /\ fgtb (bowl_econ_first p) (of_Z 0) = true.
End LookupVocabulary.

Section DriverVocabulary.
Context `{PyNum F}.
Import TournamentSimulator.

(** The value [random.random()] makes of the raw entropy [k]. *)
Definition unit_interval (k : Z) : F :=
  fdiv (of_Z (k mod 2 ^ 53)) (of_Z (2 ^ 53)).

(** Calls to the random module made by one tournament run: four per
    fixture and four more for the final when three or more teams are
    ranked. *)
Definition draws_per_run (self : t F) : nat :=
  (4 * length (schedule_df self)
   + if (length (initial_stats self) <? 3)%nat then 0 else 4)%nat.

(** Two simulated matches went the same way: same odds, same toss, and
    the winner sits in the same position of its fixture. *)
Definition same_course (match_data1 match_data2 : Fixture)
    (res1 res2 : MatchResult F) : Prop :=
  win_prob_team1 res1 = win_prob_team1 res2
  /\ win_prob_team2 res1 = win_prob_team2 res2
  /\ mr_toss_winner res1 = mr_toss_winner res2
  /\ mr_toss_decision res1 = mr_toss_decision res2
  /\ ((winner res1 = Team1 match_data1 /\ winner res2 = Team1 match_data2)
      \/ (winner res1 = Team2 match_data1 /\ winner res2 = Team2 match_data2)).

(** Running totals kept by the loop of [run_multiple_simulations], [pre]
    being the loop indices gone through. *)
Definition bookkeeping (self : t F) (pre : list nat) (acc : SimulationData F)
  : Prop :=
  (forall k, 0 <= default 0 (playoff_appearances acc !! k)
             <= Z.of_nat (length pre))
  /\ (forall k, k ∉ map fst (initial_stats self) ->
                default 0 (playoff_appearances acc !! k) = 0)
  /\ sum_with (fun k => default 0 (playoff_appearances acc !! k))
              (map fst (initial_stats self))
     = Z.of_nat (length pre * playoff_places (length (initial_stats self)))
  /\ (forall k, k ∈ map fst (initial_stats self) ->
                length (default [] (final_standings acc !! k)) = length pre
                /\ Forall (fun p => 0 <= p
                                    <= 2 * fixtures_of k (schedule_df self)
                                    /\ Z.even p = true)
                          (default [] (final_standings acc !! k)))
  /\ (forall k, k ∉ map fst (initial_stats self) ->
                default [] (final_standings acc !! k) = [])
  /\ match pre with
     | [] => sample_match_results acc = []
     | first :: _ =>
         first = 0%nat ->
         Forall2 played (schedule_df self) (sample_match_results acc)
     end.
End DriverVocabulary.

(** ** More sample data *)

Section MoreSamples.
Context `{PyNum F}.

(** A rating table in which a team is listed twice. *)
Definition restated_ratings : Files F :=
  {| SCHEDULE_FILE :=
       [fixture 1 "Oval Invincibles" "Welsh Fire" "Kennington Oval, London"];
     TEAM_RATINGS_FILE :=
       [rating_row "Oval Invincibles" (of_Z 55) (of_Z 52) (of_Z 54);
        rating_row "Welsh Fire" (of_Z 48) (of_Z 50) (of_Z 50);
        rating_row "Oval Invincibles" (of_Z 60) (of_Z 58) (of_Z 59)];
     VENUE_STATS_FILE := [oval];
     PLAYER_STATS_FILE := [] |}.

Definition player_row (team_name name role_name : string)
    (avg sr econ : F) : PlayerRow F :=
  {| team := team_name; player := name; role := role_name;
     bat_avg_first := avg; bat_sr_first := sr; bowl_econ_first := econ |}.

(** A squad list: a batter of another team, then two batters and an
    all-rounder of whom two share the best average, and a bowler. *)
Definition squad : list (PlayerRow F) :=
  [player_row "Welsh Fire" "J Bairstow" "Batter" (of_Z 31) (of_Z 150) (of_Z 0);
   player_row "Oval Invincibles" "W Jacks" "Batter" (of_Z 28) (of_Z 160) (of_Z 0);
   player_row "Oval Invincibles" "S Curran" "All-rounder" (of_Z 30) (of_Z 140) (of_Z 8);
   player_row "Oval Invincibles" "J Cox" "Batter" (of_Z 30) (of_Z 155) (of_Z 0);
   player_row "Oval Invincibles" "A Zampa" "Bowler" (of_Z 0) (of_Z 0) (of_Z 7)].

Definition with_players (csv : Files F) (players : list (PlayerRow F))
  : Files F :=
  {| SCHEDULE_FILE := SCHEDULE_FILE csv;
     TEAM_RATINGS_FILE := TEAM_RATINGS_FILE csv;
     VENUE_STATS_FILE := VENUE_STATS_FILE csv;
     PLAYER_STATS_FILE := players |}.
End MoreSamples.

Definition standings_row (name : string) (w l : Z)
  : TournamentSimulator.StandingsRow :=
  {| TournamentSimulator.st_team := name;
     TournamentSimulator.st_wins := w;
     TournamentSimulator.st_losses := l;
     TournamentSimulator.st_points := 2 * w |}.

(** A table of five teams, not yet ranked. *)
Definition five_team_table : list TournamentSimulator.StandingsRow :=
  [standings_row "Welsh Fire" 1 3;
   standings_row "Oval Invincibles" 4 0;
   standings_row "London Spirit" 2 2;
   standings_row "Trent Rockets" 3 1;
   standings_row "Southern Brave" 0 4].

(** * Properties *)

(** ** Exact rational arithmetic *)

Module QFacts.
Local Open Scope Q_scope.

Lemma ltb_lt (x y : Q) : QNum.ltb x y = true <-> x < y.
Proof.
  unfold QNum.ltb. rewrite negb_true_iff.
  split.
  - intros Hb. apply Qnot_le_lt. intros Hle.
    apply Qle_bool_iff in Hle. congruence.
  - intros Hlt. destruct (Qle_bool y x) eqn:E; [|reflexivity].
    apply Qle_bool_iff in E. lra.
Qed.

Lemma ltb_ge (x y : Q) : QNum.ltb x y = false <-> y <= x.
Proof.
  unfold QNum.ltb. rewrite negb_false_iff. apply Qle_bool_iff.
Qed.

Lemma floor_unique (x : Q) (f : Z) :
  inject_Z f <= x -> x < inject_Z (f + 1) -> Qfloor x = f.
Proof.
  intros Hlo Hhi.
  pose proof (Qfloor_le x) as H1. pose proof (Qlt_floor x) as H2.
  assert (Hlt1 : inject_Z f < inject_Z (Qfloor x + 1)) by lra.
  assert (Hlt2 : inject_Z (Qfloor x) < inject_Z (f + 1)) by lra.
  rewrite <- Zlt_Qlt in Hlt1, Hlt2. lia.
Qed.

Lemma floor_frac (x : Q) :
  0 <= x - inject_Z (Qfloor x) /\ x - inject_Z (Qfloor x) < 1.
Proof.
  pose proof (Qfloor_le x) as H1. pose proof (Qlt_floor x) as H2.
  rewrite inject_Z_plus in H2. change (inject_Z 1) with 1 in H2. lra.
Qed.

(** The three cases of rounding to the nearest integer. *)
Lemma rne_cases (x : Q) :
  let f := Qfloor x in
  (x - inject_Z f < 1 # 2 /\ QNum.rne x = f)
  \/ (1 # 2 < x - inject_Z f /\ QNum.rne x = (f + 1)%Z)
  \/ (x - inject_Z f == 1 # 2
      /\ QNum.rne x = if Z.even f then f else (f + 1)%Z).
Proof.
  cbv zeta. unfold QNum.rne.
  destruct (Qcompare (x - inject_Z (Qfloor x)) (1 # 2)) eqn:E.
  - apply Qeq_alt in E. right; right. split; [exact E | reflexivity].
  - apply Qlt_alt in E. left. split; [exact E | reflexivity].
  - apply Qgt_alt in E. right; left. split; [exact E | reflexivity].
Qed.

Lemma rne_comp (x y : Q) : x == y -> QNum.rne x = QNum.rne y.
Proof.
  intros E. unfold QNum.rne.
  rewrite (Qfloor_comp _ _ E).
  assert (E' : x - inject_Z (Qfloor y) == y - inject_Z (Qfloor y))
    by (rewrite E; reflexivity).
  rewrite (Qcompare_comp _ _ E' (1 # 2) (1 # 2) (Qeq_refl _)).
  reflexivity.
Qed.

Lemma rne_inject (z : Z) : QNum.rne (inject_Z z) = z.
Proof.
  assert (Hf : Qfloor (inject_Z z) = z) by apply Qfloor_Z.
  destruct (rne_cases (inject_Z z)) as [[_ E]|[[H _]|[H _]]];
    rewrite Hf in *; [exact E | lra | lra].
Qed.

Lemma rne_mono (x y : Q) : x <= y -> (QNum.rne x <= QNum.rne y)%Z.
Proof.
  intros Hxy.
  pose proof (Qfloor_resp_le _ _ Hxy) as Hf.
  destruct (rne_cases x) as [[Hx Ex]|[[Hx Ex]|[Hx Ex]]];
    destruct (rne_cases y) as [[Hy Ey]|[[Hy Ey]|[Hy Ey]]];
    rewrite Ex, Ey; clear Ex Ey;
    destruct (Z.eq_dec (Qfloor x) (Qfloor y)) as [E|NE];
    try rewrite E in *;
    repeat match goal with |- context [Z.even ?a] => destruct (Z.even a) end;
    try lia; exfalso; lra.
Qed.

Lemma rne_lower (x : Q) (n : Z) : inject_Z n <= x -> (n <= QNum.rne x)%Z.
Proof.
  intros H. rewrite <- (rne_inject n). apply rne_mono, H.
Qed.

Lemma rne_upper (x : Q) (n : Z) : x <= inject_Z n -> (QNum.rne x <= n)%Z.
Proof.
  intros H. rewrite <- (rne_inject n). apply rne_mono, H.
Qed.

(** Rounding [x] and [n - x] to the nearest integer, ties to even, gives
    two integers that sum to [n] when [n] is even. *)
Lemma rne_complement (n : Z) (x : Q) :
  Z.even n = true ->
  (QNum.rne x + QNum.rne (inject_Z n - x) = n)%Z.
Proof.
  intros Hn.
  set (f := Qfloor x).
  destruct (floor_frac x) as [Hlo Hhi]. fold f in Hlo, Hhi.
  destruct (Qeq_dec (x - inject_Z f) 0) as [Hz|Hnz].
  - (* x is an integer *)
    assert (Ex : x == inject_Z f) by lra.
    rewrite (rne_comp _ _ Ex), rne_inject.
    assert (Ey : inject_Z n - x == inject_Z (n - f)).
    { rewrite Ex. unfold Z.sub. rewrite inject_Z_plus, inject_Z_opp. lra. }
    rewrite (rne_comp _ _ Ey), rne_inject. lia.
  - assert (Hf' : Qfloor (inject_Z n - x) = (n - f - 1)%Z).
    { apply floor_unique.
      - unfold Z.sub. rewrite !inject_Z_plus, !inject_Z_opp.
        change (inject_Z 1) with 1. lra.
      - replace (n - f - 1 + 1)%Z with (n + - f)%Z by lia.
        rewrite inject_Z_plus, inject_Z_opp. lra. }
    assert (Hfrac : inject_Z n - x - inject_Z (n - f - 1)
                    == 1 - (x - inject_Z f)).
    { unfold Z.sub. rewrite !inject_Z_plus, !inject_Z_opp.
      change (inject_Z 1) with 1. lra. }
    assert (Hpar : Z.even (n - f - 1) = negb (Z.even f)).
    { rewrite Z.even_sub, Z.even_sub, Hn. simpl.
      destruct (Z.even f); reflexivity. }
    destruct (rne_cases x) as [[Hx Ex]|[[Hx Ex]|[Hx Ex]]];
      destruct (rne_cases (inject_Z n - x)) as [[Hy Ey]|[[Hy Ey]|[Hy Ey]]];
      rewrite Hf' in Hy, Ey; rewrite Hfrac in Hy; fold f in Hx, Ex;
      rewrite Ex, Ey; try (exfalso; lra); try lia.
    rewrite Hpar. destruct (Z.even f); simpl; lia.
Qed.

Lemma round1_bounds (x : Q) (lo hi : Z) :
  inject_Z lo <= x -> x <= inject_Z hi ->
  inject_Z lo <= QNum.round1 x /\ QNum.round1 x <= inject_Z hi.
Proof.
  intros Hlo Hhi. unfold QNum.round1.
  assert (H1 : (10 * lo <= QNum.rne (x * 10))%Z).
  { apply rne_lower. rewrite inject_Z_mult. change (inject_Z 10) with 10. lra. }
  assert (H2 : (QNum.rne (x * 10) <= 10 * hi)%Z).
  { apply rne_upper. rewrite inject_Z_mult. change (inject_Z 10) with 10. lra. }
  rewrite Zle_Qle in H1, H2. rewrite inject_Z_mult in H1, H2.
  change (inject_Z 10) with 10 in H1, H2.
  split; apply Qle_shift_div_l || apply Qle_shift_div_r; lra.
Qed.

Lemma round1_mono (x y : Q) : x <= y -> QNum.round1 x <= QNum.round1 y.
Proof.
  intros H. unfold QNum.round1.
  assert (Hr : (QNum.rne (x * 10) <= QNum.rne (y * 10))%Z)
    by (apply rne_mono; lra).
  rewrite Zle_Qle in Hr. unfold Qdiv.
  apply Qmult_le_compat_r; [exact Hr | discriminate].
Qed.

(** The two one-decimal roundings of a complementary pair sum to 100. *)
Lemma round1_complement (x : Q) :
  QNum.round1 x + QNum.round1 (100 - x) == 100.
Proof.
  unfold QNum.round1.
  assert (E : (100 - x) * 10 == inject_Z 1000 - x * 10).
  { change (inject_Z 1000) with 1000. lra. }
  rewrite (rne_comp _ _ E).
  pose proof (rne_complement 1000 (x * 10) eq_refl) as H.
  apply (f_equal inject_Z) in H. rewrite inject_Z_plus in H.
  change (inject_Z 1000) with 1000 in *.
  set (a := inject_Z (QNum.rne (x * 10))) in *.
  set (b := inject_Z (QNum.rne (1000 - x * 10))) in *.
  assert (Hab : a + b == 1000) by (rewrite H; reflexivity).
  transitivity ((a + b) / 10); [unfold Qdiv; ring|].
  rewrite Hab. reflexivity.
Qed.

(** A value with one decimal is left alone by [round(x, 1)]. *)
Lemma round1_tenth (k : Z) : QNum.round1 (inject_Z k / 10) == inject_Z k / 10.
Proof.
  unfold QNum.round1.
  assert (E : inject_Z k / 10 * 10 == inject_Z k) by field.
  rewrite (rne_comp _ _ E), rne_inject. reflexivity.
Qed.

End QFacts.

(** ** The monad *)

Section MonadFacts.
Context {A B : Type}.

Lemma bind_ok (c : M A) (k : A -> M B) r b r' :
  bind c k r = Ok (b, r') <->
  exists a r1, c r = Ok (a, r1) /\ k a r1 = Ok (b, r').
Proof.
  unfold bind. destruct (c r) as [[a r1]|e]; split.
  - intros Hk. exists a, r1. auto.
  - intros (a' & r1' & E & Hk). inversion E; subst. exact Hk.
  - discriminate.
  - intros (a' & r1' & E & _). discriminate.
Qed.

Lemma bind_raise (c : M A) (k : A -> M B) r e :
  bind c k r = Raise e <->
  c r = Raise e \/ exists a r1, c r = Ok (a, r1) /\ k a r1 = Raise e.
Proof.
  unfold bind. destruct (c r) as [[a r1]|e']; split.
  - intros Hk. right. exists a, r1. auto.
  - intros [E|(a' & r1' & E & Hk)]; [discriminate|].
    inversion E; subst. exact Hk.
  - intros E. left. congruence.
  - intros [E|(a' & r1' & E & _)]; [congruence | discriminate].
Qed.

Lemma bind_of_ok (c : M A) (k : A -> M B) r a r1 :
  c r = Ok (a, r1) -> bind c k r = k a r1.
Proof. unfold bind. intros ->. reflexivity. Qed.

Lemma bind_of_raise (c : M A) (k : A -> M B) r e :
  c r = Raise e -> bind c k r = Raise e.
Proof. unfold bind. intros ->. reflexivity. Qed.
End MonadFacts.

Lemma outcome_cases {A} (o : outcome A) : (exists a, o = Ok a) \/ (exists e, o = Raise e).
Proof. destruct o; eauto. Qed.

(** Every [for_each] that returns has run its body on every element. *)
Lemma for_each_ok_inv {A S} (P : S -> Prop) (Q : A -> Prop)
    (body : S -> A -> M S) :
  (forall s x r s' r', P s -> body s x r = Ok (s', r') -> P s' /\ Q x) ->
  forall l s r s' r',
    P s -> for_each l body s r = Ok (s', r') -> P s' /\ Forall Q l.
Proof.
  intros Hbody l. induction l as [|x l IH]; intros s r s' r' Hs Hrun.
  - simpl in Hrun. inversion Hrun; subst. split; [exact Hs | constructor].
  - simpl in Hrun. apply bind_ok in Hrun as (s1 & r1 & H1 & H2).
    destruct (Hbody _ _ _ _ _ Hs H1) as [Hs1 Hx].
    destruct (IH _ _ _ _ Hs1 H2) as [Hs' Hl].
    split; [exact Hs' | constructor; assumption].
Qed.

(** The random primitives never raise. *)
Lemma draw_ok r : draw r = Ok (tape r (pos r), {| tape := tape r; pos := S (pos r) |}).
Proof. reflexivity. Qed.

Lemma randint_ok (a b : Z) r :
  a <= b ->
  exists n r', randint a b r = Ok (n, r') /\ a <= n <= b.
Proof.
  intros Hab. unfold randint, bind, draw, ret.
  eexists _, _. split; [reflexivity|].
  pose proof (Z.mod_pos_bound (tape r (pos r)) (b - a + 1)). lia.
Qed.

Lemma choice_ok {A} (x y : A) r :
  exists c r', choice x y r = Ok (c, r') /\ (c = x \/ c = y).
Proof.
  unfold choice, bind, draw, ret. eexists _, _. split; [reflexivity|].
  destruct (Z.even _); auto.
Qed.

Lemma random_ok `{PyNum F} r : exists u r', random r = Ok (u, r').
Proof. unfold random, bind, draw, ret. eauto. Qed.

(** ** The win-probability model *)

Section AnalyzerFacts.
Context `{PyNum F}.
Import MatchAnalyzer.

Lemma get_match_details_absent (self : t F) match_id r :
  match_id ∉ map Match_ID (schedule_df self) ->
  get_match_details self match_id r = Raise (not_found match_id).
Proof.
  intros Hno. unfold get_match_details.
  destruct (filter _ _) as [|row rest] eqn:E; [reflexivity|].
  exfalso. apply Hno.
  assert (Hin : row ∈ filter (fun row => Match_ID row = match_id)
                             (schedule_df self))
    by (rewrite E; left).
  apply list_elem_of_filter in Hin as [Hid Hin].
  rewrite <- Hid. apply list_elem_of_In, in_map, list_elem_of_In, Hin.
Qed.

Lemma get_match_details_present (self : t F) match_id r :
  match_id ∈ map Match_ID (schedule_df self) ->
  exists row, row ∈ schedule_df self /\ Match_ID row = match_id /\
    get_match_details self match_id r = Ok (details_of match_id row, r).
Proof.
  intros Hin. unfold get_match_details.
  destruct (filter _ _) as [|row rest] eqn:E.
  - exfalso.
    apply list_elem_of_In, in_map_iff in Hin as (row & Hid & Hrow).
    apply list_elem_of_In in Hrow.
    assert (Hf : row ∈ filter (fun row => Match_ID row = match_id)
                              (schedule_df self))
      by (apply list_elem_of_filter; split; assumption).
    rewrite E in Hf. inversion Hf.
  - assert (Hrow : row ∈ filter (fun row => Match_ID row = match_id)
                                (schedule_df self))
      by (rewrite E; left).
    apply list_elem_of_filter in Hrow as [Hid Hrow].
    exists row. repeat split; assumption.
Qed.

Lemma get_match_details_ok_inv (self : t F) match_id r d r' :
  get_match_details self match_id r = Ok (d, r') ->
  r' = r /\ match_id ∈ map Match_ID (schedule_df self) /\
  exists row, row ∈ schedule_df self /\ Match_ID row = match_id /\
              d = details_of match_id row.
Proof.
  intros Hok.
  destruct (decide (match_id ∈ map Match_ID (schedule_df self))) as [Hin|Hno].
  - destruct (get_match_details_present self match_id r Hin)
      as (row & Hrow & Hid & E).
    rewrite E in Hok. inversion Hok; subst. eauto 10.
  - rewrite (get_match_details_absent self match_id r Hno) in Hok.
    discriminate.
Qed.

(** An absent match id ends the query with the "not found" error. *)
Lemma calculate_win_probability_absent (self : t F) match_id tw td r :
  match_id ∉ map Match_ID (schedule_df self) ->
  calculate_win_probability self match_id tw td r
  = Raise (not_found match_id).
Proof.
  intros Hno. unfold calculate_win_probability.
  apply bind_of_raise, get_match_details_absent, Hno.
Qed.

Lemma normalize_state b1 b2 r p r' :
  normalize b1 b2 r = Ok (p, r') -> r' = r.
Proof.
  unfold normalize, py_div, bind, ret, raise.
  repeat match goal with
         | |- context [if ?c then _ else _] => destruct c
         end; intros E; inversion E; reflexivity.
Qed.

(** What a returning query has computed. *)
Lemma calculate_win_probability_ok_inv (self : t F) match_id tw td r w r' :
  calculate_win_probability self match_id tw td r = Ok (w, r') ->
  exists row h2h n,
    get_match_details self match_id r = Ok (details_of match_id row, r) /\
    row ∈ schedule_df self /\ Match_ID row = match_id /\
    get_head_to_head_record self (Team1 row) (Team2 row) r = Ok (h2h, r') /\
    normalize
      (fst (tossed (get_team_rating self (Team1 row))
                   (get_team_rating self (Team2 row))
                   (get_venue_impact self (Venue row)) h2h tw td))
      (snd (tossed (get_team_rating self (Team1 row))
                   (get_team_rating self (Team2 row))
                   (get_venue_impact self (Venue row)) h2h tw td))
      r' = Ok (n, r') /\
    win_prob w = rounded (clamp (fst n)) /\
    wp_team1 w = Team1 row /\ wp_team2 w = Team2 row.
Proof.
  unfold calculate_win_probability. intros Hok.
  apply bind_ok in Hok as (d & r1 & Hd & Hok).
  pose proof Hd as Hd'.
  apply get_match_details_ok_inv in Hd' as (-> & _ & row & Hrow & Hid & ->).
  simpl in Hok.
  apply bind_ok in Hok as (h2h & r2 & Hh & Hok).
  apply bind_ok in Hok as (e1 & r3 & He1 & Hok).
  apply bind_ok in Hok as (e2 & r4 & He2 & Hok).
  assert (r3 = r2) as ->.
  { revert He1. unfold py_div, raise, ret.
    destruct (feqb _ _); intros E; inversion E; reflexivity. }
  assert (r4 = r2) as ->.
  { revert He2. unfold py_div, raise, ret.
    destruct (feqb _ _); intros E; inversion E; reflexivity. }
  destruct (if fgtb _ _ then _ else _) as [x1 x2] in Hok.
  destruct (apply_toss_advantage _ _ _ _ _) as [t1 t2] eqn:Et in Hok.
  apply bind_ok in Hok as (n & r5 & Hn & Hok).
  pose proof (normalize_state _ _ _ _ _ Hn) as ->.
  destruct n as [n1 n2].
  unfold ret in Hok. inversion Hok; subst. simpl.
  exists row, h2h, (n1, n2). unfold tossed. rewrite Et. simpl.
  repeat split; try assumption; reflexivity.
Qed.

(** Conversely, a query returns as soon as its steps do. *)
Lemma calculate_win_probability_run (self : t F) match_id tw td r row h r1 n :
  get_match_details self match_id r = Ok (details_of match_id row, r) ->
  get_head_to_head_record self (Team1 row) (Team2 row) r = Ok (h, r1) ->
  feqb (fadd (bowling (get_team_rating self (Team2 row))) (of_Z 20)) (of_Z 0)
  = false ->
  feqb (fadd (bowling (get_team_rating self (Team1 row))) (of_Z 20)) (of_Z 0)
  = false ->
  normalize
    (fst (tossed (get_team_rating self (Team1 row))
                 (get_team_rating self (Team2 row))
                 (get_venue_impact self (Venue row)) h tw td))
    (snd (tossed (get_team_rating self (Team1 row))
                 (get_team_rating self (Team2 row))
                 (get_venue_impact self (Venue row)) h tw td))
    r1 = Ok (n, r1) ->
  exists w, calculate_win_probability self match_id tw td r = Ok (w, r1)
            /\ win_prob w = rounded (clamp (fst n)).
Proof.
  intros Hd Hh Hz2 Hz1 Hn. unfold calculate_win_probability.
  rewrite (bind_of_ok _ _ _ _ _ Hd).
  cbn [md_team1 md_team2 md_venue details_of].
  rewrite (bind_of_ok _ _ _ _ _ Hh).
  unfold py_div at 1 2. rewrite Hz2, Hz1.
  unfold bind at 1 2, ret at 1 2.
  destruct (if fgtb _ _ then _ else _) as [x1 x2].
  unfold tossed in Hn.
  destruct (apply_toss_advantage _ _ _ _ _) as [t1 t2].
  cbn [fst snd] in Hn.
  rewrite (bind_of_ok _ _ _ _ _ Hn).
  destruct n as [n1 n2]. unfold ret.
  destruct (clamp n1) as [c1 c2] eqn:Ec.
  eexists. split; [reflexivity|]. cbn [win_prob fst]. rewrite Ec.
  reflexivity.
Qed.

End AnalyzerFacts.

(** *** Lookups built by [__init__] *)

Lemma foldl_insert_lookup {A V} (kf : A -> string) (vf : A -> V)
    (l : list A) (m : gmap string V) k v :
  foldl (fun d x => <[kf x := vf x]> d) m l !! k = Some v ->
  m !! k = Some v \/ exists x, x ∈ l /\ kf x = k /\ v = vf x.
Proof.
  revert m. induction l as [|x l IH]; intros m Hl; simpl in Hl.
  - left. exact Hl.
  - apply IH in Hl as [Hm|(y & Hy & Hk & Hv)].
    + destruct (decide (kf x = k)) as [E|NE].
      * subst k. rewrite lookup_insert_eq in Hm. inversion Hm.
        right. exists x. split; [left | auto].
      * rewrite lookup_insert_ne in Hm by exact NE. left. exact Hm.
    + right. exists y. split; [right; exact Hy | auto].
Qed.

Lemma foldl_insert_is_Some {A V} (kf : A -> string) (vf : A -> V)
    (l : list A) (m : gmap string V) k :
  is_Some (foldl (fun d x => <[kf x := vf x]> d) m l !! k) <->
  is_Some (m !! k) \/ k ∈ map kf l.
Proof.
  revert m. induction l as [|x l IH]; intros m; simpl.
  - split; [auto | intros [Hm|Hin]; [exact Hm | inversion Hin]].
  - rewrite IH. rewrite lookup_insert_is_Some.
    split.
    + intros [[E|[NE Hm]]|Hin].
      * right. subst k. left.
      * left. exact Hm.
      * right. right. exact Hin.
    + intros [Hm|Hin].
      * destruct (decide (kf x = k)); [left; left; auto | left; right; auto].
      * inversion Hin; subst; [left; left; reflexivity | right; assumption].
Qed.

Section Defaults.
Context `{PyNum F}.
Import MatchAnalyzer.

(** A team without a rating row gets the neutral rating. *)
Lemma get_team_rating_unrated (csv : Files F) (team_name : string) :
  team_name ∉ map Team (TEAM_RATINGS_FILE csv) ->
  get_team_rating (init csv) team_name = default_rating.
Proof.
  intros Hno. unfold get_team_rating, init. cbn [team_ratings].
  destruct (foldl _ _ _ !! team_name) as [rt|] eqn:E; [|reflexivity].
  exfalso. apply Hno.
  assert (Hs : is_Some (foldl (fun d row => <[Team row := rating_of row]> d)
                              ∅ (TEAM_RATINGS_FILE csv) !! team_name))
    by (unfold rating_of; rewrite E; eauto).
  apply foldl_insert_is_Some in Hs as [[x Hx]|Hin]; [|exact Hin].
  rewrite lookup_empty in Hx. discriminate.
Qed.

(** A venue without a profile gets the neutral profile. *)
Lemma get_venue_impact_unknown (csv : Files F) (venue_name : string) :
  venue_name ∉ map venue (VENUE_STATS_FILE csv) ->
  get_venue_impact (init csv) venue_name = default_venue.
Proof.
  intros Hno. unfold get_venue_impact, init. cbn [venue_stats].
  destruct (foldl _ _ _ !! venue_name) as [vi|] eqn:E; [|reflexivity].
  exfalso. apply Hno.
  assert (Hs : is_Some
                 (foldl (fun d row =>
                           <[venue row :=
                               {| bat_first_win_pct := win_percent_bat_first row;
                                  bowl_first_win_pct := win_percent_bowl_first row;
                                  avg_score := avg_first_innings_score row;
                                  vi_run_rate := run_rate row |}]> d)
                        ∅ (VENUE_STATS_FILE csv) !! venue_name))
    by (rewrite E; eauto).
  apply (foldl_insert_is_Some venue) in Hs as [[x Hx]|Hin]; [|exact Hin].
  rewrite lookup_empty in Hx. discriminate.
Qed.

End Defaults.

Section RationalModel.
Import MatchAnalyzer.
Local Open Scope Q_scope.

Lemma get_team_rating_cases (csv : Files Q) (name : string) :
  get_team_rating (init csv) name = default_rating
  \/ exists row, row ∈ TEAM_RATINGS_FILE csv /\ Team row = name
                 /\ get_team_rating (init csv) name = rating_of row.
Proof.
  unfold get_team_rating.
  destruct (team_ratings (init csv) !! name) as [rt|] eqn:E; simpl.
  - right. unfold init in E. simpl in E.
    apply (foldl_insert_lookup Team rating_of) in E
      as [E|(row & Hin & Hk & ->)].
    + rewrite lookup_empty in E. discriminate.
    + exists row. auto.
  - left. reflexivity.
Qed.

Lemma bowling_nonzero (csv : Files Q) (name : string) :
  bowling_defined csv ->
  feqb (fadd (bowling (get_team_rating (init csv) name)) (of_Z 20)) (of_Z 0)
  = false.
Proof.
  intros Hwf.
  change (Qeq_bool (bowling (get_team_rating (init csv) name) + 20) 0 = false).
  destruct (Qeq_bool _ _) eqn:E; [|reflexivity].
  apply Qeq_bool_iff in E. exfalso.
  destruct (get_team_rating_cases csv name) as [Hr|(row & Hin & _ & Hr)];
    rewrite Hr in E.
  - simpl in E. discriminate E.
  - exact (Hwf row Hin E).
Qed.

(** The synthetic head-to-head record always exists over the rationals:
    [int] never fails and the number of matches is positive. *)
Lemma head_to_head_total (self : t Q) (team1 team2 : string) (r : Rng) :
  exists h r', get_head_to_head_record self team1 team2 r = Ok (h, r')
               /\ (8 <= total_matches h <= 15)%Z.
Proof.
  unfold get_head_to_head_record.
  destruct (randint_ok 8 15 r ltac:(lia)) as (n & r1 & Hn & Hrange).
  rewrite (bind_of_ok _ _ _ _ _ Hn).
  assert (Hpos : (0 <? n)%Z = true) by (apply Z.ltb_lt; lia).
  assert (Hnz : (n =? 0)%Z = false) by (apply Z.eqb_neq; lia).
  destruct (fgtb _ _); unfold py_int, lift, win_pct, py_int_div, bind, ret;
    simpl; rewrite Hpos, Hnz; simpl;
    eexists _, _; (split; [reflexivity | simpl; lia]).
Qed.

Lemma tossed_total (r1 r2 : Rating Q) (vi : VenueImpact Q)
    (h : HeadToHead Q) (tw td : string) :
  let p := tossed r1 r2 vi h tw td in
  fst p + snd p == 115 \/ fst p + snd p == 215 # 2.
Proof.
  cbv zeta. unfold tossed, apply_toss_advantage.
  set (b := base_win_probability r1 r2 h).
  repeat match goal with
         | |- context [if ?c then _ else _] => destruct c
         end; simpl;
    change (inject_Z 100) with 100; change (inject_Z 15) with 15;
    change (lit 1 2) with ((1 / 2) : Q);
    ((left; field) || (right; field)).
Qed.

Lemma normalize_total (b1 b2 : Q) (r : Rng) :
  b1 + b2 == 115 \/ b1 + b2 == 215 # 2 ->
  exists n, normalize b1 b2 r = Ok (n, r).
Proof.
  intros Hsum. unfold normalize, fneb, py_div. simpl.
  assert (H100 : Qeq_bool (b1 + b2) 100 = false).
  { destruct (Qeq_bool _ _) eqn:E; [|reflexivity].
    apply Qeq_bool_iff in E. exfalso. destruct Hsum as [Hs|Hs];
      rewrite Hs in E; discriminate E. }
  assert (H0 : Qeq_bool (b1 + b2) 0 = false).
  { destruct (Qeq_bool (b1 + b2) 0) eqn:E; [|reflexivity].
    apply Qeq_bool_iff in E. exfalso. destruct Hsum as [Hs|Hs];
      rewrite Hs in E; discriminate E. }
  change (inject_Z 100) with 100. change (inject_Z 0) with 0.
  rewrite H100. simpl. unfold bind, ret. rewrite H0. simpl. eauto.
Qed.

Lemma clamp_bounds (x : Q) :
  15 <= fst (clamp x) /\ fst (clamp x) <= 85
  /\ snd (clamp x) = 100 - fst (clamp x).
Proof.
  unfold clamp, py_max, py_min. simpl.
  change (inject_Z 15) with 15. change (inject_Z 85) with 85.
  destruct (QNum.ltb x 85) eqn:E1.
  - apply QFacts.ltb_lt in E1.
    destruct (QNum.ltb 15 x) eqn:E2.
    + apply QFacts.ltb_lt in E2. repeat split; lra.
    + repeat split; lra.
  - destruct (QNum.ltb 15 85) eqn:E2.
    + repeat split; lra.
    + apply QFacts.ltb_ge in E2. lra.
Qed.

(** Over the rationals a query on a scheduled match returns. *)
Lemma calculate_win_probability_total (csv : Files Q) match_id tw td r :
  match_id ∈ map Match_ID (SCHEDULE_FILE csv) ->
  bowling_defined csv ->
  exists w r', calculate_win_probability (init csv) match_id tw td r
               = Ok (w, r').
Proof.
  intros Hin Hwf.
  destruct (get_match_details_present (init csv) match_id r Hin)
    as (row & Hrow & Hid & Hd).
  destruct (head_to_head_total (init csv) (Team1 row) (Team2 row) r)
    as (h & r1 & Hh & _).
  pose proof (tossed_total (get_team_rating (init csv) (Team1 row))
                (get_team_rating (init csv) (Team2 row))
                (get_venue_impact (init csv) (Venue row)) h tw td) as Hsum.
  cbv zeta in Hsum.
  destruct (normalize_total _ _ r1 Hsum) as (n & Hn).
  destruct (calculate_win_probability_run (init csv) match_id tw td r row h
              r1 n Hd Hh (bowling_nonzero csv _ Hwf)
              (bowling_nonzero csv _ Hwf) Hn) as (w & Hw & _).
  eauto.
Qed.

(** Over the rationals the returned pair is a complementary pair of
    one-decimal values inside the 15/85 band. *)
Lemma win_prob_sum_bounds (self : t Q) match_id tw td r w r' :
  calculate_win_probability self match_id tw td r = Ok (w, r') ->
  fst (win_prob w) + snd (win_prob w) == 100
  /\ 15 <= fst (win_prob w) <= 85 /\ 15 <= snd (win_prob w) <= 85.
Proof.
  intros Hok.
  apply calculate_win_probability_ok_inv in Hok
    as (row & h & n & _ & _ & _ & _ & _ & Hw & _).
  rewrite Hw. unfold rounded.
  destruct (clamp_bounds (fst n)) as (Hlo & Hhi & Hsnd).
  rewrite Hsnd. simpl. set (c := fst (clamp (fst n))) in *.
  split; [apply QFacts.round1_complement|].
  split.
  - apply (QFacts.round1_bounds c 15 85); assumption.
  - apply (QFacts.round1_bounds (100 - c) 15 85);
      change (inject_Z 15) with 15; change (inject_Z 85) with 85; lra.
Qed.

End RationalModel.

(** *** Which exceptions a query can end with *)

Section AnalyzerErrors.
Context `{PyNum F}.
Import MatchAnalyzer.

Lemma py_div_raise (x y : F) r e : py_div x y r = Raise e -> e = ZeroDivisionError.
Proof.
  unfold py_div, raise, ret. destruct (feqb _ _); intros E; inversion E.
  reflexivity.
Qed.

Lemma py_int_div_raise (a b : Z) r e :
  py_int_div a b r = Raise e -> e = ZeroDivisionError.
Proof.
  unfold py_int_div, raise, ret. destruct (b =? 0); intros E; inversion E.
  reflexivity.
Qed.

Lemma py_int_raise (x : F) r e : py_int x r = Raise e -> ftrunc x = Raise e.
Proof.
  unfold py_int, lift. destruct (ftrunc x); intros E; inversion E.
  reflexivity.
Qed.

Lemma win_pct_raise (wins total : Z) r e :
  win_pct wins total r = Raise e -> e = ZeroDivisionError.
Proof.
  unfold win_pct. destruct (0 <? total); [|discriminate].
  intros E. apply bind_raise in E as [E|(q & r1 & _ & E)].
  - eapply py_int_div_raise, E.
  - discriminate.
Qed.

Lemma head_to_head_raise (self : t F) team1 team2 r e :
  get_head_to_head_record self team1 team2 r = Raise e ->
  e = ZeroDivisionError \/ exists x, ftrunc x = Raise e.
Proof.
  unfold get_head_to_head_record. intros E.
  apply bind_raise in E as [E|(n & r1 & _ & E)]; [discriminate|].
  apply bind_raise in E as [E|(w1 & r2 & _ & E)].
  - right. destruct (fgtb _ _); eexists; eapply py_int_raise, E.
  - left.
    apply bind_raise in E as [E|(p1 & r3 & _ & E)];
      [eapply win_pct_raise, E|].
    apply bind_raise in E as [E|(p2 & r4 & _ & E)];
      [eapply win_pct_raise, E | discriminate].
Qed.

Lemma normalize_raise (b1 b2 : F) r e :
  normalize b1 b2 r = Raise e -> e = ZeroDivisionError.
Proof.
  unfold normalize. destruct (fneb _ _); [|discriminate].
  intros E. apply bind_raise in E as [E|(q1 & r1 & _ & E)];
    [eapply py_div_raise, E|].
  apply bind_raise in E as [E|(q2 & r2 & _ & E)];
    [eapply py_div_raise, E | discriminate].
Qed.

(** A query on a scheduled match can only end with a division by zero or
    with what [int] raises; on an unscheduled one it ends with the "not
    found" error. *)
Lemma calculate_win_probability_raise_inv (self : t F) match_id tw td r e :
  calculate_win_probability self match_id tw td r = Raise e ->
  ((match_id ∉ map Match_ID (schedule_df self)) /\ e = not_found match_id)
  \/ ((match_id ∈ map Match_ID (schedule_df self))
      /\ (e = ZeroDivisionError \/ exists x, ftrunc x = Raise e)).
Proof.
  intros E.
  destruct (decide (match_id ∈ map Match_ID (schedule_df self))) as [Hin|Hno].
  - right. split; [exact Hin|].
    unfold calculate_win_probability in E.
    destruct (get_match_details_present self match_id r Hin)
      as (row & _ & _ & Hd).
    rewrite (bind_of_ok _ _ _ _ _ Hd) in E.
    apply bind_raise in E as [E|(h & r1 & _ & E)];
      [eapply head_to_head_raise, E|].
    left.
    apply bind_raise in E as [E|(e1 & r2 & _ & E)];
      [eapply py_div_raise, E|].
    apply bind_raise in E as [E|(e2 & r3 & _ & E)];
      [eapply py_div_raise, E|].
    destruct (if fgtb _ _ then _ else _) as [x1 x2] in E.
    destruct (apply_toss_advantage _ _ _ _ _) as [t1 t2] in E.
    apply bind_raise in E as [E|(n & r4 & _ & E)];
      [eapply normalize_raise, E|].
    destruct n as [n1 n2]. destruct (clamp n1). discriminate.
  - left. split; [exact Hno|].
    rewrite (calculate_win_probability_absent self _ tw td r Hno) in E.
    inversion E. reflexivity.
Qed.

End AnalyzerErrors.

Lemma not_found_is_not_trunc_error (x : B64.t) (match_id : Z) :
  B64.trunc x <> Raise (MatchAnalyzer.not_found match_id).
Proof.
  unfold MatchAnalyzer.not_found. destruct x; simpl; discriminate.
Qed.

(** ** The single-match simulator *)

Section MatchFacts.
Context `{PyNum F}.
Import TournamentSimulator.

Lemma simulate_optimal_toss_decision_ok (self : t F) venue_name r :
  exists d r', simulate_optimal_toss_decision self venue_name r = Ok (d, r')
               /\ (d = "Bat" \/ d = "Bowl").
Proof.
  unfold simulate_optimal_toss_decision.
  destruct (filter _ _) as [|row rest].
  - destruct (choice_ok "Bat" "Bowl" r) as (c & r' & E & Hc). eauto.
  - destruct (fgtb _ _); [|destruct (fltb _ _)].
    + destruct (random_ok r) as (u & r' & E).
      rewrite (bind_of_ok _ _ _ _ _ E). unfold ret.
      eexists _, _. split; [reflexivity|]. destruct (fgtb _ _); auto.
    + destruct (random_ok r) as (u & r' & E).
      rewrite (bind_of_ok _ _ _ _ _ E). unfold ret.
      eexists _, _. split; [reflexivity|]. destruct (fgtb _ _); auto.
    + destruct (choice_ok "Bat" "Bowl" r) as (c & r' & E & Hc). eauto.
Qed.

(** The error of a query is the error of the simulated match. *)
Lemma simulate_single_match_raise (self : t F) (match_data : Fixture) r :
  exists tw td r',
    forall e,
      MatchAnalyzer.calculate_win_probability
        (analyzer self) (Match_ID match_data) tw td r' = Raise e ->
      simulate_single_match self match_data r = Raise e.
Proof.
  unfold simulate_single_match.
  destruct (choice_ok "Team A" "Team B" r) as (tw & r1 & Etw & _).
  destruct (simulate_optimal_toss_decision_ok self (Venue match_data) r1)
    as (td & r2 & Etd & _).
  exists tw, td, r2. intros e E.
  rewrite (bind_of_ok _ _ _ _ _ Etw), (bind_of_ok _ _ _ _ _ Etd).
  apply bind_of_raise, E.
Qed.

Lemma simulate_single_match_absent (self : t F) (match_data : Fixture) r :
  Match_ID match_data ∉ map Match_ID (MatchAnalyzer.schedule_df (analyzer self)) ->
  simulate_single_match self match_data r
  = Raise (MatchAnalyzer.not_found (Match_ID match_data)).
Proof.
  intros Hno.
  destruct (simulate_single_match_raise self match_data r)
    as (tw & td & r' & Hraise).
  apply Hraise, calculate_win_probability_absent, Hno.
Qed.

(** A simulated match has its two teams as winner and loser. *)
Lemma simulate_single_match_ok_inv (self : t F) (match_data : Fixture)
    r res r' :
  simulate_single_match self match_data r = Ok (res, r') ->
  mr_match_id res = Match_ID match_data
  /\ mr_team1 res = Team1 match_data /\ mr_team2 res = Team2 match_data
  /\ mr_venue res = Venue match_data
  /\ ((winner res = Team1 match_data /\ loser res = Team2 match_data)
      \/ (winner res = Team2 match_data /\ loser res = Team1 match_data))
  /\ Match_ID match_data
     ∈ map Match_ID (MatchAnalyzer.schedule_df (analyzer self)).
Proof.
  unfold simulate_single_match. intros E.
  apply bind_ok in E as (tw & r1 & _ & E).
  apply bind_ok in E as (td & r2 & _ & E).
  apply bind_ok in E as (w & r3 & Hw & E).
  apply bind_ok in E as (u & r4 & _ & E).
  assert (Hin : Match_ID match_data
                ∈ map Match_ID (MatchAnalyzer.schedule_df (analyzer self))).
  { destruct (decide (Match_ID match_data
                ∈ map Match_ID (MatchAnalyzer.schedule_df (analyzer self))))
      as [Hin|Hno]; [exact Hin|].
    rewrite (calculate_win_probability_absent _ _ tw td r2 Hno) in Hw.
    discriminate. }
  destruct (fltb _ _); unfold ret in E; inversion E; subst; simpl;
    repeat split; auto.
Qed.

End MatchFacts.

(** ** Equal overall ratings *)

Section EqualRatings.
Import MatchAnalyzer.
Local Open Scope Q_scope.

Lemma trunc_comp (x y : Q) : x == y -> QNum.trunc x = QNum.trunc y.
Proof.
  intros E. unfold QNum.trunc.
  rewrite (Qfloor_comp _ _ E), (Qceiling_comp _ _ E).
  assert (Hb : Qle_bool 0 x = Qle_bool 0 y).
  { destruct (Qle_bool 0 x) eqn:Ex, (Qle_bool 0 y) eqn:Ey; try reflexivity.
    - apply Qle_bool_iff in Ex. rewrite E in Ex.
      apply Qle_bool_iff in Ex. congruence.
    - apply Qle_bool_iff in Ey. rewrite <- E in Ey.
      apply Qle_bool_iff in Ey. congruence. }
  rewrite Hb. reflexivity.
Qed.

(** [int(n * 0.5)] is [n // 2] for a non-negative [n]. *)
Lemma trunc_half (n : Z) (x : Q) :
  (0 <= n)%Z -> x == inject_Z n * (1 # 2) -> QNum.trunc x = (n / 2)%Z.
Proof.
  intros Hn E. rewrite (trunc_comp _ _ E). unfold QNum.trunc.
  assert (Hb : Qle_bool 0 (inject_Z n * (1 # 2)) = true).
  { apply Qle_bool_iff. unfold Qle. simpl. lia. }
  rewrite Hb. unfold Qfloor, inject_Z, Qmult. simpl.
  rewrite Z.mul_1_r. reflexivity.
Qed.

(** The head-to-head record of two teams of equal overall rating: team 1
    is given the rounded-down half of the matches. *)
Lemma head_to_head_equal_ratings (self : t Q) team1 team2 r :
  overall (get_team_rating self team1) == overall (get_team_rating self team2) ->
  exists n r',
    (8 <= n <= 15)%Z
    /\ get_head_to_head_record self team1 team2 r
       = Ok ({| total_matches := n;
                team1_wins := n / 2;
                team2_wins := n - n / 2;
                team1_win_pct := inject_Z (n / 2) / inject_Z n * 100;
                team2_win_pct := inject_Z (n - n / 2) / inject_Z n * 100 |},
             r').
Proof.
  intros Heq. unfold get_head_to_head_record.
  destruct (randint_ok 8 15 r ltac:(lia)) as (n & r1 & Hn & Hrange).
  rewrite (bind_of_ok _ _ _ _ _ Hn).
  exists n, r1. split; [exact Hrange|].
  assert (Hgt : fgtb (overall (get_team_rating self team1))
                     (overall (get_team_rating self team2)) = false).
  { apply QFacts.ltb_ge. rewrite Heq. apply Qle_refl. }
  rewrite Hgt. unfold py_int, lift.
  change (ftrunc ?x) with (Ok (QNum.trunc x)).
  rewrite (trunc_half n) by
      (try lia; change (lit 1 2) with (1 # 2); simpl;
       change (inject_Z 100) with 100; rewrite Heq; field).
  unfold bind at 1. unfold win_pct, py_int_div.
  assert (Hpos : (0 <? n)%Z = true) by (apply Z.ltb_lt; lia).
  assert (Hnz : (n =? 0)%Z = false) by (apply Z.eqb_neq; lia).
  rewrite Hpos, Hnz. reflexivity.
Qed.

End EqualRatings.

(** ** Batting and bowling sub-ratings *)

Section SubRatings.
Context `{PyNum F}.
Import MatchAnalyzer.

Lemma team_ratings_same_overall (rows1 rows2 : list (RatingRow F))
    (m1 m2 : gmap string (Rating F)) :
  same_overall rows1 rows2 ->
  (forall k, overall_rel (m1 !! k) (m2 !! k)) ->
  forall k,
    overall_rel
      (foldl (fun d row =>
                <[Team row := {| batting := Bat_Rating row;
                                 bowling := Bowl_Rating row;
                                 overall := Overall_Rating row |}]> d)
             m1 rows1 !! k)
      (foldl (fun d row =>
                <[Team row := {| batting := Bat_Rating row;
                                 bowling := Bowl_Rating row;
                                 overall := Overall_Rating row |}]> d)
             m2 rows2 !! k).
Proof.
  intros Hrows. revert m1 m2.
  induction Hrows as [|a b rows1 rows2 [Hteam Hovr] _ IH]; intros m1 m2 Hm k.
  - simpl. apply Hm.
  - simpl. apply IH. intros k'. rewrite Hteam.
    destruct (decide (Team b = k')) as [->|NE].
    + rewrite !lookup_insert_eq. simpl. exact Hovr.
    + rewrite !lookup_insert_ne by exact NE. apply Hm.
Qed.

Lemma get_team_rating_same_overall (csv1 csv2 : Files F) (name : string) :
  same_overall (TEAM_RATINGS_FILE csv1) (TEAM_RATINGS_FILE csv2) ->
  overall (get_team_rating (init csv1) name)
  = overall (get_team_rating (init csv2) name).
Proof.
  intros Hrows. unfold get_team_rating, init. cbn [team_ratings].
  pose proof (team_ratings_same_overall _ _ ∅ ∅ Hrows
                (fun k => ltac:(rewrite !lookup_empty; exact I)) name) as Hrel.
  unfold overall_rel in Hrel.
  destruct (foldl _ _ (TEAM_RATINGS_FILE csv1) !! name),
           (foldl _ _ (TEAM_RATINGS_FILE csv2) !! name);
    simpl; try contradiction; [exact Hrel | reflexivity].
Qed.

Lemma head_to_head_same_overall (self1 self2 : t F) team1 team2 r :
  overall (get_team_rating self1 team1) = overall (get_team_rating self2 team1) ->
  overall (get_team_rating self1 team2) = overall (get_team_rating self2 team2) ->
  get_head_to_head_record self1 team1 team2 r
  = get_head_to_head_record self2 team1 team2 r.
Proof.
  intros E1 E2. unfold get_head_to_head_record. rewrite E1, E2. reflexivity.
Qed.

Lemma tossed_same_overall (a1 b1 a2 b2 : Rating F) vi h tw td :
  overall a1 = overall a2 -> overall b1 = overall b2 ->
  tossed a1 b1 vi h tw td = tossed a2 b2 vi h tw td.
Proof.
  intros E1 E2. unfold tossed, base_win_probability. rewrite E1, E2.
  reflexivity.
Qed.

End SubRatings.

(** ** Sorting, dictionaries, sums *)

Lemma sum_with_app {A} (f : A -> Z) (l1 l2 : list A) :
  sum_with f (l1 ++ l2) = sum_with f l1 + sum_with f l2.
Proof.
  induction l1 as [|x l1 IH]; simpl; [reflexivity|]. rewrite IH. lia.
Qed.

Lemma sum_with_perm {A} (f : A -> Z) (l1 l2 : list A) :
  l1 ≡ₚ l2 -> sum_with f l1 = sum_with f l2.
Proof.
  induction 1; simpl; lia.
Qed.

Lemma sum_with_map {A B} (g : A -> B) (f : B -> Z) (l : list A) :
  sum_with f (map g l) = sum_with (fun x => f (g x)) l.
Proof.
  induction l as [|x l IH]; simpl; [reflexivity|]. rewrite IH. reflexivity.
Qed.

Section SortFacts.
Context {A K : Type} (ltb : K -> K -> bool) (key : A -> K).

Lemma insert_desc_perm (x : A) (l : list A) :
  insert_desc ltb key x l ≡ₚ x :: l.
Proof.
  induction l as [|y l IH]; simpl; [reflexivity|].
  destruct (ltb (key x) (key y)); [|reflexivity].
  rewrite IH. apply Permutation_swap.
Qed.

Lemma sort_desc_perm (l : list A) : sort_desc ltb key l ≡ₚ l.
Proof.
  induction l as [|x l IH]; simpl; [reflexivity|].
  rewrite insert_desc_perm, IH. reflexivity.
Qed.

Lemma sort_desc_length (l : list A) : length (sort_desc ltb key l) = length l.
Proof. apply Permutation_length, sort_desc_perm. Qed.

Lemma sort_desc_elem_of (l : list A) (x : A) : x ∈ sort_desc ltb key l <-> x ∈ l.
Proof. rewrite sort_desc_perm. reflexivity. Qed.

Lemma sort_desc_Forall (P : A -> Prop) (l : list A) :
  Forall P l -> Forall P (sort_desc ltb key l).
Proof. rewrite sort_desc_perm. auto. Qed.

Lemma sort_desc_nil_inv (l : list A) : sort_desc ltb key l = [] -> l = [].
Proof.
  intros E. apply (f_equal length) in E. rewrite sort_desc_length in E.
  destruct l; [reflexivity | discriminate].
Qed.
End SortFacts.

Section DictFacts.
Context {V : Type}.
Implicit Types (d : list (string * V)) (k : string) (v : V).

Lemma dict_get_Some_elem_of d k v : dict_get k d = Some v -> (k, v) ∈ d.
Proof.
  induction d as [|[k' v'] d IH]; simpl; [discriminate|].
  destruct (String.eqb k k') eqn:E.
  - apply String.eqb_eq in E. subst. intros [= ->]. left.
  - intros Hg. right. auto.
Qed.

Lemma dict_get_is_Some d k : is_Some (dict_get k d) <-> k ∈ map fst d.
Proof.
  induction d as [|[k' v'] d IH]; simpl.
  - split; [intros [x Hx]; discriminate | intros Hin; inversion Hin].
  - destruct (String.eqb k k') eqn:E.
    + apply String.eqb_eq in E. subst. split; [left | eauto].
    + apply String.eqb_neq in E. rewrite IH. split.
      * intros Hin. right. exact Hin.
      * intros Hin. inversion Hin; subst; [contradiction | assumption].
Qed.

Lemma dict_item_ok_inv d k r v r' :
  dict_item k d r = Ok (v, r') -> r' = r /\ dict_get k d = Some v.
Proof.
  unfold dict_item. destruct (dict_get k d); [|discriminate].
  intros E. inversion E. auto.
Qed.

Lemma dict_get_set_eq d k v : dict_get k (dict_set k v d) = Some v.
Proof.
  induction d as [|[k' v'] d IH]; simpl.
  - rewrite String.eqb_refl. reflexivity.
  - destruct (String.eqb k k') eqn:E; simpl.
    + rewrite String.eqb_refl. reflexivity.
    + rewrite E. exact IH.
Qed.

Lemma dict_get_set_ne d k k' v : k <> k' -> dict_get k' (dict_set k v d) = dict_get k' d.
Proof.
  intros NE. induction d as [|[k0 v0] d IH]; simpl.
  - destruct (String.eqb k' k) eqn:E; [|reflexivity].
    apply String.eqb_eq in E. congruence.
  - destruct (String.eqb k k0) eqn:E; simpl.
    + apply String.eqb_eq in E. subst k0.
      destruct (String.eqb k' k) eqn:E'; [|reflexivity].
      apply String.eqb_eq in E'. congruence.
    + destruct (String.eqb k' k0); [reflexivity | exact IH].
Qed.

Lemma dict_set_set d k v1 v2 : dict_set k v2 (dict_set k v1 d) = dict_set k v2 d.
Proof.
  induction d as [|[k' v'] d IH]; simpl.
  - rewrite String.eqb_refl. reflexivity.
  - destruct (String.eqb k k') eqn:E; simpl.
    + rewrite String.eqb_refl. reflexivity.
    + rewrite E, IH. reflexivity.
Qed.

(** Assigning to a key that is present keeps the keys and their order. *)
Lemma dict_set_keys_present d k v :
  is_Some (dict_get k d) -> map fst (dict_set k v d) = map fst d.
Proof.
  induction d as [|[k' v'] d IH]; simpl.
  - intros [x Hx]. discriminate.
  - destruct (String.eqb k k') eqn:E; simpl.
    + apply String.eqb_eq in E. subst. reflexivity.
    + intros Hs. rewrite IH by exact Hs. reflexivity.
Qed.

(** Assigning to a new key appends it. *)
Lemma dict_set_keys_new d k v :
  k ∉ map fst d -> map fst (dict_set k v d) = map fst d ++ [k].
Proof.
  induction d as [|[k' v'] d IH]; simpl; [reflexivity|].
  intros Hno. destruct (String.eqb k k') eqn:E.
  - apply String.eqb_eq in E. subst. exfalso. apply Hno. left.
  - simpl. rewrite IH; [reflexivity|]. intros Hin. apply Hno. right. exact Hin.
Qed.

Lemma dict_set_Forall (P : V -> Prop) d k v :
  Forall (fun kv => P (snd kv)) d -> P v ->
  Forall (fun kv => P (snd kv)) (dict_set k v d).
Proof.
  intros Hd Hv. induction Hd as [|[k' v'] d Hkv Hd IH]; simpl.
  - constructor; [exact Hv | constructor].
  - destruct (String.eqb k k'); constructor; auto.
Qed.

Lemma dict_set_sum (f : V -> Z) d k v v0 :
  dict_get k d = Some v0 ->
  sum_with (fun kv => f (snd kv)) (dict_set k v d)
  = sum_with (fun kv => f (snd kv)) d - f v0 + f v.
Proof.
  induction d as [|[k' v'] d IH]; simpl; [discriminate|].
  destruct (String.eqb k k') eqn:E; simpl.
  - intros [= ->]. lia.
  - intros Hg. rewrite (IH Hg). lia.
Qed.

(** The dictionary comprehension over a list of keys. *)
Lemma dict_of_keys (l : list string) (v : V) (d : list (string * V)) :
  let d' := foldl (fun d k => dict_set k v d) d l in
  (forall k, k ∈ map fst d' <-> k ∈ map fst d \/ k ∈ l)
  /\ (Forall (fun kv => snd kv = v) d -> Forall (fun kv => snd kv = v) d')
  /\ (NoDup (map fst d ++ l) -> map fst d' = map fst d ++ l).
Proof.
  cbv zeta. revert d. induction l as [|x l IH]; intros d; simpl.
  - split; [|split].
    + intros k. split; [auto | intros [Hk|Hk]; [exact Hk | inversion Hk]].
    + auto.
    + intros _. rewrite app_nil_r. reflexivity.
  - destruct (IH (dict_set x v d)) as (Hkeys & Hvals & Hnodup).
    split; [|split].
    + intros k. rewrite Hkeys.
      destruct (decide (x ∈ map fst d)) as [Hin|Hno].
      * rewrite dict_set_keys_present by (apply dict_get_is_Some, Hin).
        split; [intros [Hk|Hk]; [left | right; right]; assumption|].
        intros [Hk|Hk]; [left; exact Hk|].
        inversion Hk; subst; [left; exact Hin | right; assumption].
      * rewrite dict_set_keys_new by exact Hno.
        rewrite elem_of_app, list_elem_of_singleton.
        split.
        -- intros [[Hk| ->]|Hk]; [left; exact Hk | right; left | right; right; exact Hk].
        -- intros [Hk|Hk]; [left; left; exact Hk|].
           inversion Hk; subst; [left; right; reflexivity | right; assumption].
    + intros Hd. apply Hvals.
      apply (dict_set_Forall (fun w => w = v)); [exact Hd | reflexivity].
    + intros Hnd.
      assert (Hno : x ∉ map fst d).
      { apply NoDup_app in Hnd as (_ & Hdisj & _). intros Hin.
        apply (Hdisj x Hin). left. }
      rewrite Hnodup; rewrite dict_set_keys_new by exact Hno.
      * rewrite <- app_assoc. reflexivity.
      * rewrite <- app_assoc. exact Hnd.
Qed.
End DictFacts.

(** A [for_each] that returns has kept every invariant of its body; the
    invariant may mention the elements processed so far. *)
Lemma for_each_ok_prefix {A S} (P : list A -> S -> Prop)
    (body : S -> A -> M S) :
  (forall pre x s r s' r',
      P pre s -> body s x r = Ok (s', r') -> P (pre ++ [x]) s') ->
  forall l pre s r s' r',
    P pre s -> for_each l body s r = Ok (s', r') -> P (pre ++ l) s'.
Proof.
  intros Hbody l. induction l as [|x l IH]; intros pre s r s' r' Hs Hrun.
  - simpl in Hrun. inversion Hrun; subst. rewrite app_nil_r. exact Hs.
  - simpl in Hrun. apply bind_ok in Hrun as (s1 & r1 & H1 & H2).
    replace (pre ++ x :: l) with ((pre ++ [x]) ++ l)
      by (rewrite <- app_assoc; reflexivity).
    eapply IH; [|exact H2]. eapply Hbody; eassumption.
Qed.

(** ** The group stage *)

Section GroupStageFacts.
Context `{PyNum F}.
Import TournamentSimulator.

Lemma update_team_stats_ok_inv (ts : list (string * TeamStats))
    (res : MatchResult F) r ts' r' :
  update_team_stats ts res r = Ok (ts', r') ->
  r' = r
  /\ winner res ∈ map fst ts /\ loser res ∈ map fst ts
  /\ map fst ts' = map fst ts
  /\ (Forall (fun kv => points_rule (snd kv)) ts ->
      Forall (fun kv => points_rule (snd kv)) ts')
  /\ sum_with (fun kv => wins (snd kv)) ts'
     = sum_with (fun kv => wins (snd kv)) ts + 1
  /\ sum_with (fun kv => losses (snd kv)) ts'
     = sum_with (fun kv => losses (snd kv)) ts + 1.
Proof.
  unfold update_team_stats. intros E.
  apply bind_ok in E as (s0 & r1 & H0 & E).
  apply dict_item_ok_inv in H0 as [-> H0].
  apply bind_ok in E as (s1 & r2 & H1 & E).
  apply dict_item_ok_inv in H1 as [-> H1].
  rewrite dict_get_set_eq in H1. inversion H1; subst s1; clear H1.
  rewrite dict_set_set in E. cbn [wins losses points] in E.
  set (ts2 := dict_set (winner res)
                {| wins := wins s0 + 1; losses := losses s0;
                   points := points s0 + 2 |} ts) in *.
  apply bind_ok in E as (s2 & r3 & H2 & E).
  apply dict_item_ok_inv in H2 as [-> H2].
  unfold ret in E. inversion E; subst ts' r'; clear E.
  assert (Hk2 : map fst ts2 = map fst ts)
    by (apply dict_set_keys_present; eauto).
  assert (Hw : winner res ∈ map fst ts) by (apply dict_get_is_Some; eauto).
  assert (Hl : loser res ∈ map fst ts)
    by (rewrite <- Hk2; apply dict_get_is_Some; eauto).
  split; [reflexivity|]. split; [exact Hw|]. split; [exact Hl|].
  split; [|split; [|split]].
  - rewrite dict_set_keys_present by eauto. exact Hk2.
  - intros Hts.
    assert (Hts2 : Forall (fun kv => points_rule (snd kv)) ts2).
    { apply (dict_set_Forall points_rule); [exact Hts|].
      apply dict_get_Some_elem_of in H0.
      rewrite Forall_forall in Hts. specialize (Hts _ H0).
      unfold points_rule in *. simpl in *. lia. }
    apply (dict_set_Forall points_rule); [exact Hts2|].
    apply dict_get_Some_elem_of in H2.
    rewrite Forall_forall in Hts2. specialize (Hts2 _ H2).
    unfold points_rule in *. simpl in *. lia.
  - rewrite (dict_set_sum wins _ _ _ _ H2). unfold ts2.
    rewrite (dict_set_sum wins _ _ _ _ H0). simpl. lia.
  - rewrite (dict_set_sum losses _ _ _ _ H2). unfold ts2.
    rewrite (dict_set_sum losses _ _ _ _ H0). simpl. lia.
Qed.

(** What a returning group stage has done. *)
Lemma simulate_group_stage_ok_inv (self : t F) r gs r' :
  simulate_group_stage self r = Ok (gs, r') ->
  exists ts,
    standings gs = sort_desc Z.ltb st_points (map row_of ts)
    /\ map fst ts = map fst (initial_stats self)
    /\ ts <> []
    /\ Forall (fun kv => points_rule (snd kv)) ts
    /\ sum_with (fun kv => wins (snd kv)) ts
       = Z.of_nat (length (schedule_df self))
    /\ sum_with (fun kv => losses (snd kv)) ts
       = Z.of_nat (length (schedule_df self))
    /\ Forall2 played (schedule_df self) (match_results gs)
    /\ Forall (fun m => Team1 m ∈ map fst ts /\ Team2 m ∈ map fst ts)
              (schedule_df self).
Proof.
  unfold simulate_group_stage. fold (initial_stats self). intros E.
  apply bind_ok in E as ([ts results] & r1 & Hloop & E).
  apply bind_ok in E as (sorted & r2 & Hsort & E).
  unfold ret in E. inversion E; subst gs r'; clear E.
  cbn [fst snd] in *.
  unfold sort_by_points in Hsort.
  destruct (map _ ts) as [|row rows] eqn:Erows in Hsort; [discriminate|].
  unfold ret in Hsort. inversion Hsort; subst sorted r2; clear Hsort.
  set (P := fun (pre : list Fixture)
                (acc : list (string * TeamStats) * list (MatchResult F)) =>
              map fst (fst acc) = map fst (initial_stats self)
              /\ Forall (fun kv => points_rule (snd kv)) (fst acc)
              /\ sum_with (fun kv => wins (snd kv)) (fst acc)
                 = Z.of_nat (length pre)
              /\ sum_with (fun kv => losses (snd kv)) (fst acc)
                 = Z.of_nat (length pre)
              /\ Forall2 played pre (snd acc)
              /\ Forall (fun m => Team1 m ∈ map fst (fst acc)
                                  /\ Team2 m ∈ map fst (fst acc)) pre).
  assert (Hvals : Forall (fun kv : string * TeamStats =>
                            snd kv = {| wins := 0; losses := 0; points := 0 |})
                         (initial_stats self)).
  { destruct (dict_of_keys (teams self)
                {| wins := 0; losses := 0; points := 0 |} [])
      as (_ & Hvals & _).
    apply Hvals. constructor. }
  assert (Hinit : P [] (initial_stats self, [])).
  { unfold P. cbn [fst snd length].
    assert (Hz : forall f : TeamStats -> Z,
               f {| wins := 0; losses := 0; points := 0 |} = 0 ->
               sum_with (fun kv => f (snd kv)) (initial_stats self) = 0).
    { intros f Hf. revert Hvals. generalize (initial_stats self).
      intros d Hd. induction Hd as [|[k v] d Hv _ IH]; simpl;
        [reflexivity|]. simpl in Hv. subst v. rewrite Hf, IH. reflexivity. }
    split; [reflexivity|]. split.
    - eapply Forall_impl; [exact Hvals|].
      intros [k v] Hv. simpl in *. subst v. reflexivity.
    - repeat split; try (apply Hz; reflexivity); constructor. }
  assert (Hstep : forall pre x s r0 s' r0',
             P pre s -> play_fixture self s x r0 = Ok (s', r0') ->
             P (pre ++ [x]) s').
  { intros pre x [ts0 res0] r0 s' r0' (Hk & Hp & Hw & Hl & Hpl & Hin) Hbody.
    cbn [fst snd] in *. unfold play_fixture in Hbody. cbn [fst snd] in Hbody.
    apply bind_ok in Hbody as (res & r3 & Hres & Hbody).
    apply bind_ok in Hbody as (ts1 & r4 & Hupd & Hbody).
    unfold ret in Hbody. inversion Hbody; subst s' r0'; clear Hbody.
    apply update_team_stats_ok_inv in Hupd
      as (-> & Hwin & Hlos & Hk1 & Hp1 & Hw1 & Hl1).
    apply simulate_single_match_ok_inv in Hres
      as (Hid & Ht1 & Ht2 & Hv & Hwl & _).
    unfold P. cbn [fst snd]. rewrite length_app. cbn [length].
    split; [congruence|]. split; [auto|].
    split; [lia|]. split; [lia|]. split.
    - apply Forall2_app; [exact Hpl|].
      constructor; [|constructor]. unfold played. auto.
    - rewrite Hk1. apply Forall_app. split; [exact Hin|].
      constructor; [|constructor].
      destruct Hwl as [[Ew El]|[Ew El]]; rewrite <- Ew, <- El; auto. }
  pose proof (for_each_ok_prefix P _ Hstep (schedule_df self) [] _ _ _ _
                Hinit Hloop) as Hfinal.
  destruct Hfinal as (Hk & Hp & Hw & Hl & Hpl & Hin). cbn [fst snd app] in *.
  exists ts. split; [unfold row_of; rewrite Erows; reflexivity|].
  repeat split; try assumption.
  intros ->. discriminate.
Qed.

End GroupStageFacts.

Lemma dict_of_keys_NoDup {V} (l : list string) (v : V) (d : list (string * V)) :
  NoDup (map fst d) ->
  NoDup (map fst (foldl (fun d k => dict_set k v d) d l)).
Proof.
  revert d. induction l as [|x l IH]; intros d Hd; simpl; [exact Hd|].
  apply IH.
  destruct (decide (x ∈ map fst d)) as [Hin|Hno].
  - rewrite dict_set_keys_present by (apply dict_get_is_Some, Hin). exact Hd.
  - rewrite dict_set_keys_new by exact Hno.
    apply NoDup_app. split; [exact Hd|]. split.
    + intros k Hk Hk'. apply list_elem_of_singleton in Hk'. subst. auto.
    + apply NoDup_singleton.
Qed.

Section StandingsFacts.
Context `{PyNum F}.
Import TournamentSimulator.

Lemma standings_teams (ts : list (string * TeamStats)) :
  map st_team (map row_of ts) = map fst ts.
Proof.
  induction ts as [|kv ts IH]; simpl; [reflexivity|]. rewrite IH. reflexivity.
Qed.

Lemma initial_stats_keys (self : t F) (k : string) :
  k ∈ map fst (initial_stats self) <-> k ∈ teams self.
Proof.
  unfold initial_stats.
  destruct (dict_of_keys (teams self)
              {| wins := 0; losses := 0; points := 0 |} []) as (Hkeys & _).
  rewrite Hkeys. simpl. split; [intros [Hk|Hk]; [inversion Hk | exact Hk] | auto].
Qed.

Lemma initial_stats_keys_NoDup (self : t F) :
  NoDup (teams self) -> map fst (initial_stats self) = teams self.
Proof.
  intros Hnd. unfold initial_stats.
  destruct (dict_of_keys (teams self)
              {| wins := 0; losses := 0; points := 0 |} []) as (_ & _ & Hk).
  apply Hk. exact Hnd.
Qed.

End StandingsFacts.

(** ** When the group stage returns (exact arithmetic) *)

Lemma for_each_total {A S} (I : S -> Prop) (Q : A -> Prop)
    (body : S -> A -> M S) :
  (forall s x r, I s -> Q x -> exists s' r', body s x r = Ok (s', r') /\ I s') ->
  forall l s r,
    I s -> Forall Q l -> exists s' r', for_each l body s r = Ok (s', r') /\ I s'.
Proof.
  intros Hbody l. induction l as [|x l IH]; intros s r Hs Hl.
  - exists s, r. split; [reflexivity | exact Hs].
  - inversion Hl as [|? ? Hx Hl']; subst. simpl.
    destruct (Hbody s x r Hs Hx) as (s1 & r1 & E1 & Hs1).
    rewrite (bind_of_ok _ _ _ _ _ E1). apply IH; assumption.
Qed.

Section GroupStageTotal.
Import TournamentSimulator.

Lemma simulate_single_match_total (csv : Files Q) (n : Z)
    (match_data : Fixture) (r : Rng) :
  Match_ID match_data ∈ map Match_ID (SCHEDULE_FILE csv) ->
  bowling_defined csv ->
  exists res r', simulate_single_match (init csv n) match_data r = Ok (res, r').
Proof.
  intros Hin Hwf. unfold simulate_single_match.
  destruct (choice_ok "Team A" "Team B" r) as (tw & r1 & Etw & _).
  rewrite (bind_of_ok _ _ _ _ _ Etw).
  destruct (simulate_optimal_toss_decision_ok (init csv n) (Venue match_data) r1)
    as (td & r2 & Etd & _).
  rewrite (bind_of_ok _ _ _ _ _ Etd).
  destruct (calculate_win_probability_total csv (Match_ID match_data) tw td r2
              Hin Hwf) as (w & r3 & Ew).
  cbn [analyzer init]. rewrite (bind_of_ok _ _ _ _ _ Ew).
  destruct (random_ok (F:=Q) r3) as (u & r4 & Eu).
  rewrite (bind_of_ok _ _ _ _ _ Eu).
  destruct (fltb _ _); unfold ret; eauto.
Qed.

Lemma update_team_stats_total (ts : list (string * TeamStats))
    (res : MatchResult Q) (r : Rng) :
  winner res ∈ map fst ts -> loser res ∈ map fst ts ->
  exists ts', update_team_stats ts res r = Ok (ts', r).
Proof.
  intros Hw Hl. unfold update_team_stats, dict_item.
  apply dict_get_is_Some in Hw as [s0 E0]. rewrite E0.
  unfold bind at 1, ret at 1. rewrite dict_get_set_eq.
  unfold bind at 1, ret at 1. rewrite dict_set_set.
  assert (Hl' : is_Some (dict_get (loser res)
                  (dict_set (winner res)
                     {| wins := wins {| wins := wins s0 + 1; losses := losses s0;
                                        points := points s0 |};
                        losses := losses {| wins := wins s0 + 1;
                                            losses := losses s0;
                                            points := points s0 |};
                        points := points {| wins := wins s0 + 1;
                                            losses := losses s0;
                                            points := points s0 |} + 2 |} ts))).
  { apply dict_get_is_Some. rewrite dict_set_keys_present by eauto. exact Hl. }
  destruct Hl' as [s2 E2]. rewrite E2. unfold bind, ret. eauto.
Qed.

(** Over the rationals the group stage returns whenever the rating table
    is not empty, no bowling rating is -20 and every scheduled team has a
    rating entry; a venue without a profile is no obstacle. *)
Lemma simulate_group_stage_total (csv : Files Q) (n : Z) (r : Rng) :
  TEAM_RATINGS_FILE csv <> [] ->
  bowling_defined csv ->
  Forall (fun m => Team1 m ∈ map Team (TEAM_RATINGS_FILE csv)
                   /\ Team2 m ∈ map Team (TEAM_RATINGS_FILE csv))
         (SCHEDULE_FILE csv) ->
  exists gs r', simulate_group_stage (init csv n) r = Ok (gs, r').
Proof.
  intros Hne Hwf Hrated. unfold simulate_group_stage.
  fold (initial_stats (init csv n)).
  set (I := fun acc : list (string * TeamStats) * list (MatchResult Q) =>
              map fst (fst acc) = map fst (initial_stats (init csv n))).
  set (G := fun m : Fixture =>
              m ∈ SCHEDULE_FILE csv
              /\ Team1 m ∈ map Team (TEAM_RATINGS_FILE csv)
              /\ Team2 m ∈ map Team (TEAM_RATINGS_FILE csv)).
  assert (Hstep : forall s x r0, I s -> G x ->
             exists s' r0', play_fixture (init csv n) s x r0 = Ok (s', r0')
                            /\ I s').
  { intros [ts results] x r0 Hs (Hx & Hx1 & Hx2). unfold I in *.
    cbn [fst snd] in *. unfold play_fixture. cbn [fst snd].
    destruct (simulate_single_match_total csv n x r0) as (res & r1 & Eres);
      [apply list_elem_of_In, in_map, list_elem_of_In, Hx | exact Hwf |].
    rewrite (bind_of_ok _ _ _ _ _ Eres).
    apply simulate_single_match_ok_inv in Eres as (_ & _ & _ & _ & Hwl & _).
    assert (Hkeys : forall k, k ∈ map Team (TEAM_RATINGS_FILE csv) ->
                              k ∈ map fst ts).
    { intros k Hk. rewrite Hs. apply initial_stats_keys. exact Hk. }
    destruct (update_team_stats_total ts res r1) as (ts' & Eupd).
    - destruct Hwl as [[-> _]|[-> _]]; auto.
    - destruct Hwl as [[_ ->]|[_ ->]]; auto.
    - rewrite (bind_of_ok _ _ _ _ _ Eupd). unfold ret.
      eexists _, _. split; [reflexivity|]. cbn [fst].
      apply update_team_stats_ok_inv in Eupd as (_ & _ & _ & Hk' & _).
      congruence. }
  destruct (for_each_total I G _ Hstep (SCHEDULE_FILE csv)
              (initial_stats (init csv n), []) r) as ([ts res] & r1 & Eloop & Hts).
  - reflexivity.
  - apply Forall_forall. intros m Hm. rewrite Forall_forall in Hrated.
    destruct (Hrated m Hm). unfold G. auto.
  - cbn [schedule_df init]. rewrite (bind_of_ok _ _ _ _ _ Eloop).
    unfold I in Hts. cbn [fst snd] in *.
    unfold sort_by_points.
    destruct ts as [|kv ts].
    + exfalso. destruct (TEAM_RATINGS_FILE csv) as [|row rows] eqn:E;
        [exact (Hne eq_refl)|].
      assert (Hin : Team row ∈ map fst (initial_stats (init csv n))).
      { apply initial_stats_keys. cbn [teams init]. rewrite E. left. }
      rewrite <- Hts in Hin. inversion Hin.
    + simpl. unfold bind, ret. eauto.
Qed.

End GroupStageTotal.

(** ** Playoffs and single tournaments *)

Section PlayoffFacts.
Context `{PyNum F}.
Import TournamentSimulator.

Lemma sort_by_points_ok_inv (df sorted : list StandingsRow) r r' :
  sort_by_points df r = Ok (sorted, r') ->
  r' = r /\ df <> [] /\ sorted = sort_desc Z.ltb st_points df.
Proof.
  unfold sort_by_points. destruct df; [discriminate|].
  unfold ret. intros E. inversion E. repeat split; congruence.
Qed.

Lemma determine_playoffs_ok_inv (df : list StandingsRow) r pt r' :
  determine_playoffs df r = Ok (pt, r') ->
  r' = r /\ df <> []
  /\ top_3 pt = map st_team (take 3 (sort_desc Z.ltb st_points df)).
Proof.
  unfold determine_playoffs. intros E.
  apply bind_ok in E as (sorted & r1 & Hs & E).
  apply sort_by_points_ok_inv in Hs as (-> & Hne & ->).
  unfold ret in E. inversion E; subst. auto.
Qed.

Lemma list_item_ok_inv {A} (l : list A) (i : nat) r x r' :
  list_item l i r = Ok (x, r') -> r' = r /\ l !! i = Some x.
Proof.
  unfold list_item. destruct (l !! i); [|discriminate].
  unfold ret. intros E. inversion E. auto.
Qed.

(** The champion of a returning playoff stage is one of the qualified
    teams, and a final that was played was found in the schedule under the
    id 999. *)
Lemma simulate_playoffs_ok_inv (self : t F) (pt : PlayoffTeams) r w r' :
  simulate_playoffs self pt r = Ok (w, r') ->
  top_3 pt <> [] ->
  w ∈ top_3 pt
  /\ ((3 <= length (top_3 pt))%nat ->
      999 ∈ map Match_ID (MatchAnalyzer.schedule_df (analyzer self))).
Proof.
  unfold simulate_playoffs. intros E Hne.
  destruct (length (top_3 pt) <? 3)%nat eqn:Elen.
  - apply Nat.ltb_lt in Elen.
    destruct (top_3 pt) as [|x l] eqn:Etop; [contradiction|].
    apply list_item_ok_inv in E as [_ E]. simpl in E. inversion E; subst.
    split; [left | simpl in *; lia].
  - apply bind_ok in E as (team1 & r1 & H1 & E).
    apply list_item_ok_inv in H1 as [-> H1].
    apply bind_ok in E as (team2 & r2 & H2 & E).
    apply list_item_ok_inv in H2 as [-> H2].
    apply bind_ok in E as (res & r3 & Hres & E).
    unfold ret in E. inversion E; subst w r'; clear E.
    apply simulate_single_match_ok_inv in Hres
      as (_ & _ & _ & _ & Hwl & Hin).
    cbn [Match_ID Team1 Team2] in Hwl, Hin.
    split; [|intros _; exact Hin].
    destruct Hwl as [[-> _]|[-> _]]; eapply list_elem_of_lookup_2; eassumption.
Qed.

(** What a returning tournament has produced. *)
Lemma run_simulation_ok_inv (self : t F) r sim r' :
  run_simulation self r = Ok (sim, r') ->
  sim_winner sim ∈ top_3 (sim_playoff_teams sim)
  /\ (forall team_name, team_name ∈ top_3 (sim_playoff_teams sim) ->
                        team_name ∈ teams self)
  /\ (NoDup (teams self) -> (3 <= length (teams self))%nat ->
      999 ∈ map Match_ID (MatchAnalyzer.schedule_df (analyzer self))).
Proof.
  unfold run_simulation. intros E.
  apply bind_ok in E as (gs & r1 & Hgs & E).
  apply bind_ok in E as (pt & r2 & Hpt & E).
  apply bind_ok in E as (w & r3 & Hw & E).
  unfold ret in E. inversion E; subst sim r'; clear E.
  cbn [sim_winner sim_playoff_teams].
  apply determine_playoffs_ok_inv in Hpt as (-> & Hne & Htop).
  apply simulate_group_stage_ok_inv in Hgs
    as (ts & Hst & Hk & Hts & _).
  assert (Hlen : length (standings gs) = length (map fst ts)).
  { rewrite Hst, sort_desc_length, !length_map. reflexivity. }
  assert (Htop_ne : top_3 pt <> []).
  { rewrite Htop. intros E. apply (f_equal length) in E.
    rewrite length_map, length_take, sort_desc_length in E.
    destruct (standings gs); [contradiction | simpl in E; lia]. }
  destruct (simulate_playoffs_ok_inv self pt r1 w r3 Hw Htop_ne) as [Hin H999].
  split; [exact Hin|]. split.
  - intros team_name Hteam. rewrite Htop in Hteam.
    apply list_elem_of_In, in_map_iff in Hteam as (row & <- & Hrow).
    apply list_elem_of_In in Hrow.
    apply elem_of_take in Hrow as (i & Hrow & _).
    apply list_elem_of_lookup_2 in Hrow.
    apply sort_desc_elem_of in Hrow. rewrite Hst in Hrow.
    apply sort_desc_elem_of in Hrow.
    apply list_elem_of_In, in_map_iff in Hrow as (kv & <- & Hkv).
    apply initial_stats_keys. rewrite <- Hk.
    change (st_team (row_of kv)) with (fst kv).
    apply list_elem_of_In, in_map, Hkv.
  - intros Hnd Hthree. apply H999.
    rewrite Htop, length_map, length_take, sort_desc_length, Hlen, Hk.
    rewrite (initial_stats_keys_NoDup self Hnd). lia.
Qed.

End PlayoffFacts.

(** ** The Monte Carlo driver and the analysis *)

Section CounterFacts.
Import TournamentSimulator.

Lemma incr_lookup (k k' : string) (d : gmap string Z) :
  default 0 (incr k d !! k')
  = default 0 (d !! k') + (if decide (k = k') then 1 else 0).
Proof.
  unfold incr. destruct (decide (k = k')) as [->|NE].
  - rewrite lookup_insert_eq. reflexivity.
  - rewrite lookup_insert_ne by exact NE. lia.
Qed.

Lemma foldl_incr_ge (l : list string) (d : gmap string Z) (k : string) :
  default 0 (d !! k)
  <= default 0 (foldl (fun d team_name => incr team_name d) d l !! k).
Proof.
  revert d. induction l as [|x l IH]; intros d; simpl; [lia|].
  etransitivity; [|apply IH]. rewrite incr_lookup.
  destruct (decide (x = k)); lia.
Qed.

Lemma foldl_incr_elem (l : list string) (d : gmap string Z) (k : string) :
  k ∈ l ->
  default 0 (d !! k) + 1
  <= default 0 (foldl (fun d team_name => incr team_name d) d l !! k).
Proof.
  revert d. induction l as [|x l IH]; intros d Hin; simpl; [inversion Hin|].
  destruct (decide (x = k)) as [->|NE].
  - etransitivity; [|apply foldl_incr_ge]. rewrite incr_lookup.
    destruct (decide (k = k)); [lia | contradiction].
  - inversion Hin; subst; [contradiction|].
    etransitivity; [|apply IH; assumption]. rewrite incr_lookup.
    destruct (decide (x = k)); [contradiction | lia].
Qed.

Lemma Counter_snoc (l : list string) (w : string) :
  Counter (l ++ [w]) = incr w (Counter l).
Proof. unfold Counter. rewrite foldl_app. reflexivity. Qed.

End CounterFacts.

Section DriverFacts.
Context `{PyNum F}.
Import TournamentSimulator.

Lemma simulation_step_invariant (self : t F) acc i r acc' r' :
  titles_within_appearances acc ->
  simulation_step self acc i r = Ok (acc', r') ->
  titles_within_appearances acc'.
Proof.
  unfold simulation_step. intros Hinv E.
  apply bind_ok in E as (sim & r1 & Hsim & E).
  unfold ret in E. inversion E; subst acc' r'; clear E.
  apply run_simulation_ok_inv in Hsim as (Hw & _).
  intros team_name. cbn [winners playoff_appearances].
  rewrite Counter_snoc, incr_lookup.
  specialize (Hinv team_name).
  etransitivity; [|apply foldl_incr_ge].
  destruct (decide (sim_winner sim = team_name)) as [<-|NE].
  - etransitivity; [|apply foldl_incr_elem, Hw]. lia.
  - etransitivity; [|apply foldl_incr_ge]. lia.
Qed.

Lemma run_multiple_simulations_invariant (self : t F) r acc r' :
  run_multiple_simulations self r = Ok (acc, r') ->
  titles_within_appearances acc.
Proof.
  unfold run_multiple_simulations. intros E.
  eapply (for_each_ok_inv titles_within_appearances (fun _ => True)
            (simulation_step self)); [| |exact E].
  - intros s x r0 s' r0' Hs Hstep. split; [|exact I].
    eapply simulation_step_invariant; eassumption.
  - intros team_name. unfold Counter. simpl. rewrite !lookup_empty. simpl. lia.
Qed.

(** The rows of a returning analysis, before they are sorted. *)
Lemma analyze_results_ok_inv (self : t F) (data : SimulationData F) r rows r' :
  analyze_results self data r = Ok (rows, r') ->
  num_simulations self <> 0
  /\ Forall (fun row =>
               Titles_Won row
               = default 0 (Counter (winners data) !! ar_Team row)
               /\ Playoff_Appearances row
                  = default 0 (playoff_appearances data !! ar_Team row)
               /\ Win_Probability row
                  = fround1 (fmul (fdiv (of_Z (Titles_Won row))
                                        (of_Z (num_simulations self)))
                                  (of_Z 100))
               /\ Playoff_Probability row
                  = fround1 (fmul (fdiv (of_Z (Playoff_Appearances row))
                                        (of_Z (num_simulations self)))
                                  (of_Z 100)))
            rows
  /\ map ar_Team rows ≡ₚ teams self.
Proof.
  unfold analyze_results. intros E.
  apply bind_ok in E as (analysis & r1 & Hloop & E).
  assert (Hne : analysis <> []) by (intros ->; discriminate E).
  assert (E' : Ok (sort_desc fltb Win_Probability analysis, r1)
               = Ok (rows, r'))
    by (destruct analysis; [contradiction | exact E]).
  clear E. inversion E'; subst rows r'; clear E'.
  set (good := fun row : AnalysisRow F =>
                 Titles_Won row
                 = default 0 (Counter (winners data) !! ar_Team row)
                 /\ Playoff_Appearances row
                    = default 0 (playoff_appearances data !! ar_Team row)
                 /\ Win_Probability row
                    = fround1 (fmul (fdiv (of_Z (Titles_Won row))
                                          (of_Z (num_simulations self)))
                                    (of_Z 100))
                 /\ Playoff_Probability row
                    = fround1 (fmul (fdiv (of_Z (Playoff_Appearances row))
                                          (of_Z (num_simulations self)))
                                    (of_Z 100))).
  set (P := fun (pre : list string) (rows : list (AnalysisRow F)) =>
              Forall good rows /\ map ar_Team rows = pre
              /\ (pre <> [] -> num_simulations self <> 0)).
  match type of Hloop with
  | for_each _ ?body _ _ = _ =>
      assert (Hstep : forall pre x s r0 s' r0',
                 P pre s -> body s x r0 = Ok (s', r0') -> P (pre ++ [x]) s')
  end.
  { intros pre x s r0 s' r0' (Hgood & Hteams & Hn) Hbody.
    apply bind_ok in Hbody as (q1 & r2 & Hq1 & Hbody).
    apply bind_ok in Hbody as (q2 & r3 & Hq2 & Hbody).
    unfold ret in Hbody. inversion Hbody; subst s' r0'; clear Hbody.
    unfold py_int_div in Hq1, Hq2.
    destruct (num_simulations self =? 0) eqn:En; [discriminate|].
    apply Z.eqb_neq in En.
    unfold ret in Hq1, Hq2. inversion Hq1; subst. inversion Hq2; subst.
    unfold P. split; [|split].
    - apply Forall_app. split; [exact Hgood|].
      constructor; [|constructor]. unfold good. simpl. auto.
    - rewrite map_app. simpl. reflexivity.
    - intros _. exact En. }
  pose proof (for_each_ok_prefix P _ Hstep (teams self) [] [] _ _ _
                (conj (Forall_nil_2 _) (conj eq_refl (fun E => False_ind _ (E eq_refl))))
                Hloop) as (Hgood & Hteams & Hn).
  simpl in Hteams, Hn.
  split; [|split].
  - apply Hn. intros E. rewrite E in Hteams.
    destruct analysis; [contradiction | discriminate].
  - apply sort_desc_Forall. exact Hgood.
  - rewrite <- Hteams. apply Permutation_map, sort_desc_perm.
Qed.

End DriverFacts.

Section PercentFacts.
Local Open Scope Q_scope.

(** A percentage of [n] runs is monotone in the count. *)
Lemma percent_mono (a b n : Z) :
  (a <= b)%Z -> (1 <= n)%Z ->
  inject_Z a / inject_Z n * 100 <= inject_Z b / inject_Z n * 100.
Proof.
  intros Hab Hn.
  assert (Hn' : 0 < inject_Z n).
  { change 0 with (inject_Z 0). rewrite <- Zlt_Qlt. lia. }
  assert (Hab' : inject_Z a <= inject_Z b) by (rewrite <- Zle_Qle; exact Hab).
  apply Qmult_le_compat_r; [|discriminate].
  unfold Qdiv. apply Qmult_le_compat_r; [exact Hab'|].
  apply Qlt_le_weak, Qinv_lt_0_compat, Hn'.
Qed.

End PercentFacts.

(** ** Crucial matches *)

Section SortedFacts.
Context {A : Type} (key : A -> Q).
Local Open Scope Q_scope.

Lemma insert_desc_sorted (x : A) (l : list A) :
  StronglySorted (descending key) l ->
  StronglySorted (descending key) (insert_desc QNum.ltb key x l).
Proof.
  induction 1 as [|y l Hl IH Hy]; simpl.
  - constructor; constructor.
  - destruct (QNum.ltb (key x) (key y)) eqn:E.
    + apply QFacts.ltb_lt in E. constructor; [exact IH|].
      apply Forall_forall. intros z Hz.
      rewrite (insert_desc_perm QNum.ltb key) in Hz.
      inversion Hz; subst.
      * unfold descending. lra.
      * rewrite Forall_forall in Hy. apply Hy. assumption.
    + apply QFacts.ltb_ge in E.
      constructor; [constructor; assumption|].
      constructor; [exact E|].
      eapply Forall_impl; [exact Hy|].
      intros z Hz. unfold descending in *. lra.
Qed.

Lemma sort_desc_sorted (l : list A) :
  StronglySorted (descending key) (sort_desc QNum.ltb key l).
Proof.
  induction l as [|x l IH]; simpl; [constructor|].
  apply insert_desc_sorted, IH.
Qed.

Lemma take_sorted (n : nat) (l : list A) :
  StronglySorted (descending key) l -> StronglySorted (descending key) (take n l).
Proof.
  intros Hl. revert n. induction Hl as [|y l Hl IH Hy]; intros [|n]; simpl;
    try constructor.
  - apply IH.
  - apply Forall_forall. intros z Hz.
    apply elem_of_take in Hz as (i & Hz & _).
    apply list_elem_of_lookup_2 in Hz.
    rewrite Forall_forall in Hy. apply Hy, Hz.
Qed.
End SortedFacts.

Section CrucialFacts.
Context `{PyNum F}.
Import TournamentSimulator.

Lemma find_crucial_matches_elem_of (self : t F) (results : list (MatchResult F))
    (e : CrucialMatch F) :
  e ∈ find_crucial_matches self results ->
  exists m, m ∈ results
            /\ mr_team1 m ∈ top_teams self /\ mr_team2 m ∈ top_teams self
            /\ e = crucial_entry m.
Proof.
  unfold find_crucial_matches. intros He.
  apply elem_of_take in He as (i & He & _).
  apply list_elem_of_lookup_2 in He.
  apply sort_desc_elem_of in He.
  apply list_elem_of_In, in_map_iff in He as (m & <- & Hm).
  apply list_elem_of_In, list_elem_of_filter in Hm as ([H1 H2] & Hm).
  exists m. auto.
Qed.

Lemma find_crucial_matches_empty (self : t F) (results : list (MatchResult F)) :
  (forall m, m ∈ results ->
             ~ (mr_team1 m ∈ top_teams self /\ mr_team2 m ∈ top_teams self)) ->
  find_crucial_matches self results = [].
Proof.
  intros Hnone. unfold find_crucial_matches.
  destruct (filter _ results) as [|m rest] eqn:E; [reflexivity|].
  exfalso.
  assert (Hm : m ∈ filter (fun m => mr_team1 m ∈ top_teams self
                                    /\ mr_team2 m ∈ top_teams self) results)
    by (rewrite E; left).
  apply list_elem_of_filter in Hm as [Htop Hm]. exact (Hnone m Hm Htop).
Qed.

Lemma top_teams_rated (self : t F) (team_name : string) :
  team_name ∈ top_teams self -> team_name ∈ map Team (team_ratings_df self).
Proof.
  unfold top_teams. intros Hin.
  apply list_elem_of_In, in_map_iff in Hin as (row & <- & Hrow).
  apply list_elem_of_In, elem_of_take in Hrow as (i & Hrow & _).
  apply list_elem_of_lookup_2, sort_desc_elem_of in Hrow.
  apply list_elem_of_In, in_map, list_elem_of_In, Hrow.
Qed.

End CrucialFacts.

Section TenthFacts.
Local Open Scope Q_scope.

Lemma round1_comp (x y : Q) : x == y -> QNum.round1 x == QNum.round1 y.
Proof.
  intros E. unfold QNum.round1.
  assert (E' : x * 10 == y * 10) by (rewrite E; reflexivity).
  rewrite (QFacts.rne_comp _ _ E'). reflexivity.
Qed.

(** The closeness score of two one-decimal probabilities has one decimal,
    so rounding it to one decimal changes nothing. *)
Lemma importance_of_tenths (p1 p2 : Q) (k1 k2 : Z) :
  p1 == inject_Z k1 / 10 -> p2 == inject_Z k2 / 10 ->
  QNum.round1 (100 - Qabs (p1 - p2)) == 100 - Qabs (p1 - p2).
Proof.
  intros E1 E2.
  assert (Hk : exists k, 100 - Qabs (p1 - p2) == inject_Z k / 10).
  { destruct (Qlt_le_dec (p1 - p2) 0) as [Hneg|Hpos].
    - exists (1000 + (k1 - k2))%Z.
      rewrite Qabs_neg by lra. rewrite E1, E2.
      unfold Z.sub. rewrite !inject_Z_plus, inject_Z_opp.
      change (inject_Z 1000) with 1000. field.
    - exists (1000 - (k1 - k2))%Z.
      rewrite Qabs_pos by lra. rewrite E1, E2.
      unfold Z.sub. rewrite !inject_Z_plus, !inject_Z_opp, inject_Z_plus,
        inject_Z_opp.
      change (inject_Z 1000) with 1000. field. }
  destruct Hk as [k Hk].
  rewrite (round1_comp _ _ Hk), QFacts.round1_tenth, Hk. reflexivity.
Qed.

End TenthFacts.

(** ** Titles add up to the number of runs *)

Section TitleFacts.
Context `{PyNum F}.
Import TournamentSimulator.

Lemma sum_indicator (w : string) (l : list string) :
  NoDup l -> w ∈ l ->
  sum_with (fun team_name => if decide (w = team_name) then 1 else 0) l = 1.
Proof.
  induction 1 as [|x l Hx Hl IH]; intros Hw; [inversion Hw|]. simpl.
  destruct (decide (w = x)) as [->|NE].
  - assert (Hz : sum_with (fun team_name => if decide (x = team_name) then 1 else 0) l = 0).
    { clear IH Hl Hw. induction l as [|y l IH]; simpl; [reflexivity|].
      destruct (decide (x = y)) as [->|NE].
      - exfalso. apply Hx. left.
      - rewrite IH; [reflexivity|]. intros Hin. apply Hx. right. exact Hin. }
    rewrite Hz. reflexivity.
  - inversion Hw; subst; [contradiction|]. rewrite IH by assumption. reflexivity.
Qed.

Lemma sum_with_plus {A} (f g : A -> Z) (l : list A) :
  sum_with (fun x => f x + g x) l = sum_with f l + sum_with g l.
Proof.
  induction l as [|x l IH]; simpl; [reflexivity|]. rewrite IH. lia.
Qed.

Lemma sum_with_ext {A} (f g : A -> Z) (l : list A) :
  Forall (fun x => f x = g x) l -> sum_with f l = sum_with g l.
Proof.
  induction 1 as [|x l Hx _ IH]; simpl; [reflexivity|]. rewrite Hx, IH.
  reflexivity.
Qed.

(** Counting a list of known teams team by team counts every element once. *)
Lemma Counter_total (known l : list string) :
  NoDup known -> Forall (fun w => w ∈ known) l ->
  sum_with (fun team_name => default 0 (Counter l !! team_name)) known
  = Z.of_nat (length l).
Proof.
  intros Hnd. induction l as [|w l IH] using rev_ind; intros Hl.
  - unfold Counter. simpl. clear Hl Hnd.
    induction known as [|x known IHk]; simpl; [reflexivity|].
    rewrite lookup_empty. simpl. exact IHk.
  - apply Forall_app in Hl as [Hl Hw].
    apply Forall_cons in Hw as [Hw _]. specialize (IH Hl).
    rewrite Counter_snoc, length_app. simpl.
    rewrite (sum_with_ext _ (fun team_name =>
               default 0 (Counter l !! team_name)
               + (if decide (w = team_name) then 1 else 0)))
      by (apply Forall_forall; intros x _; apply incr_lookup).
    rewrite sum_with_plus, IH, (sum_indicator w known Hnd Hw). lia.
Qed.

Lemma run_multiple_simulations_winners (self : t F) r data r' :
  run_multiple_simulations self r = Ok (data, r') ->
  length (winners data) = Z.to_nat (num_simulations self)
  /\ Forall (fun w => w ∈ teams self) (winners data).
Proof.
  unfold run_multiple_simulations. intros E.
  set (P := fun (pre : list nat) (acc : SimulationData F) =>
              length (winners acc) = length pre
              /\ Forall (fun w => w ∈ teams self) (winners acc)).
  assert (Hstep : forall pre i acc r0 acc' r0',
             P pre acc -> simulation_step self acc i r0 = Ok (acc', r0') ->
             P (pre ++ [i]) acc').
  { intros pre i acc r0 acc' r0' [Hlen Hall] Hs.
    unfold simulation_step in Hs.
    apply bind_ok in Hs as (sim & r1 & Hsim & Hs).
    unfold ret in Hs. inversion Hs; subst acc' r0'; clear Hs.
    apply run_simulation_ok_inv in Hsim as (Hw & Htop & _).
    unfold P. cbn [winners]. rewrite !length_app. simpl.
    split; [lia|]. apply Forall_app. split; [exact Hall|].
    constructor; [|constructor]. apply Htop, Hw. }
  assert (Hinit : P [] {| winners := [];
                          playoff_appearances := ∅;
                          final_standings := ∅;
                          sample_match_results := [] |})
    by (split; [reflexivity | constructor]).
  destruct (for_each_ok_prefix P _ Hstep _ [] _ _ _ _ Hinit E) as [Hlen Hall].
  simpl in Hlen. rewrite length_seq in Hlen. auto.
Qed.

(** Whenever the driver and the analysis return, the table has one row per
    known team and the titles add up to the number of runs. *)
Lemma titles_sum_to_runs (self : t F) r data r' rows r'' :
  NoDup (teams self) -> 1 <= num_simulations self ->
  run_multiple_simulations self r = Ok (data, r') ->
  analyze_results self data r' = Ok (rows, r'') ->
  map ar_Team rows ≡ₚ teams self
  /\ sum_with Titles_Won rows = num_simulations self.
Proof.
  intros Hnd Hn Hrun Han.
  apply run_multiple_simulations_winners in Hrun as [Hlen Hall].
  apply analyze_results_ok_inv in Han as (_ & Hrows & Hperm).
  split; [exact Hperm|].
  rewrite (sum_with_ext Titles_Won
             (fun row => default 0 (Counter (winners data) !! ar_Team row))).
  - rewrite <- (sum_with_map ar_Team
                  (fun team_name =>
                     default 0 (Counter (winners data) !! team_name))).
    rewrite (sum_with_perm _ _ _ Hperm).
    rewrite (Counter_total _ _ Hnd Hall), Hlen. lia.
  - eapply Forall_impl; [exact Hrows|]. intros row (Ht & _). exact Ht.
Qed.

End TitleFacts.

(** ** Sample data is well formed *)

Lemma two_teams_bowling_defined (ovr : Q) : bowling_defined (two_teams ovr).
Proof.
  intros row Hin. simpl in Hin.
  repeat (apply elem_of_cons in Hin as [->|Hin]; [simpl; discriminate|]).
  inversion Hin.
Qed.

(** * The claims *)




(** C2.  A query fails with the "Match ID ... not found" error exactly when
    the match id is absent from the schedule: an absent id always raises
    it, a present id never does (under binary64 and over the rationals),
    and over well-formed reference data a present id returns a result.  The
    error is not caught on the way up: a simulated match on an absent id
    ends with the same error. *)
Theorem match_not_found_exactly_when_absent :
  (forall F (HF : PyNum F) (self : MatchAnalyzer.t F) match_id tw td r,
      match_id ∉ map Match_ID (MatchAnalyzer.schedule_df self) ->
      MatchAnalyzer.calculate_win_probability self match_id tw td r
      = Raise (MatchAnalyzer.not_found match_id))
  /\ (forall (self : MatchAnalyzer.t B64.t) match_id tw td r other,
         match_id ∈ map Match_ID (MatchAnalyzer.schedule_df self) ->
         MatchAnalyzer.calculate_win_probability self match_id tw td r
         <> Raise (MatchAnalyzer.not_found other))
  /\ (forall (self : MatchAnalyzer.t Q) match_id tw td r other,
         match_id ∈ map Match_ID (MatchAnalyzer.schedule_df self) ->
         MatchAnalyzer.calculate_win_probability self match_id tw td r
         <> Raise (MatchAnalyzer.not_found other))
  /\ (forall (csv : Files Q) match_id tw td r,
         match_id ∈ map Match_ID (SCHEDULE_FILE csv) ->
         bowling_defined csv ->
         exists w r',
           MatchAnalyzer.calculate_win_probability
             (MatchAnalyzer.init csv) match_id tw td r = Ok (w, r'))
  /\ (forall F (HF : PyNum F) (self : TournamentSimulator.t F) match_data r,
         Match_ID match_data
         ∉ map Match_ID
               (MatchAnalyzer.schedule_df (TournamentSimulator.analyzer self)) ->
         TournamentSimulator.simulate_single_match self match_data r
         = Raise (MatchAnalyzer.not_found (Match_ID match_data))).
Proof.
  split; [|split; [|split; [|split]]].
  - intros F HF self match_id tw td r Hno.
    apply calculate_win_probability_absent, Hno.
  - intros self match_id tw td r other Hin E.
    apply calculate_win_probability_raise_inv in E
      as [[Hno _]|[_ [E|[x E]]]].
    + exact (Hno Hin).
    + discriminate E.
    + exact (not_found_is_not_trunc_error x other E).
  - intros self match_id tw td r other Hin E.
    apply calculate_win_probability_raise_inv in E
      as [[Hno _]|[_ [E|[x E]]]].
    + exact (Hno Hin).
    + discriminate E.
    + discriminate E.
  - intros csv match_id tw td r Hin Hwf.
    apply calculate_win_probability_total; assumption.
  - intros F HF self match_data r Hno.
    apply simulate_single_match_absent, Hno.
Qed.

Lemma match_not_found_witness :
  MatchAnalyzer.calculate_win_probability
    (MatchAnalyzer.init (two_teams (of_Z 54 : B64.t))) 33 "Team A" "Bat"
    (constant_tape 0)
  = Raise (ValueError "Match ID 33 not found")
  /\ exists w r',
      MatchAnalyzer.calculate_win_probability
        (MatchAnalyzer.init (two_teams (54 : Q))) 2 "Team A" "Bat"
        (constant_tape 0)
      = Ok (w, r').
Proof.
  split.
  - apply (proj1 match_not_found_exactly_when_absent B64.t _
             (MatchAnalyzer.init (two_teams (of_Z 54 : B64.t))) 33).
    simpl. intros Hin. repeat (apply elem_of_cons in Hin as [Hin|Hin];
                               [discriminate Hin|]).
    inversion Hin.
  - apply (proj1 (proj2 (proj2 (proj2 match_not_found_exactly_when_absent)))).
    + simpl. right. left.
    + apply two_teams_bowling_defined.
Defined.

(** C3 (where the code departs from it).  With zero simulations requested
    the driver returns the empty aggregate, and analysing any aggregate
    raises: [count / num_simulations] is a division by zero for the first
    known team (and with no known team the empty frame cannot be sorted by
    its probability column).  No table of zero probabilities is returned. *)
Theorem zero_simulations_analysis_raises `{PyNum F} (csv : Files F)
    (data : TournamentSimulator.SimulationData F) (r : Rng) :
  TournamentSimulator.run_multiple_simulations
    (TournamentSimulator.init csv 0) r
  = Ok ({| TournamentSimulator.winners := [];
           TournamentSimulator.playoff_appearances := ∅;
           TournamentSimulator.final_standings := ∅;
           TournamentSimulator.sample_match_results := [] |}, r)
  /\ TournamentSimulator.analyze_results (TournamentSimulator.init csv 0) data r
     = Raise (match TEAM_RATINGS_FILE csv with
              | [] => KeyError "Win_Probability_%"
              | _ => ZeroDivisionError
              end).
Proof.
  split; [reflexivity|].
  unfold TournamentSimulator.analyze_results.
  cbn [TournamentSimulator.teams TournamentSimulator.init
       TournamentSimulator.num_simulations].
  destruct (TEAM_RATINGS_FILE csv) as [|row rows]; reflexivity.
Qed.

(** The failing input of C3: two known teams, n = 0. *)
Lemma zero_simulations_two_teams :
  exists data r',
    TournamentSimulator.run_multiple_simulations
      (TournamentSimulator.init (two_teams (of_Z 54 : B64.t)) 0)
      (constant_tape 0) = Ok (data, r')
    /\ TournamentSimulator.analyze_results
         (TournamentSimulator.init (two_teams (of_Z 54 : B64.t)) 0) data r'
       = Raise ZeroDivisionError.
Proof.
  eexists _, _. split; [reflexivity|].
  apply (zero_simulations_analysis_raises (two_teams (of_Z 54 : B64.t))).
Defined.

(** C4 (where the code departs from it).  A team without a rating entry
    is given the neutral 50/50/50 rating and a venue without a profile the
    neutral 50/50, 150, 8.5 one; the win-probability query and the
    single-match simulation go through with them (over the rationals, no
    bowling rating being -20).  But a group stage whose schedule has a
    fixture with an unrated team never returns: the standings dictionary
    has keys for the rated teams only. *)
Theorem group_stage_unrated_team_raises :
  (forall F (HF : PyNum F) (csv : Files F) (team_name : string),
      team_name ∉ map Team (TEAM_RATINGS_FILE csv) ->
      MatchAnalyzer.get_team_rating (MatchAnalyzer.init csv) team_name
      = {| MatchAnalyzer.batting := of_Z 50;
           MatchAnalyzer.bowling := of_Z 50;
           MatchAnalyzer.overall := of_Z 50 |})
  /\ (forall F (HF : PyNum F) (csv : Files F) (venue_name : string),
         venue_name ∉ map venue (VENUE_STATS_FILE csv) ->
         MatchAnalyzer.get_venue_impact (MatchAnalyzer.init csv) venue_name
         = {| MatchAnalyzer.bat_first_win_pct := of_Z 50;
              MatchAnalyzer.bowl_first_win_pct := of_Z 50;
              MatchAnalyzer.avg_score := of_Z 150;
              MatchAnalyzer.vi_run_rate := lit 85 10 |})
  /\ (forall (csv : Files Q) (n : Z) (match_data : Fixture) (r : Rng),
         Match_ID match_data ∈ map Match_ID (SCHEDULE_FILE csv) ->
         bowling_defined csv ->
         exists res r',
           TournamentSimulator.simulate_single_match
             (TournamentSimulator.init csv n) match_data r = Ok (res, r'))
  /\ (forall F (HF : PyNum F) (csv : Files F) (n : Z) (match_data : Fixture)
             (r : Rng),
         match_data ∈ SCHEDULE_FILE csv ->
         Team1 match_data ∉ map Team (TEAM_RATINGS_FILE csv)
         \/ Team2 match_data ∉ map Team (TEAM_RATINGS_FILE csv) ->
         exists e,
           TournamentSimulator.simulate_group_stage
             (TournamentSimulator.init csv n) r = Raise e).
Proof.
  split; [|split; [|split]].
  - intros F HF csv team_name Hno. apply get_team_rating_unrated, Hno.
  - intros F HF csv venue_name Hno. apply get_venue_impact_unknown, Hno.
  - exact simulate_single_match_total.
  - intros F HF csv n match_data r Hin Hunrated.
    destruct (outcome_cases (TournamentSimulator.simulate_group_stage
                               (TournamentSimulator.init csv n) r))
      as [[[gs r'] Hok]|[e He]]; [exfalso | eauto].
    apply simulate_group_stage_ok_inv in Hok
      as (ts & _ & Hk & _ & _ & _ & _ & _ & Hteams).
    rewrite Forall_forall in Hteams.
    destruct (Hteams match_data Hin) as [H1 H2].
    rewrite Hk in H1, H2. apply initial_stats_keys in H1, H2.
    destruct Hunrated as [Hno|Hno]; apply Hno; assumption.
Qed.

Lemma group_stage_unrated_team_raises_witness :
  exists e,
    TournamentSimulator.simulate_group_stage
      (TournamentSimulator.init (unrated_visitor (F:=B64.t)) 1)
      (constant_tape 0) = Raise e.
Proof.
  apply (proj2 (proj2 (proj2 group_stage_unrated_team_raises)) B64.t _
           (unrated_visitor (F:=B64.t)) 1
           (fixture 1 "Oval Invincibles" "Trent Rockets"
                    "Kennington Oval, London")).
  - left.
  - right. simpl. intros Hin.
    repeat (apply elem_of_cons in Hin as [Hin|Hin]; [discriminate Hin|]).
    inversion Hin.
Defined.

(** The failing input of C4 evaluated: the unrated visitor is looked up in
    the standings dictionary. *)
Lemma unrated_visitor_key_error :
  TournamentSimulator.simulate_group_stage
    (TournamentSimulator.init (unrated_visitor (F:=B64.t)) 1)
    (constant_tape 0) = Raise (KeyError "Trent Rockets")
  /\ exists w r',
      MatchAnalyzer.calculate_win_probability
        (MatchAnalyzer.init (unrated_visitor (F:=B64.t))) 1 "Team A" "Bat"
        (constant_tape 0) = Ok (w, r').
Proof.
  split; [vm_compute; reflexivity|].
  eexists _, _. vm_compute. reflexivity.
Qed.

(** C5.  Two queries that differ only in the batting and bowling
    sub-ratings of the reference data (same schedule, venue profiles,
    player table, team names and overall ratings, same toss inputs and the
    same random draws) return the same pair of win probabilities: the
    venue-scaled batting-versus-bowling edges are computed and dropped. *)
Theorem win_prob_ignores_sub_ratings `{PyNum F} (csv1 csv2 : Files F)
    (match_id : Z) (toss_winner toss_decision : string) (r : Rng)
    (w1 w2 : MatchAnalyzer.WinProbability F) (r1 r2 : Rng) :
  SCHEDULE_FILE csv1 = SCHEDULE_FILE csv2 ->
  VENUE_STATS_FILE csv1 = VENUE_STATS_FILE csv2 ->
  PLAYER_STATS_FILE csv1 = PLAYER_STATS_FILE csv2 ->
  same_overall (TEAM_RATINGS_FILE csv1) (TEAM_RATINGS_FILE csv2) ->
  MatchAnalyzer.calculate_win_probability
    (MatchAnalyzer.init csv1) match_id toss_winner toss_decision r
  = Ok (w1, r1) ->
  MatchAnalyzer.calculate_win_probability
    (MatchAnalyzer.init csv2) match_id toss_winner toss_decision r
  = Ok (w2, r2) ->
  MatchAnalyzer.win_prob w1 = MatchAnalyzer.win_prob w2 /\ r1 = r2.
Proof.
  intros Hs Hv Hp Hrows Hok1 Hok2.
  apply calculate_win_probability_ok_inv in Hok1
    as (row1 & h1 & n1 & Hd1 & _ & _ & Hh1 & Hn1 & Hw1 & _).
  apply calculate_win_probability_ok_inv in Hok2
    as (row2 & h2 & n2 & Hd2 & _ & _ & Hh2 & Hn2 & Hw2 & _).
  assert (Hd : MatchAnalyzer.get_match_details (MatchAnalyzer.init csv1) match_id r
               = MatchAnalyzer.get_match_details (MatchAnalyzer.init csv2) match_id r).
  { unfold MatchAnalyzer.get_match_details, MatchAnalyzer.init.
    cbn [MatchAnalyzer.schedule_df]. rewrite Hs. reflexivity. }
  rewrite Hd, Hd2 in Hd1. inversion Hd1 as [[Ht1 Ht2 Hven Hdate Htime]].
  assert (Hvi : forall v, MatchAnalyzer.get_venue_impact (MatchAnalyzer.init csv1) v
                          = MatchAnalyzer.get_venue_impact (MatchAnalyzer.init csv2) v).
  { intros v. unfold MatchAnalyzer.get_venue_impact, MatchAnalyzer.init.
    cbn [MatchAnalyzer.venue_stats]. rewrite Hv. reflexivity. }
  rewrite Ht1, Ht2 in Hh2. rewrite Ht1, Ht2, Hven in Hn2.
  rewrite (head_to_head_same_overall (MatchAnalyzer.init csv1)
             (MatchAnalyzer.init csv2)) in Hh1
    by (apply get_team_rating_same_overall, Hrows).
  rewrite Hh1 in Hh2. inversion Hh2; subst h2 r2.
  rewrite (tossed_same_overall
             (MatchAnalyzer.get_team_rating (MatchAnalyzer.init csv1) (Team1 row1))
             (MatchAnalyzer.get_team_rating (MatchAnalyzer.init csv1) (Team2 row1))
             (MatchAnalyzer.get_team_rating (MatchAnalyzer.init csv2) (Team1 row1))
             (MatchAnalyzer.get_team_rating (MatchAnalyzer.init csv2) (Team2 row1)))
    in Hn1 by (apply get_team_rating_same_overall, Hrows).
  rewrite Hvi, Hn2 in Hn1. inversion Hn1; subst n2.
  split; [congruence | reflexivity].
Qed.

Lemma win_prob_ignores_sub_ratings_witness :
  exists w1 w2 r1 r2,
    MatchAnalyzer.calculate_win_probability
      (MatchAnalyzer.init (two_teams_with (of_Z 55) (of_Z 52) (of_Z 54 : B64.t)))
      1 "Team A" "Bat" (constant_tape 3) = Ok (w1, r1)
    /\ MatchAnalyzer.calculate_win_probability
         (MatchAnalyzer.init (two_teams_with (of_Z 80) (of_Z 20) (of_Z 54 : B64.t)))
         1 "Team A" "Bat" (constant_tape 3) = Ok (w2, r2)
    /\ MatchAnalyzer.win_prob w1 = MatchAnalyzer.win_prob w2 /\ r1 = r2.
Proof.
  eexists _, _, _, _.
  split; [vm_compute; reflexivity|].
  split; [vm_compute; reflexivity|].
  eapply (win_prob_ignores_sub_ratings
            (two_teams_with (of_Z 55) (of_Z 52) (of_Z 54 : B64.t))
            (two_teams_with (of_Z 80) (of_Z 20) (of_Z 54 : B64.t))
            1 "Team A" "Bat" (constant_tape 3)).
  - reflexivity.
  - reflexivity.
  - reflexivity.
  - repeat constructor.
  - vm_compute. reflexivity.
  - vm_compute. reflexivity.
Defined.

(** C6 (as amended).  For two teams of equal overall rating the value of
    [base_prob_team1] before the toss is looked at is exactly 50 when the
    drawn number of head-to-head matches is even (8, 10, 12, 14); when it
    is odd (9, 11, 13, 15) team 1 is given the rounded-down half of the
    matches and the value is [50 - 5 / total_matches], below 50. *)
Theorem equal_ratings_base_probability (self : MatchAnalyzer.t Q)
    (team1 team2 : string) (r : Rng) :
  (MatchAnalyzer.overall (MatchAnalyzer.get_team_rating self team1)
   == MatchAnalyzer.overall (MatchAnalyzer.get_team_rating self team2))%Q ->
  exists h r',
    MatchAnalyzer.get_head_to_head_record self team1 team2 r = Ok (h, r')
    /\ 8 <= MatchAnalyzer.total_matches h <= 15
    /\ let base :=
         MatchAnalyzer.base_win_probability
           (MatchAnalyzer.get_team_rating self team1)
           (MatchAnalyzer.get_team_rating self team2) h in
       (Z.even (MatchAnalyzer.total_matches h) = true -> (base == 50)%Q)
       /\ (Z.even (MatchAnalyzer.total_matches h) = false ->
           (base == 50 - 5 / inject_Z (MatchAnalyzer.total_matches h))%Q
           /\ (base < 50)%Q).
Proof.
  intros Heq.
  destruct (head_to_head_equal_ratings self team1 team2 r Heq)
    as (n & r' & Hrange & Hh).
  eexists _, r'. split; [exact Hh|]. split; [exact Hrange|].
  cbv zeta. unfold MatchAnalyzer.base_win_probability.
  cbn [MatchAnalyzer.total_matches MatchAnalyzer.team1_win_pct].
  set (o1 := MatchAnalyzer.overall (MatchAnalyzer.get_team_rating self team1)) in *.
  set (o2 := MatchAnalyzer.overall (MatchAnalyzer.get_team_rating self team2)) in *.
  change (lit 3 2) with (3 # 2)%Q. change (lit 1 10) with (1 # 10)%Q.
  change (@fadd Q _) with Qplus. change (@fsub Q _) with Qminus.
  change (@fmul Q _) with Qmult. change (@of_Z Q _) with inject_Z.
  assert (Hcases : n = 8 \/ n = 9 \/ n = 10 \/ n = 11 \/ n = 12 \/ n = 13
                   \/ n = 14 \/ n = 15) by lia.
  destruct Hcases as [ -> | [ -> | [ -> | [ -> | [ -> | [ -> | [ -> | -> ]]]]]]];
    simpl Z.even;
    (split; [intros Hev | intros Hod]; try discriminate);
    match goal with
    | |- context [(inject_Z ?a / inject_Z ?b * 100)%Q] =>
        let v := eval vm_compute in (inject_Z a / inject_Z b * 100)%Q in
        change (inject_Z a / inject_Z b * 100)%Q with v
    end;
    repeat match goal with
    | |- context [(5 / inject_Z ?b)%Q] =>
        let v := eval vm_compute in (5 / inject_Z b)%Q in
        change (5 / inject_Z b)%Q with v
    end;
    change (inject_Z 50) with 50%Q; change (inject_Z 1) with 1%Q;
    try split; lra.
Qed.

Lemma equal_ratings_base_probability_witness :
  exists h r',
    MatchAnalyzer.get_head_to_head_record
      (MatchAnalyzer.init (level_teams (F:=Q)))
      "Oval Invincibles" "Welsh Fire" (constant_tape 2) = Ok (h, r')
    /\ 8 <= MatchAnalyzer.total_matches h <= 15
    /\ let base :=
         MatchAnalyzer.base_win_probability
           (MatchAnalyzer.get_team_rating
              (MatchAnalyzer.init level_teams) "Oval Invincibles")
           (MatchAnalyzer.get_team_rating
              (MatchAnalyzer.init level_teams) "Welsh Fire") h in
       (Z.even (MatchAnalyzer.total_matches h) = true -> (base == 50)%Q)
       /\ (Z.even (MatchAnalyzer.total_matches h) = false ->
           (base == 50 - 5 / inject_Z (MatchAnalyzer.total_matches h))%Q
           /\ (base < 50)%Q).
Proof.
  apply (equal_ratings_base_probability
           (MatchAnalyzer.init level_teams) "Oval Invincibles" "Welsh Fire").
  vm_compute. reflexivity.
Defined.

(** C6, the claim as stated, fails: with equal overall ratings (50 and 50),
    a neutral ground and nine head-to-head matches drawn, team 1 is given
    four of the nine matches and its probability before the toss is
    49.44..., not 50, under binary64 and over the rationals alike. *)
Lemma equal_ratings_not_fifty_counterexample :
  (exists h r',
      MatchAnalyzer.get_head_to_head_record
        (MatchAnalyzer.init (level_teams (F:=B64.t)))
        "Oval Invincibles" "Welsh Fire" (constant_tape 1) = Ok (h, r')
      /\ MatchAnalyzer.total_matches h = 9
      /\ MatchAnalyzer.team1_wins h = 4
      /\ fltb (MatchAnalyzer.base_win_probability
                 (MatchAnalyzer.get_team_rating
                    (MatchAnalyzer.init level_teams) "Oval Invincibles")
                 (MatchAnalyzer.get_team_rating
                    (MatchAnalyzer.init level_teams) "Welsh Fire") h)
              (of_Z 50) = true)
  /\ (exists h r',
         MatchAnalyzer.get_head_to_head_record
           (MatchAnalyzer.init (level_teams (F:=Q)))
           "Oval Invincibles" "Welsh Fire" (constant_tape 1) = Ok (h, r')
         /\ MatchAnalyzer.total_matches h = 9
         /\ (MatchAnalyzer.base_win_probability
               (MatchAnalyzer.get_team_rating
                  (MatchAnalyzer.init level_teams) "Oval Invincibles")
               (MatchAnalyzer.get_team_rating
                  (MatchAnalyzer.init level_teams) "Welsh Fire") h
             == 445 # 9)%Q).
Proof.
  split.
  - eexists _, _. split; [vm_compute; reflexivity|].
    repeat split; vm_compute; reflexivity.
  - eexists _, _. split; [vm_compute; reflexivity|].
    repeat split; vm_compute; reflexivity.
Qed.

(** C7 (where the code departs from it).  With three or more rated teams
    and no fixture numbered 999 in the schedule, no tournament run returns:
    the final is simulated under the dummy id 999, which the win-probability
    query looks up in the schedule.  The Monte Carlo driver therefore
    raises for every n >= 1 and no analysis table is produced. *)
Theorem monte_carlo_final_not_in_schedule `{PyNum F} (csv : Files F) (n : Z)
    (r : Rng) :
  1 <= n ->
  NoDup (map Team (TEAM_RATINGS_FILE csv)) ->
  (3 <= length (TEAM_RATINGS_FILE csv))%nat ->
  999 ∉ map Match_ID (SCHEDULE_FILE csv) ->
  exists e,
    TournamentSimulator.run_multiple_simulations
      (TournamentSimulator.init csv n) r = Raise e.
Proof.
  intros Hn Hnd Hthree H999.
  unfold TournamentSimulator.run_multiple_simulations.
  cbn [TournamentSimulator.num_simulations TournamentSimulator.init].
  destruct (Z.to_nat n) as [|k] eqn:En; [lia|]. simpl seq. simpl for_each.
  match goal with
  | |- exists e, bind ?c ?k ?r = Raise e =>
      destruct (outcome_cases (c r)) as [[[acc r1] Hok]|[e He]]
  end.
  - exfalso. unfold TournamentSimulator.simulation_step in Hok.
    apply bind_ok in Hok as (sim & r2 & Hsim & _).
    apply run_simulation_ok_inv in Hsim as (_ & _ & Hfinal).
    apply H999. apply Hfinal.
    + exact Hnd.
    + cbn [TournamentSimulator.teams TournamentSimulator.init].
      rewrite length_map. exact Hthree.
  - exists e. apply bind_of_raise. exact He.
Qed.

Lemma monte_carlo_final_not_in_schedule_witness :
  exists e,
    TournamentSimulator.run_multiple_simulations
      (TournamentSimulator.init (three_teams (F:=B64.t)) 1)
      (constant_tape 0) = Raise e.
Proof.
  apply monte_carlo_final_not_in_schedule.
  - lia.
  - simpl. repeat (apply NoDup_cons; split;
                   [intros Hin;
                    repeat (apply elem_of_cons in Hin as [Hin|Hin];
                            [discriminate Hin|]);
                    inversion Hin|]).
    apply NoDup_nil. exact I.
  - simpl. lia.
  - simpl. intros Hin.
    repeat (apply elem_of_cons in Hin as [Hin|Hin]; [discriminate Hin|]).
    inversion Hin.
Defined.

(** The failing input of C7 evaluated. *)
Lemma three_teams_final_raises :
  TournamentSimulator.run_multiple_simulations
    (TournamentSimulator.init (three_teams (F:=B64.t)) 1) (constant_tape 0)
  = Raise (ValueError "Match ID 999 not found").
Proof.
  vm_compute. reflexivity.
Qed.



(** C9.  A group stage that returns has played every fixture of the
    schedule once and in schedule order, each with the fixture's two teams
    as winner and loser; every row of the standings has points equal to
    twice its wins, there is one row per known team, and wins and losses
    each add up to the number of fixtures.  Over the rationals it does
    return whenever every scheduled team has a rating entry (the rating
    table not being empty and no bowling rating being -20). *)
Theorem group_stage_accounting :
  (forall F (HF : PyNum F) (self : TournamentSimulator.t F) (r : Rng)
          (gs : TournamentSimulator.GroupStage F) (r' : Rng),
      TournamentSimulator.simulate_group_stage self r = Ok (gs, r') ->
      Forall2 played (TournamentSimulator.schedule_df self)
              (TournamentSimulator.match_results gs)
      /\ Forall (fun row => TournamentSimulator.st_points row
                            = 2 * TournamentSimulator.st_wins row)
                (TournamentSimulator.standings gs)
      /\ sum_with TournamentSimulator.st_wins (TournamentSimulator.standings gs)
         = Z.of_nat (length (TournamentSimulator.schedule_df self))
      /\ sum_with TournamentSimulator.st_losses (TournamentSimulator.standings gs)
         = Z.of_nat (length (TournamentSimulator.schedule_df self))
      /\ NoDup (map TournamentSimulator.st_team (TournamentSimulator.standings gs))
      /\ (forall team_name,
             team_name ∈ map TournamentSimulator.st_team
                             (TournamentSimulator.standings gs)
             <-> team_name ∈ TournamentSimulator.teams self))
  /\ (forall (csv : Files Q) (n : Z) (r : Rng),
         TEAM_RATINGS_FILE csv <> [] ->
         bowling_defined csv ->
         Forall (fun m => Team1 m ∈ map Team (TEAM_RATINGS_FILE csv)
                          /\ Team2 m ∈ map Team (TEAM_RATINGS_FILE csv))
                (SCHEDULE_FILE csv) ->
         exists gs r',
           TournamentSimulator.simulate_group_stage
             (TournamentSimulator.init csv n) r = Ok (gs, r')).
Proof.
  split; [|exact simulate_group_stage_total].
  intros F HF self r gs r' Hok.
  apply simulate_group_stage_ok_inv in Hok
    as (ts & Hst & Hk & _ & Hp & Hw & Hl & Hpl & _).
  rewrite Hst.
  assert (Hperm : map TournamentSimulator.st_team
                      (sort_desc Z.ltb TournamentSimulator.st_points
                                 (map row_of ts))
                  ≡ₚ map fst ts).
  { rewrite <- standings_teams. apply Permutation_map, sort_desc_perm. }
  split; [exact Hpl|]. split; [|split; [|split; [|split]]].
  - apply sort_desc_Forall. apply Forall_forall. intros row Hrow.
    apply list_elem_of_In, in_map_iff in Hrow as (kv & <- & Hkv).
    apply list_elem_of_In in Hkv. rewrite Forall_forall in Hp.
    exact (Hp kv Hkv).
  - rewrite (sum_with_perm _ _ _ (sort_desc_perm _ _ _)), sum_with_map.
    exact Hw.
  - rewrite (sum_with_perm _ _ _ (sort_desc_perm _ _ _)), sum_with_map.
    exact Hl.
  - rewrite Hperm, Hk. unfold initial_stats.
    apply dict_of_keys_NoDup. constructor.
  - intros team_name. rewrite Hperm, Hk. apply initial_stats_keys.
Qed.

Lemma group_stage_accounting_witness :
  exists gs r',
    TournamentSimulator.simulate_group_stage
      (TournamentSimulator.init (two_teams (of_Z 54 : B64.t)) 1)
      (constant_tape 5) = Ok (gs, r')
    /\ Forall2 played (SCHEDULE_FILE (two_teams (of_Z 54 : B64.t)))
               (TournamentSimulator.match_results gs)
    /\ sum_with TournamentSimulator.st_wins (TournamentSimulator.standings gs)
       = 2.
Proof.
  eexists _, _. split; [vm_compute; reflexivity|].
  edestruct (proj1 group_stage_accounting B64.t _
               (TournamentSimulator.init (two_teams (of_Z 54 : B64.t)) 1)
               (constant_tape 5)) as (Hpl & _ & Hw & _).
  - vm_compute. reflexivity.
  - split; [exact Hpl | exact Hw].
Defined.



(** * Further properties of the two modules *)

(** ** Lookups built by [__init__] *)

Lemma foldl_insert_absent {A V} (kf : A -> string) (vf : A -> V)
    (l : list A) (m : gmap string V) k :
  k ∉ map kf l ->
  foldl (fun d x => <[kf x := vf x]> d) m l !! k = m !! k.
Proof.
  revert m. induction l as [|x l IH]; intros m Hno; simpl; [reflexivity|].
  rewrite IH.
  - apply lookup_insert_ne. intros E. apply Hno. rewrite <- E. left.
  - intros Hin. apply Hno. right. exact Hin.
Qed.

Lemma foldl_insert_last {A V} (kf : A -> string) (vf : A -> V)
    (pre post : list A) (x : A) (m : gmap string V) :
  kf x ∉ map kf post ->
  foldl (fun d x => <[kf x := vf x]> d) m (pre ++ x :: post) !! kf x
  = Some (vf x).
Proof.
  intros Hno. rewrite foldl_app. simpl.
  rewrite foldl_insert_absent by exact Hno.
  apply lookup_insert_eq.
Qed.

(** X1.  The two lookups that [__init__] builds keep, for a team or venue
    name that occurs in several rows, the entry of the last such row:
    [get_team_rating] and [get_venue_impact] answer with that row's
    values. *)
Theorem lookups_keep_last_row `{PyNum F} (csv : Files F) :
  (forall pre row post,
      TEAM_RATINGS_FILE csv = pre ++ row :: post ->
      Team row ∉ map Team post ->
      MatchAnalyzer.get_team_rating (MatchAnalyzer.init csv) (Team row)
      = rating_of row)
  /\ (forall pre row post,
         VENUE_STATS_FILE csv = pre ++ row :: post ->
         venue row ∉ map venue post ->
         MatchAnalyzer.get_venue_impact (MatchAnalyzer.init csv) (venue row)
         = impact_of row).
Proof.
  split; intros pre row post Hrows Hno.
  - unfold MatchAnalyzer.get_team_rating, MatchAnalyzer.init.
    cbn [MatchAnalyzer.team_ratings]. rewrite Hrows.
    rewrite (foldl_insert_last Team rating_of pre post row ∅ Hno).
    reflexivity.
  - unfold MatchAnalyzer.get_venue_impact, MatchAnalyzer.init.
    cbn [MatchAnalyzer.venue_stats]. rewrite Hrows.
    rewrite (foldl_insert_last venue impact_of pre post row ∅ Hno).
    reflexivity.
Qed.

Lemma lookups_keep_last_row_witness :
  MatchAnalyzer.get_team_rating
    (MatchAnalyzer.init (restated_ratings (F:=B64.t))) "Oval Invincibles"
  = {| MatchAnalyzer.batting := of_Z 60;
       MatchAnalyzer.bowling := of_Z 58;
       MatchAnalyzer.overall := of_Z 59 |}.
Proof.
  apply (proj1 (lookups_keep_last_row (restated_ratings (F:=B64.t)))
           [rating_row "Oval Invincibles" (of_Z 55) (of_Z 52) (of_Z 54);
            rating_row "Welsh Fire" (of_Z 48) (of_Z 50) (of_Z 50)]
           (rating_row "Oval Invincibles" (of_Z 60) (of_Z 58) (of_Z 59))
           []).
  - reflexivity.
  - simpl. inversion 1.
Defined.

(** ** The head-to-head record *)

Section H2HFacts.
Context `{PyNum F}.
Import MatchAnalyzer.

Lemma randint_run (a b : Z) r :
  randint a b r = Ok (a + tape r (pos r) mod (b - a + 1), advance r 1).
Proof. reflexivity. Qed.

Lemma py_int_ok_inv (x : F) r z r' : py_int x r = Ok (z, r') -> r' = r.
Proof.
  unfold py_int, lift. destruct (ftrunc x); intros E; inversion E; reflexivity.
Qed.

Lemma win_pct_ok_inv (w n : Z) r p r' : win_pct w n r = Ok (p, r') -> r' = r.
Proof.
  unfold win_pct, py_int_div, bind, ret, raise.
  destruct (0 <? n); [destruct (n =? 0)|]; intros E; inversion E; reflexivity.
Qed.

Lemma head_to_head_ok_inv (self : t F) team1 team2 r h r' :
  get_head_to_head_record self team1 team2 r = Ok (h, r') ->
  total_matches h = 8 + tape r (pos r) mod 8
  /\ team1_wins h + team2_wins h = total_matches h
  /\ r' = advance r 1.
Proof.
  unfold get_head_to_head_record. intros Hok.
  apply bind_ok in Hok as (n & r1 & Hn & Hok).
  rewrite randint_run in Hn. inversion Hn; subst n r1; clear Hn.
  apply bind_ok in Hok as (w1 & r2 & Hw & Hok).
  assert (r2 = advance r 1) as ->.
  { destruct (fgtb _ _); apply py_int_ok_inv in Hw; exact Hw. }
  apply bind_ok in Hok as (p1 & r3 & Hp1 & Hok).
  apply win_pct_ok_inv in Hp1 as ->.
  apply bind_ok in Hok as (p2 & r4 & Hp2 & Hok).
  apply win_pct_ok_inv in Hp2 as ->.
  unfold ret in Hok. inversion Hok; subst; simpl.
  repeat split; lia.
Qed.
End H2HFacts.

(** X2.  A head-to-head record that is returned has between 8 and 15
    matches, the number being fixed by the one call to the random module
    that the function makes, and its two win counts add up to the number
    of matches. *)
Theorem head_to_head_accounting `{PyNum F} (self : MatchAnalyzer.t F)
    (team1 team2 : string) (r : Rng) (h : MatchAnalyzer.HeadToHead F)
    (r' : Rng) :
  MatchAnalyzer.get_head_to_head_record self team1 team2 r = Ok (h, r') ->
  8 <= MatchAnalyzer.total_matches h <= 15
  /\ MatchAnalyzer.total_matches h = 8 + tape r (pos r) mod 8
  /\ MatchAnalyzer.team1_wins h + MatchAnalyzer.team2_wins h
     = MatchAnalyzer.total_matches h
  /\ tape r' = tape r /\ pos r' = S (pos r).
Proof.
  intros Hok. apply head_to_head_ok_inv in Hok as (Ht & Hw & ->).
  pose proof (Z.mod_pos_bound (tape r (pos r)) 8 ltac:(lia)).
  repeat split; try assumption; try lia.
Qed.

Lemma head_to_head_accounting_witness :
  exists h r',
    MatchAnalyzer.get_head_to_head_record
      (MatchAnalyzer.init (two_teams (of_Z 54 : B64.t)))
      "Oval Invincibles" "Welsh Fire" (constant_tape 3) = Ok (h, r')
    /\ MatchAnalyzer.total_matches h = 11
    /\ MatchAnalyzer.team1_wins h + MatchAnalyzer.team2_wins h = 11
    /\ pos r' = 1%nat.
Proof.
  destruct (MatchAnalyzer.get_head_to_head_record
              (MatchAnalyzer.init (two_teams (of_Z 54 : B64.t)))
              "Oval Invincibles" "Welsh Fire" (constant_tape 3))
    as [[h r']|e] eqn:E; [|vm_compute in E; discriminate E].
  exists h, r'. split; [reflexivity|].
  destruct (head_to_head_accounting _ _ _ _ _ _ E) as (_ & Ht & Hw & _ & Hp).
  rewrite Hw. repeat split; assumption.
Defined.

Section H2HRational.
Import MatchAnalyzer.
Local Open Scope Q_scope.

Lemma head_to_head_exact (self : t Q) team1 team2 r :
  let n := (8 + tape r (pos r) mod 8)%Z in
  let w := QNum.trunc
             (inject_Z n
              * ((1 # 2)
                 + (overall (get_team_rating self team1)
                    - overall (get_team_rating self team2)) / 100)) in
  get_head_to_head_record self team1 team2 r
  = Ok ({| total_matches := n;
           team1_wins := w;
           team2_wins := n - w;
           team1_win_pct := inject_Z w / inject_Z n * 100;
           team2_win_pct := inject_Z (n - w) / inject_Z n * 100 |},
        advance r 1).
Proof.
  cbv zeta. unfold get_head_to_head_record.
  rewrite (bind_of_ok _ _ _ _ _ (randint_run 8 15 r)).
  change (15 - 8 + 1)%Z with 8%Z.
  set (n := (8 + tape r (pos r) mod 8)%Z).
  pose proof (Z.mod_pos_bound (tape r (pos r)) 8 ltac:(lia)) as Hm.
  assert (Hpos : (0 <? n)%Z = true) by (apply Z.ltb_lt; lia).
  assert (Hnz : (n =? 0)%Z = false) by (apply Z.eqb_neq; lia).
  set (o1 := overall (get_team_rating self team1)).
  set (o2 := overall (get_team_rating self team2)).
  assert (Hw : (if fgtb o1 o2
                then py_int (fmul (of_Z n)
                               (fadd (lit 1 2) (fdiv (fsub o1 o2) (of_Z 100))))
                else py_int (fmul (of_Z n)
                               (fsub (lit 1 2) (fdiv (fsub o2 o1) (of_Z 100)))))
               (advance r 1)
               = Ok (QNum.trunc (inject_Z n * ((1 # 2) + (o1 - o2) / 100)),
                     advance r 1)).
  { destruct (fgtb o1 o2); unfold py_int, lift;
      change (ftrunc ?x) with (Ok (QNum.trunc x)); cbv beta iota;
      f_equal; f_equal; apply trunc_comp; simpl;
      change (lit 1 2) with (1 # 2); change (inject_Z 100) with 100; field. }
  rewrite (bind_of_ok _ _ _ _ _ Hw).
  unfold win_pct, py_int_div. rewrite Hpos, Hnz. reflexivity.
Qed.

Lemma trunc_bounds (x : Q) (lo hi : Z) :
  (lo <= 0)%Z -> (0 <= hi)%Z -> inject_Z lo <= x -> x <= inject_Z hi ->
  (lo <= QNum.trunc x <= hi)%Z.
Proof.
  intros Hlo Hhi H1 H2. unfold QNum.trunc.
  destruct (Qle_bool 0 x) eqn:E.
  - apply Qle_bool_iff in E. split.
    + transitivity 0%Z; [exact Hlo|].
      change 0%Z with (Qfloor (inject_Z 0)). apply Qfloor_resp_le, E.
    + rewrite <- (Qfloor_Z hi). apply Qfloor_resp_le, H2.
  - assert (Hx : x <= 0).
    { apply Qnot_lt_le. intros Hlt.
      assert (Qle_bool 0 x = true) by (apply Qle_bool_iff; lra). congruence. }
    split.
    + rewrite <- (Qceiling_Z lo). apply Qceiling_resp_le, H1.
    + transitivity 0%Z; [|exact Hhi].
      change 0%Z with (Qceiling (inject_Z 0)). apply Qceiling_resp_le, Hx.
Qed.

Lemma trunc_ge (x : Q) (lo : Z) :
  (0 <= lo)%Z -> inject_Z lo <= x -> (lo <= QNum.trunc x)%Z.
Proof.
  intros Hlo H1. unfold QNum.trunc.
  assert (E : Qle_bool 0 x = true).
  { apply Qle_bool_iff. apply Qle_trans with (inject_Z lo); [|exact H1].
    change 0 with (inject_Z 0). rewrite <- Zle_Qle. exact Hlo. }
  rewrite E. rewrite <- (Qfloor_Z lo). apply Qfloor_resp_le, H1.
Qed.

End H2HRational.

Section H2HRational2.
Import MatchAnalyzer.
Local Open Scope Q_scope.

Lemma trunc_le (x : Q) (hi : Z) :
  (hi <= 0)%Z -> x <= inject_Z hi -> (QNum.trunc x <= hi)%Z.
Proof.
  intros Hhi H1. unfold QNum.trunc.
  destruct (Qle_bool 0 x) eqn:E.
  - apply Qle_bool_iff in E.
    assert (Hz : inject_Z 0 <= inject_Z hi)
      by (apply Qle_trans with x; assumption).
    rewrite <- Zle_Qle in Hz. assert (hi = 0%Z) as -> by lia.
    rewrite <- (Qfloor_Z 0). apply Qfloor_resp_le, H1.
  - rewrite <- (Qceiling_Z hi). apply Qceiling_resp_le, H1.
Qed.

Lemma percent_sum (w n : Z) :
  (1 <= n)%Z ->
  inject_Z w / inject_Z n * 100 + inject_Z (n - w) / inject_Z n * 100 == 100.
Proof.
  intros Hn. unfold Z.sub. rewrite inject_Z_plus, inject_Z_opp.
  assert (Hnz : ~ inject_Z n == 0).
  { intros E. unfold Qeq in E. simpl in E. lia. }
  field. exact Hnz.
Qed.

Lemma percent_lt (a b n : Z) :
  (a < b)%Z -> (1 <= n)%Z ->
  inject_Z a / inject_Z n * 100 < inject_Z b / inject_Z n * 100.
Proof.
  intros Hab Hn.
  assert (Hpos : 0 < inject_Z n).
  { change 0 with (inject_Z 0). rewrite <- Zlt_Qlt. lia. }
  apply Qmult_lt_r; [reflexivity|].
  unfold Qdiv. apply Qmult_lt_r; [apply Qinv_lt_0_compat, Hpos|].
  rewrite <- Zlt_Qlt. exact Hab.
Qed.

Lemma percent_of_zero (n : Z) :
  (1 <= n)%Z -> inject_Z 0 / inject_Z n * 100 == 0.
Proof.
  intros Hn. change (inject_Z 0) with 0. field.
  intros E. unfold Qeq in E. simpl in E. lia.
Qed.

Lemma percent_of_all (n : Z) :
  (1 <= n)%Z -> inject_Z n / inject_Z n * 100 == 100.
Proof.
  intros Hn. field. intros E. unfold Qeq in E. simpl in E. lia.
Qed.

Lemma percent_range (a n : Z) :
  (0 <= a <= n)%Z -> (1 <= n)%Z ->
  0 <= inject_Z a / inject_Z n * 100 <= 100.
Proof.
  intros Ha Hn. split.
  - apply Qle_trans with (inject_Z 0 / inject_Z n * 100);
      [rewrite percent_of_zero by lia; apply Qle_refl | apply percent_mono; lia].
  - apply Qle_trans with (inject_Z n / inject_Z n * 100);
      [apply percent_mono; lia | rewrite percent_of_all by lia; apply Qle_refl].
Qed.

End H2HRational2.


(** ** Clamping *)

Lemma SFltb_asym (a b : spec_float) : SFltb a b = true -> SFltb b a = false.
Proof.
  unfold SFltb, SFcompare.
  destruct a as [sa|sa| |sa ma ea], b as [sb|sb| |sb mb eb];
    try destruct sa; try destruct sb; try reflexivity; try discriminate.
  all: rewrite (Z.compare_antisym ea eb);
    change (PosDef.Pos.compare_cont Eq mb ma) with (Pos.compare mb ma);
    change (PosDef.Pos.compare_cont Eq ma mb) with (Pos.compare ma mb);
    rewrite (Pos.compare_antisym ma mb);
    destruct (ea ?= eb)%Z; simpl; try reflexivity; try discriminate;
    destruct (Pos.compare ma mb); simpl; try reflexivity; discriminate.
Qed.

Section ClampFacts.
Context `{PyNum F}.
Import MatchAnalyzer.

(** The three cases of [max(15, min(85, x))]. *)
Lemma clamp_cases (x : F) :
  (fltb x (of_Z 85) = false
   /\ fst (clamp x) = py_max (of_Z 15) (of_Z 85))
  \/ (fltb x (of_Z 85) = true /\ fltb (of_Z 15) x = true /\ fst (clamp x) = x)
  \/ (fltb x (of_Z 85) = true /\ fltb (of_Z 15) x = false
      /\ fst (clamp x) = of_Z 15).
Proof.
  unfold clamp, py_max, py_min. cbn [fst].
  destruct (fltb x (of_Z 85)) eqn:E1.
  - destruct (fltb (of_Z 15) x) eqn:E2; auto.
  - left. auto.
Qed.

Lemma clamp_idempotent (x : F) :
  fltb (of_Z 15) (of_Z 85) = true ->
  fltb (of_Z 85) (of_Z 85) = false ->
  fltb (of_Z 15) (of_Z 15) = false ->
  clamp (fst (clamp x)) = clamp x.
Proof.
  intros H1 H2 H3.
  assert (Hfst : fst (clamp (fst (clamp x))) = fst (clamp x)).
  { destruct (clamp_cases x) as [[E Hc]|[(E1 & E2 & Hc)|(E1 & E2 & Hc)]];
      rewrite Hc; unfold clamp, py_max, py_min; cbn [fst].
    - rewrite H1, H2, H1. reflexivity.
    - rewrite E1, E2. reflexivity.
    - rewrite H1, H3. reflexivity. }
  unfold clamp in *. cbn [fst] in *. rewrite Hfst. reflexivity.
Qed.
End ClampFacts.

(** X4.  The clamping step [max(15, min(85, x))] under binary64, for every
    float, infinities and NaN included: the result is neither below 15 nor
    above 85, clamping it again changes nothing, and team 2 is given 100
    minus it; NaN is clamped to 85.  Over exact rationals clamping is
    idempotent as well. *)
Theorem clamp_band_and_idempotence :
  (forall x : B64.t,
      let c := fst (MatchAnalyzer.clamp x) in
      SFltb c (of_Z 15) = false /\ SFltb (of_Z 85) c = false
      /\ MatchAnalyzer.clamp c = MatchAnalyzer.clamp x
      /\ snd (MatchAnalyzer.clamp x) = fsub (of_Z 100) c)
  /\ MatchAnalyzer.clamp (S754_nan : B64.t) = (of_Z 85, of_Z 15)
  /\ (forall x : Q,
         MatchAnalyzer.clamp (fst (MatchAnalyzer.clamp x))
         = MatchAnalyzer.clamp x).
Proof.
  split; [|split].
  - intros x. cbv zeta. split; [|split; [|split]].
    + destruct (clamp_cases x) as [[E Hc]|[(E1 & E2 & Hc)|(E1 & E2 & Hc)]];
        rewrite Hc.
      * vm_compute. reflexivity.
      * apply SFltb_asym. exact E2.
      * vm_compute. reflexivity.
    + destruct (clamp_cases x) as [[E Hc]|[(E1 & E2 & Hc)|(E1 & E2 & Hc)]];
        rewrite Hc.
      * vm_compute. reflexivity.
      * apply SFltb_asym. exact E1.
      * vm_compute. reflexivity.
    + apply clamp_idempotent; vm_compute; reflexivity.
    + reflexivity.
  - vm_compute. reflexivity.
  - intros x. apply clamp_idempotent; vm_compute; reflexivity.
Qed.

(** ** The toss and the rating gap *)

Section TossFacts.
Context `{PyNum F}.
Import MatchAnalyzer.

Lemma apply_toss_advantage_bonus (vi : VenueImpact F) tw td (b1 b2 : F) :
  apply_toss_advantage vi tw td b1 b2
  = if decide (tw = "Team A")
    then (fadd b1 (toss_bonus vi td), b2)
    else (b1, fadd b2 (toss_bonus vi td)).
Proof.
  unfold apply_toss_advantage, toss_bonus.
  repeat match goal with
         | |- context [if ?c then _ else _] => destruct c
         end; reflexivity.
Qed.
End TossFacts.

Section ShareFacts.
Import MatchAnalyzer.
Local Open Scope Q_scope.

Lemma toss_bonus_cases (vi : VenueImpact Q) td :
  toss_bonus vi td == 15 \/ toss_bonus vi td == 15 # 2.
Proof.
  unfold toss_bonus.
  repeat match goal with
         | |- context [if ?c then _ else _] => destruct c
         end; (left; reflexivity) || (right; reflexivity).
Qed.

Lemma normalize_share (b1 b2 : Q) r n r' :
  normalize b1 b2 r = Ok (n, r') ->
  ~ b1 + b2 == 100 ->
  ~ b1 + b2 == 0
  /\ fst n = b1 / (b1 + b2) * 100 /\ snd n = b2 / (b1 + b2) * 100.
Proof.
  unfold normalize, fneb, py_div. simpl.
  change (inject_Z 100) with 100. change (inject_Z 0) with 0.
  intros Hok Hne.
  assert (H100 : Qeq_bool (b1 + b2) 100 = false).
  { destruct (Qeq_bool _ _) eqn:E; [|reflexivity].
    apply Qeq_bool_iff in E. contradiction. }
  rewrite H100 in Hok. simpl in Hok. unfold bind, ret, raise in Hok.
  destruct (Qeq_bool (b1 + b2) 0) eqn:E0; [discriminate|].
  inversion Hok; subst. simpl. split; [|split; reflexivity].
  intros E. apply Qeq_bool_iff in E. congruence.
Qed.

Lemma clamp_comp (x y : Q) : x == y -> fst (clamp x) == fst (clamp y).
Proof.
  intros E. unfold clamp, py_max, py_min. cbn [fst]. simpl.
  change (inject_Z 15) with 15. change (inject_Z 85) with 85.
  destruct (QNum.ltb x 85) eqn:Ex, (QNum.ltb y 85) eqn:Ey;
    try apply QFacts.ltb_lt in Ex; try apply QFacts.ltb_ge in Ex;
    try apply QFacts.ltb_lt in Ey; try apply QFacts.ltb_ge in Ey;
    try (exfalso; lra).
  - destruct (QNum.ltb 15 x) eqn:Fx, (QNum.ltb 15 y) eqn:Fy;
      try apply QFacts.ltb_lt in Fx; try apply QFacts.ltb_ge in Fx;
      try apply QFacts.ltb_lt in Fy; try apply QFacts.ltb_ge in Fy;
      try (exfalso; lra); lra.
  - reflexivity.
Qed.

Lemma clamp_mono (x y : Q) : x <= y -> fst (clamp x) <= fst (clamp y).
Proof.
  intros E. unfold clamp, py_max, py_min. cbn [fst]. simpl.
  change (inject_Z 15) with 15. change (inject_Z 85) with 85.
  destruct (QNum.ltb x 85) eqn:Ex, (QNum.ltb y 85) eqn:Ey;
    try apply QFacts.ltb_lt in Ex; try apply QFacts.ltb_ge in Ex;
    try apply QFacts.ltb_lt in Ey; try apply QFacts.ltb_ge in Ey;
    try (exfalso; lra);
    try change (QNum.ltb 15 85) with true; cbv iota.
  - destruct (QNum.ltb 15 x) eqn:Fx, (QNum.ltb 15 y) eqn:Fy;
      try apply QFacts.ltb_lt in Fx; try apply QFacts.ltb_ge in Fx;
      try apply QFacts.ltb_lt in Fy; try apply QFacts.ltb_ge in Fy;
      try (exfalso; lra); lra.
  - destruct (QNum.ltb 15 x) eqn:Fx;
      try apply QFacts.ltb_lt in Fx; try apply QFacts.ltb_ge in Fx; lra.
  - lra.
Qed.

(** What a returning query reports, in closed form. *)
Lemma win_probability_share (self : t Q) match_id tw td r w r' :
  calculate_win_probability self match_id tw td r = Ok (w, r') ->
  exists row h,
    get_match_details self match_id r = Ok (details_of match_id row, r)
    /\ row ∈ schedule_df self /\ Match_ID row = match_id
    /\ get_head_to_head_record self (Team1 row) (Team2 row) r = Ok (h, r')
    /\ let c :=
         fst (clamp
                (toss_share
                   (base_win_probability (get_team_rating self (Team1 row))
                      (get_team_rating self (Team2 row)) h)
                   (toss_bonus (get_venue_impact self (Venue row)) td)
                   tw)) in
       fst (win_prob w) == QNum.round1 c
       /\ snd (win_prob w) == QNum.round1 (100 - c).
Proof.
  intros Hok.
  apply calculate_win_probability_ok_inv in Hok
    as (row & h & n & Hd & Hrow & Hid & Hh & Hn & Hw & _ & _).
  exists row, h. repeat (split; [assumption|]).
  cbv zeta. rewrite Hw. unfold rounded. cbn [fst snd].
  pose proof (tossed_total (get_team_rating self (Team1 row))
                (get_team_rating self (Team2 row))
                (get_venue_impact self (Venue row)) h tw td) as Hsum.
  cbv zeta in Hsum.
  apply normalize_share in Hn as (Hnz & Hn1 & _);
    [|destruct Hsum as [Hs|Hs]; rewrite Hs; intros E; discriminate E].
  set (b := base_win_probability (get_team_rating self (Team1 row))
              (get_team_rating self (Team2 row)) h) in *.
  set (vi := get_venue_impact self (Venue row)) in *.
  assert (Hshare : fst n == toss_share b (toss_bonus vi td) tw).
  { rewrite Hn1. unfold tossed in *. fold b in Hnz |- *.
    rewrite apply_toss_advantage_bonus in Hnz |- *.
    unfold toss_share.
    destruct (toss_bonus_cases vi td) as [Ht|Ht];
      destruct (decide (tw = "Team A")); cbn [fst snd] in Hnz |- *;
      simpl in Hnz |- *; change (inject_Z 100) with 100 in Hnz |- *;
      rewrite Ht in Hnz |- *; field; exact Hnz. }
  pose proof (clamp_comp _ _ Hshare) as Hc.
  destruct (clamp_bounds (fst n)) as (_ & _ & Hsnd). rewrite Hsnd.
  split; apply round1_comp; [exact Hc | rewrite Hc; reflexivity].
Qed.

End ShareFacts.

Section ShareOrder.
Import MatchAnalyzer.
Local Open Scope Q_scope.

Lemma details_of_inj (match_id : Z) (row1 row2 : Fixture) :
  details_of match_id row1 = details_of match_id row2 ->
  Team1 row1 = Team1 row2 /\ Team2 row1 = Team2 row2
  /\ Venue row1 = Venue row2.
Proof. unfold details_of. intros E. inversion E. auto. Qed.

Lemma toss_share_toss (b t : Q) (tw : string) :
  0 <= t -> toss_share b t tw <= toss_share b t "Team A".
Proof.
  intros Ht. unfold toss_share.
  destruct (decide ("Team A" = "Team A")) as [_|NE]; [|contradiction].
  apply Qmult_le_compat_r; [|discriminate].
  unfold Qdiv. apply Qmult_le_compat_r.
  - destruct (decide (tw = "Team A")); lra.
  - apply Qinv_le_0_compat. lra.
Qed.

Lemma toss_share_mono (b1 b2 t : Q) (tw : string) :
  0 <= t -> b1 <= b2 -> toss_share b1 t tw <= toss_share b2 t tw.
Proof.
  intros Ht Hb. unfold toss_share.
  apply Qmult_le_compat_r; [|discriminate].
  unfold Qdiv. apply Qmult_le_compat_r.
  - destruct (decide (tw = "Team A")); lra.
  - apply Qinv_le_0_compat. lra.
Qed.

Lemma toss_bonus_nonneg (vi : VenueImpact Q) td : 0 <= toss_bonus vi td.
Proof. destruct (toss_bonus_cases vi td) as [E|E]; rewrite E; discriminate. Qed.

Lemma trunc_mono (x y : Q) : x <= y -> (QNum.trunc x <= QNum.trunc y)%Z.
Proof.
  intros Hxy. unfold QNum.trunc.
  destruct (Qle_bool 0 x) eqn:Ex, (Qle_bool 0 y) eqn:Ey.
  - apply Qfloor_resp_le, Hxy.
  - apply Qle_bool_iff in Ex.
    assert (Qle_bool 0 y = true) by (apply Qle_bool_iff; lra). congruence.
  - apply Qle_bool_iff in Ey.
    assert (Hx : x <= 0).
    { apply Qnot_lt_le. intros Hlt.
      assert (Qle_bool 0 x = true) by (apply Qle_bool_iff; lra). congruence. }
    transitivity 0%Z.
    + change 0%Z with (Qceiling (inject_Z 0)). apply Qceiling_resp_le, Hx.
    + change 0%Z with (Qfloor (inject_Z 0)). apply Qfloor_resp_le, Ey.
  - apply Qceiling_resp_le, Hxy.
Qed.

Lemma base_win_probability_mono (a1 b1 a2 b2 : Rating Q) (h1 h2 : HeadToHead Q) :
  overall a1 - overall b1 <= overall a2 - overall b2 ->
  team1_win_pct h1 <= team1_win_pct h2 ->
  base_win_probability a1 b1 h1 <= base_win_probability a2 b2 h2.
Proof.
  intros Hg Hp. unfold base_win_probability. simpl.
  change (inject_Z 50) with 50. change (inject_Z 1) with 1.
  change (inject_Z 3 / inject_Z 2) with (3 # 2).
  change (1 / inject_Z 10) with (1 # 10).
  lra.
Qed.

End ShareOrder.



(** X6.  Winning the toss never lowers a team's reported win probability
    (exact rationals): for the same match, toss decision and random draws,
    team 1's probability with team 1 as toss winner is at least its
    probability with any other toss winner, and team 2's is at most. *)
Theorem toss_never_hurts (self : MatchAnalyzer.t Q) (match_id : Z)
    (other toss_decision : string) (r : Rng)
    (wA wB : MatchAnalyzer.WinProbability Q) (rA rB : Rng) :
  MatchAnalyzer.calculate_win_probability
    self match_id "Team A" toss_decision r = Ok (wA, rA) ->
  MatchAnalyzer.calculate_win_probability
    self match_id other toss_decision r = Ok (wB, rB) ->
  (fst (MatchAnalyzer.win_prob wB) <= fst (MatchAnalyzer.win_prob wA))%Q
  /\ (snd (MatchAnalyzer.win_prob wA) <= snd (MatchAnalyzer.win_prob wB))%Q
  /\ rA = rB.
Proof.
  intros HA HB.
  apply win_probability_share in HA as (rowA & hA & HdA & _ & _ & HhA & HwA).
  apply win_probability_share in HB as (rowB & hB & HdB & _ & _ & HhB & HwB).
  rewrite HdA in HdB. inversion HdB as [Hd].
  assert (Hrows : Team1 rowA = Team1 rowB /\ Team2 rowA = Team2 rowB
                  /\ Venue rowA = Venue rowB).
  { apply (details_of_inj match_id). unfold details_of. congruence. }
  destruct Hrows as (E1 & E2 & E3). rewrite <- E1, <- E2 in HhB.
  rewrite HhA in HhB. inversion HhB; subst hB rB. clear HhB.
  rewrite <- E1, <- E2, <- E3 in HwB. cbv zeta in HwA, HwB.
  destruct HwA as [HA1 HA2], HwB as [HB1 HB2].
  set (b := MatchAnalyzer.base_win_probability
              (MatchAnalyzer.get_team_rating self (Team1 rowA))
              (MatchAnalyzer.get_team_rating self (Team2 rowA)) hA) in *.
  set (t := toss_bonus (MatchAnalyzer.get_venue_impact self (Venue rowA))
                       toss_decision) in *.
  assert (Hc : (fst (MatchAnalyzer.clamp (toss_share b t other))
                <= fst (MatchAnalyzer.clamp (toss_share b t "Team A")))%Q).
  { apply clamp_mono, toss_share_toss, toss_bonus_nonneg. }
  rewrite HA1, HA2, HB1, HB2.
  split; [|split; [|reflexivity]]; apply QFacts.round1_mono; lra.
Qed.

Lemma toss_never_hurts_witness :
  exists wA wB rA rB,
    MatchAnalyzer.calculate_win_probability
      (MatchAnalyzer.init (two_teams (54 : Q))) 1 "Team A" "Bowl"
      (constant_tape 0) = Ok (wA, rA)
    /\ MatchAnalyzer.calculate_win_probability
         (MatchAnalyzer.init (two_teams (54 : Q))) 1 "Team B" "Bowl"
         (constant_tape 0) = Ok (wB, rB)
    /\ (fst (MatchAnalyzer.win_prob wB) <= fst (MatchAnalyzer.win_prob wA))%Q.
Proof.
  eexists _, _, _, _.
  split; [vm_compute; reflexivity|].
  split; [vm_compute; reflexivity|].
  refine (proj1 (toss_never_hurts (MatchAnalyzer.init (two_teams (54 : Q))) 1
                   "Team B" "Bowl" (constant_tape 0) _ _ _ _ _ _)).
  - vm_compute. reflexivity.
  - vm_compute. reflexivity.
Defined.

(** X7.  A larger lead in overall rating never lowers the reported win
    probability (exact rationals): of two analyzers over the same schedule
    and venue profiles, the one in which team 1's lead over team 2 is at
    least as large reports at least as high a probability for team 1, and
    at most as high a one for team 2, for the same toss inputs and random
    draws. *)
Theorem stronger_rating_never_hurts (self1 self2 : MatchAnalyzer.t Q)
    (match_id : Z) (toss_winner toss_decision : string) (r : Rng)
    (w1 w2 : MatchAnalyzer.WinProbability Q) (r1 r2 : Rng) :
  MatchAnalyzer.schedule_df self1 = MatchAnalyzer.schedule_df self2 ->
  MatchAnalyzer.venue_stats self1 = MatchAnalyzer.venue_stats self2 ->
  (forall row,
      row ∈ MatchAnalyzer.schedule_df self1 -> Match_ID row = match_id ->
      (MatchAnalyzer.overall (MatchAnalyzer.get_team_rating self1 (Team1 row))
       - MatchAnalyzer.overall (MatchAnalyzer.get_team_rating self1 (Team2 row))
       <= MatchAnalyzer.overall (MatchAnalyzer.get_team_rating self2 (Team1 row))
          - MatchAnalyzer.overall
              (MatchAnalyzer.get_team_rating self2 (Team2 row)))%Q) ->
  MatchAnalyzer.calculate_win_probability
    self1 match_id toss_winner toss_decision r = Ok (w1, r1) ->
  MatchAnalyzer.calculate_win_probability
    self2 match_id toss_winner toss_decision r = Ok (w2, r2) ->
  (fst (MatchAnalyzer.win_prob w1) <= fst (MatchAnalyzer.win_prob w2))%Q
  /\ (snd (MatchAnalyzer.win_prob w2) <= snd (MatchAnalyzer.win_prob w1))%Q.
Proof.
  intros Hsched Hvenue Hgap H1 H2.
  apply win_probability_share in H1 as (row1 & h1 & Hd1 & Hrow1 & Hid1 & Hh1 & Hw1).
  apply win_probability_share in H2 as (row2 & h2 & Hd2 & _ & _ & Hh2 & Hw2).
  assert (Hd : MatchAnalyzer.get_match_details self2 match_id r
               = MatchAnalyzer.get_match_details self1 match_id r).
  { unfold MatchAnalyzer.get_match_details. rewrite Hsched. reflexivity. }
  rewrite Hd, Hd1 in Hd2. inversion Hd2 as [Hd'].
  assert (Hrows : Team1 row1 = Team1 row2 /\ Team2 row1 = Team2 row2
                  /\ Venue row1 = Venue row2).
  { apply (details_of_inj match_id). unfold details_of. congruence. }
  destruct Hrows as (E1 & E2 & E3).
  rewrite <- E1, <- E2 in Hh2. rewrite <- E1, <- E2, <- E3 in Hw2.
  specialize (Hgap row1 Hrow1 Hid1).
  rewrite head_to_head_exact in Hh1, Hh2.
  inversion Hh1; subst h1 r1. inversion Hh2; subst h2 r2. clear Hh1 Hh2.
  cbv zeta in Hw1, Hw2. destruct Hw1 as [HA1 HA2], Hw2 as [HB1 HB2].
  assert (Hvi : MatchAnalyzer.get_venue_impact self2 (Venue row1)
                = MatchAnalyzer.get_venue_impact self1 (Venue row1)).
  { unfold MatchAnalyzer.get_venue_impact. rewrite Hvenue. reflexivity. }
  rewrite Hvi in HB1, HB2.
  set (t := toss_bonus (MatchAnalyzer.get_venue_impact self1 (Venue row1))
                       toss_decision) in *.
  pose proof (Z.mod_pos_bound (tape r (pos r)) 8 ltac:(lia)) as Hm.
  match type of HA1 with
  | (_ == QNum.round1 (fst (MatchAnalyzer.clamp (toss_share ?b1 _ _))))%Q =>
      match type of HB1 with
      | (_ == QNum.round1 (fst (MatchAnalyzer.clamp (toss_share ?b2 _ _))))%Q =>
          assert (Hb : (b1 <= b2)%Q)
      end
  end.
  { apply base_win_probability_mono; [exact Hgap|].
    cbn [MatchAnalyzer.team1_win_pct].
    apply percent_mono; [|lia].
    apply trunc_mono.
    apply Qmult_le_l.
    - change 0%Q with (inject_Z 0). rewrite <- Zlt_Qlt. lia.
    - unfold Qdiv. change (/ 100)%Q with (1 # 100)%Q. lra. }
  match type of Hb with
  | (?b1 <= ?b2)%Q =>
      assert (Hc : (fst (MatchAnalyzer.clamp (toss_share b1 t toss_winner))
                    <= fst (MatchAnalyzer.clamp (toss_share b2 t toss_winner)))%Q)
        by (apply clamp_mono, toss_share_mono;
            [apply toss_bonus_nonneg | exact Hb])
  end.
  rewrite HA1, HA2, HB1, HB2.
  split; apply QFacts.round1_mono; lra.
Qed.

Lemma stronger_rating_never_hurts_witness :
  exists w1 w2 r1 r2,
    MatchAnalyzer.calculate_win_probability
      (MatchAnalyzer.init (two_teams (54 : Q))) 1 "Team B" "Bat"
      (constant_tape 0) = Ok (w1, r1)
    /\ MatchAnalyzer.calculate_win_probability
         (MatchAnalyzer.init (two_teams (57 : Q))) 1 "Team B" "Bat"
         (constant_tape 0) = Ok (w2, r2)
    /\ (fst (MatchAnalyzer.win_prob w1) <= fst (MatchAnalyzer.win_prob w2))%Q.
Proof.
  eexists _, _, _, _.
  split; [vm_compute; reflexivity|].
  split; [vm_compute; reflexivity|].
  refine (proj1 (stronger_rating_never_hurts
                   (MatchAnalyzer.init (two_teams (54 : Q)))
                   (MatchAnalyzer.init (two_teams (57 : Q)))
                   1 "Team B" "Bat" (constant_tape 0) _ _ _ _ _ _ _ _ _)).
  - reflexivity.
  - reflexivity.
  - intros row Hrow Hid.
    apply list_elem_of_In in Hrow. simpl in Hrow.
    destruct Hrow as [<-|[<-|[]]]; [vm_compute; discriminate|discriminate Hid].
  - vm_compute. reflexivity.
  - vm_compute. reflexivity.
Defined.

(** ** Player to watch *)

Lemma filter_split {A} (P : A -> Prop) `{!forall x, Decision (P x)}
    (l e1 e2 : list A) (p : A) :
  filter P l = e1 ++ p :: e2 ->
  exists l1 l2, l = l1 ++ p :: l2 /\ filter P l1 = e1 /\ filter P l2 = e2
                /\ P p.
Proof.
  revert e1. induction l as [|x l IH]; intros e1 E.
  - destruct e1; discriminate E.
  - rewrite filter_cons in E. destruct (decide (P x)) as [Hx|Hx].
    + destruct e1 as [|y e1]; simpl in E.
      * injection E as -> E'. exists [], l. rewrite filter_nil. auto.
      * injection E as -> E'.
        destruct (IH e1 E') as (l1 & l2 & -> & F1 & F2 & Hp).
        exists (y :: l1), l2. rewrite filter_cons, decide_True by exact Hx.
        rewrite F1. auto.
    + destruct (IH e1 E) as (l1 & l2 & -> & F1 & F2 & Hp).
      exists (x :: l1), l2. rewrite filter_cons, decide_False by exact Hx.
      auto.
Qed.

Section FirstBest.
Context {F : Type} (better : F -> F -> bool) (key : PlayerRow F -> F).

Lemma first_best_elem_of (row : PlayerRow F) (rows : list (PlayerRow F)) :
  MatchAnalyzer.first_best better key row rows ∈ row :: rows.
Proof.
  unfold MatchAnalyzer.first_best.
  revert row. induction rows as [|x rows IH]; intros row; simpl; [left|].
  destruct (better (key x) (key row)).
  - right. apply IH.
  - specialize (IH row). apply elem_of_cons in IH as [IH|IH].
    + rewrite IH. left.
    + right. right. exact IH.
Qed.

Hypothesis better_trans : forall a b c,
    better a b = true -> better b c = true -> better a c = true.
Hypothesis better_weak : forall a b c,
    better a b = true -> better c b = false -> better a c = true.

Lemma first_best_run (rows e1 e2 : list (PlayerRow F)) (best : PlayerRow F) :
  (forall q, q ∈ e1 -> better (key best) (key q) = true) ->
  (forall q, q ∈ e2 -> better (key q) (key best) = false) ->
  exists e1' e2',
    e1 ++ best :: e2 ++ rows
    = e1' ++ MatchAnalyzer.first_best better key best rows :: e2'
    /\ (forall q, q ∈ e1' ->
                  better (key (MatchAnalyzer.first_best better key best rows))
                         (key q) = true)
    /\ (forall q, q ∈ e2' ->
                  better (key q)
                         (key (MatchAnalyzer.first_best better key best rows))
                  = false).
Proof.
  unfold MatchAnalyzer.first_best.
  revert e1 e2 best. induction rows as [|x rows IH]; intros e1 e2 best H1 H2.
  - exists e1, e2. rewrite app_nil_r. auto.
  - simpl. destruct (better (key x) (key best)) eqn:Ex.
    + destruct (IH (e1 ++ best :: e2) [] x) as (e1' & e2' & E & G1 & G2).
      * intros q Hq. apply elem_of_app in Hq as [Hq|Hq].
        -- apply (better_trans _ (key best)); [exact Ex | apply H1, Hq].
        -- inversion Hq; subst; [exact Ex|].
           apply (better_weak _ (key best)); [exact Ex | apply H2; assumption].
      * intros q Hq. inversion Hq.
      * exists e1', e2'. split; [|auto].
        rewrite <- E. rewrite <- app_assoc. reflexivity.
    + destruct (IH e1 (e2 ++ [x]) best) as (e1' & e2' & E & G1 & G2).
      * exact H1.
      * intros q Hq. apply elem_of_app in Hq as [Hq|Hq]; [apply H2, Hq|].
        apply list_elem_of_singleton in Hq. subst. exact Ex.
      * exists e1', e2'. split; [|auto].
        rewrite <- E. rewrite <- app_assoc. reflexivity.
Qed.

Lemma first_best_spec (row : PlayerRow F) (rows : list (PlayerRow F)) :
  exists e1 e2,
    row :: rows = e1 ++ MatchAnalyzer.first_best better key row rows :: e2
    /\ (forall q, q ∈ e1 ->
                  better (key (MatchAnalyzer.first_best better key row rows))
                         (key q) = true)
    /\ (forall q, q ∈ e2 ->
                  better (key q)
                         (key (MatchAnalyzer.first_best better key row rows))
                  = false).
Proof.
  destruct (first_best_run rows [] [] row) as (e1 & e2 & E & G1 & G2).
  - intros q Hq. inversion Hq.
  - intros q Hq. inversion Hq.
  - exists e1, e2. auto.
Qed.
End FirstBest.

Section PlayerFacts.
Context `{PyNum F}.
Import MatchAnalyzer.

(** The batters and the bowlers that the three successive selections of
    [get_player_to_watch] leave. *)
Lemma batters_elem_of (self : t F) team_name (p : PlayerRow F) :
  p ∈ filter (fun p => fgtb (bat_avg_first p) (of_Z 0) = true)
        (filter (fun p => role p = "Batter" \/ role p = "All-rounder")
           (filter (fun p => team p = team_name) (player_stats_df self)))
  <-> p ∈ player_stats_df self /\ can_bat team_name p.
Proof.
  rewrite !list_elem_of_filter. unfold can_bat. tauto.
Qed.

Lemma bowlers_elem_of (self : t F) team_name (p : PlayerRow F) :
  p ∈ filter (fun p => fgtb (bowl_econ_first p) (of_Z 0) = true)
        (filter (fun p => role p = "Bowler" \/ role p = "All-rounder")
           (filter (fun p => team p = team_name) (player_stats_df self)))
  <-> p ∈ player_stats_df self /\ can_bowl team_name p.
Proof.
  rewrite !list_elem_of_filter. unfold can_bowl. tauto.
Qed.

Lemma selection_split (P1 P2 P3 : PlayerRow F -> Prop)
    `{!forall x, Decision (P1 x)} `{!forall x, Decision (P2 x)}
    `{!forall x, Decision (P3 x)}
    (l e1 e2 : list (PlayerRow F)) (p : PlayerRow F) :
  filter P3 (filter P2 (filter P1 l)) = e1 ++ p :: e2 ->
  exists l1 l2,
    l = l1 ++ p :: l2 /\ P1 p /\ P2 p /\ P3 p
    /\ (forall q, q ∈ l1 -> P1 q -> P2 q -> P3 q -> q ∈ e1)
    /\ (forall q, q ∈ l2 -> P1 q -> P2 q -> P3 q -> q ∈ e2).
Proof.
  intros E.
  apply filter_split in E as (m1 & m2 & E & <- & <- & Hp3).
  apply filter_split in E as (k1 & k2 & E & <- & <- & Hp2).
  apply filter_split in E as (l1 & l2 & -> & <- & <- & Hp1).
  exists l1, l2. split; [reflexivity|]. repeat (split; [assumption|]).
  split; intros q Hq Hq1 Hq2 Hq3; rewrite !list_elem_of_filter; auto.
Qed.

End PlayerFacts.

(** X8.  Over exact rationals the player to watch is the best of its kind.
    A batter that is named has the highest first-innings average among the
    team's eligible batters (role Batter or All-rounder, average above 0)
    and a strictly higher one than every eligible batter listed before it;
    a bowler that is named has the lowest economy among the team's
    eligible bowlers and a strictly lower one than every eligible bowler
    listed before it. *)
Theorem player_to_watch_is_best (self : MatchAnalyzer.t Q)
    (team_name venue_name : string) :
  (forall name avg sr,
      MatchAnalyzer.get_player_to_watch self team_name venue_name
      = MatchAnalyzer.BestBatter name avg sr ->
      exists before p after,
        MatchAnalyzer.player_stats_df self = before ++ p :: after
        /\ can_bat team_name p
        /\ player p = name /\ bat_avg_first p = avg /\ bat_sr_first p = sr
        /\ (forall q, q ∈ before -> can_bat team_name q ->
                      (bat_avg_first q < avg)%Q)
        /\ (forall q, q ∈ after -> can_bat team_name q ->
                      (bat_avg_first q <= avg)%Q))
  /\ (forall name econ,
         MatchAnalyzer.get_player_to_watch self team_name venue_name
         = MatchAnalyzer.BestBowler name econ ->
         exists before p after,
           MatchAnalyzer.player_stats_df self = before ++ p :: after
           /\ can_bowl team_name p
           /\ player p = name /\ bowl_econ_first p = econ
           /\ (forall q, q ∈ before -> can_bowl team_name q ->
                         (econ < bowl_econ_first q)%Q)
           /\ (forall q, q ∈ after -> can_bowl team_name q ->
                         (econ <= bowl_econ_first q)%Q)).
Proof.
  split.
  - intros name avg sr. unfold MatchAnalyzer.get_player_to_watch.
    destruct (filter (fun p => fgtb (bat_avg_first p) (of_Z 0) = true) _)
      as [|b bs] eqn:Eb.
    { destruct (filter (fun p => fgtb (bowl_econ_first p) (of_Z 0) = true) _);
        discriminate. }
    intros E. inversion E; subst name avg sr; clear E.
    destruct (first_best_spec (F:=Q) fgtb bat_avg_first) with (row := b) (rows := bs)
      as (e1 & e2 & Esplit & G1 & G2).
    { intros x y z Hxy Hyz. unfold fgtb in *. simpl in *.
      apply QFacts.ltb_lt in Hxy, Hyz. apply QFacts.ltb_lt. lra. }
    { intros x y z Hxy Hzy. unfold fgtb in *. simpl in *.
      apply QFacts.ltb_lt in Hxy. apply QFacts.ltb_ge in Hzy.
      apply QFacts.ltb_lt. lra. }
    rewrite Esplit in Eb.
    apply selection_split in Eb
      as (l1 & l2 & Hl & Hp1 & Hp2 & Hp3 & Hl1 & Hl2).
    exists l1, (MatchAnalyzer.first_best fgtb bat_avg_first b bs), l2.
    split; [exact Hl|]. split; [repeat split; assumption|].
    repeat (split; [reflexivity|]).
    split; intros q Hq (Hq1 & Hq2 & Hq3).
    + specialize (G1 q (Hl1 q Hq Hq1 Hq2 Hq3)).
      unfold fgtb in G1. simpl in G1. apply QFacts.ltb_lt in G1. exact G1.
    + specialize (G2 q (Hl2 q Hq Hq1 Hq2 Hq3)).
      unfold fgtb in G2. simpl in G2. apply QFacts.ltb_ge in G2. exact G2.
  - intros name econ. unfold MatchAnalyzer.get_player_to_watch.
    destruct (filter (fun p => fgtb (bat_avg_first p) (of_Z 0) = true) _)
      as [|b0 bs0]; [|discriminate].
    destruct (filter (fun p => fgtb (bowl_econ_first p) (of_Z 0) = true) _)
      as [|b bs] eqn:Eb; [discriminate|].
    intros E. inversion E; subst name econ; clear E.
    destruct (first_best_spec (F:=Q) fltb bowl_econ_first) with (row := b) (rows := bs)
      as (e1 & e2 & Esplit & G1 & G2).
    { intros x y z Hxy Hyz. simpl in *.
      apply QFacts.ltb_lt in Hxy, Hyz. apply QFacts.ltb_lt. lra. }
    { intros x y z Hxy Hzy. simpl in *.
      apply QFacts.ltb_lt in Hxy. apply QFacts.ltb_ge in Hzy.
      apply QFacts.ltb_lt. lra. }
    rewrite Esplit in Eb.
    apply selection_split in Eb
      as (l1 & l2 & Hl & Hp1 & Hp2 & Hp3 & Hl1 & Hl2).
    exists l1, (MatchAnalyzer.first_best fltb bowl_econ_first b bs), l2.
    split; [exact Hl|]. split; [repeat split; assumption|].
    repeat (split; [reflexivity|]).
    split; intros q Hq (Hq1 & Hq2 & Hq3).
    + specialize (G1 q (Hl1 q Hq Hq1 Hq2 Hq3)).
      simpl in G1. apply QFacts.ltb_lt in G1. exact G1.
    + specialize (G2 q (Hl2 q Hq Hq1 Hq2 Hq3)).
      simpl in G2. apply QFacts.ltb_ge in G2. exact G2.
Qed.

Lemma player_to_watch_is_best_witness :
  exists before p after,
    PLAYER_STATS_FILE (with_players (two_teams (54 : Q)) squad)
    = before ++ p :: after
    /\ player p = "S Curran" /\ can_bat "Oval Invincibles" p
    /\ (forall q, q ∈ after -> can_bat "Oval Invincibles" q ->
                  (bat_avg_first q <= 30)%Q).
Proof.
  assert (E : MatchAnalyzer.get_player_to_watch
                (MatchAnalyzer.init (with_players (two_teams (54 : Q)) squad))
                "Oval Invincibles" "Kennington Oval, London"
              = MatchAnalyzer.BestBatter "S Curran" 30%Q 140%Q)
    by (vm_compute; reflexivity).
  destruct (proj1 (player_to_watch_is_best _ _ _) _ _ _ E)
    as (before & p & after & Hl & Hp & Hname & Havg & Hsr & Hb & Ha).
  exists before, p, after. auto.
Defined.

(** X9.  For any number model, [get_player_to_watch] names a batter exactly
    when the team has an eligible batter; it names a bowler only when the
    team has no eligible batter, and that bowler is an eligible bowler of
    the team; it reports that no statistics are available exactly when the
    team has neither. *)
Theorem player_to_watch_fallback `{PyNum F} (self : MatchAnalyzer.t F)
    (team_name venue_name : string) :
  let note := MatchAnalyzer.get_player_to_watch self team_name venue_name in
  ((exists p, p ∈ MatchAnalyzer.player_stats_df self /\ can_bat team_name p)
   <-> exists p, p ∈ MatchAnalyzer.player_stats_df self /\ can_bat team_name p
                 /\ note = MatchAnalyzer.BestBatter
                             (player p) (bat_avg_first p) (bat_sr_first p))
  /\ (forall name econ,
         note = MatchAnalyzer.BestBowler name econ ->
         (forall p, p ∈ MatchAnalyzer.player_stats_df self ->
                    ~ can_bat team_name p)
         /\ exists p, p ∈ MatchAnalyzer.player_stats_df self
                      /\ can_bowl team_name p
                      /\ player p = name /\ bowl_econ_first p = econ)
  /\ (note = MatchAnalyzer.Unavailable
      <-> forall p, p ∈ MatchAnalyzer.player_stats_df self ->
                    ~ can_bat team_name p /\ ~ can_bowl team_name p).
Proof.
  cbv zeta. unfold MatchAnalyzer.get_player_to_watch.
  pose proof (batters_elem_of self team_name) as Hbat.
  pose proof (bowlers_elem_of self team_name) as Hbowl.
  destruct (filter (fun p => fgtb (bat_avg_first p) (of_Z 0) = true) _)
    as [|b bs].
  - assert (Hnone : forall p, p ∈ MatchAnalyzer.player_stats_df self ->
                              ~ can_bat team_name p).
    { intros p Hp Hc. assert (Hin : p ∈ @nil (PlayerRow F))
        by (apply Hbat; auto). inversion Hin. }
    destruct (filter (fun p => fgtb (bowl_econ_first p) (of_Z 0) = true) _)
      as [|c cs].
    + split; [|split].
      * split; [intros (p & Hp & Hc); exfalso; exact (Hnone p Hp Hc)
               |intros (p & Hp & Hc & _); eauto].
      * intros name econ E. discriminate E.
      * split; [|reflexivity]. intros _ p Hp. split; [apply Hnone, Hp|].
        intros Hc. assert (Hin : p ∈ @nil (PlayerRow F))
          by (apply Hbowl; auto). inversion Hin.
    + pose proof (first_best_elem_of fltb bowl_econ_first c cs) as Hbest.
      apply Hbowl in Hbest as [Hin Hcan].
      split; [|split].
      * split; [intros (p & Hp & Hc); exfalso; exact (Hnone p Hp Hc)
               |intros (p & Hp & Hc & _); eauto].
      * intros name econ E. inversion E; subst. split; [exact Hnone|].
        eexists. split; [exact Hin|]. split; [exact Hcan|].
        split; reflexivity.
      * split; [discriminate|]. intros Hall. exfalso.
        exact (proj2 (Hall _ Hin) Hcan).
  - pose proof (first_best_elem_of fgtb bat_avg_first b bs) as Hbest.
    apply Hbat in Hbest as [Hin Hcan].
    split; [|split].
    + split; [intros _|intros (p & Hp & Hc & _); eauto].
      eexists. split; [exact Hin|]. split; [exact Hcan|]. reflexivity.
    + intros name econ E. discriminate E.
    + split; [discriminate|]. intros Hall. exfalso.
      exact (proj1 (Hall _ Hin) Hcan).
Qed.

Lemma player_to_watch_fallback_witness :
  MatchAnalyzer.get_player_to_watch
    (MatchAnalyzer.init (two_teams (of_Z 54 : B64.t)))
    "Oval Invincibles" "Kennington Oval, London"
  = MatchAnalyzer.Unavailable.
Proof.
  apply (proj2 (proj2 (player_to_watch_fallback
                         (MatchAnalyzer.init (two_teams (of_Z 54 : B64.t)))
                         "Oval Invincibles" "Kennington Oval, London"))).
  intros p Hp. inversion Hp.
Defined.

(** ** A simulated match, call by call *)

Lemma advance_advance (r : Rng) (j k : nat) :
  advance (advance r j) k = advance r (k + j).
Proof. unfold advance. simpl. f_equal. lia. Qed.

Lemma advance_0 (r : Rng) : advance r 0 = r.
Proof. destruct r. reflexivity. Qed.

Lemma choice_run {A} (x y : A) r :
  choice x y r = Ok (if Z.even (tape r (pos r)) then x else y, advance r 1).
Proof. reflexivity. Qed.

Lemma random_run `{PyNum F} r :
  random r = Ok (unit_interval (tape r (pos r)), advance r 1).
Proof. reflexivity. Qed.

(** A loop whose body makes [k] draws makes [k] draws per element. *)
Lemma for_each_draws {A S} (k : nat) (body : S -> A -> M S) :
  (forall s x r s' r', body s x r = Ok (s', r') -> r' = advance r k) ->
  forall l s r s' r',
    for_each l body s r = Ok (s', r') -> r' = advance r (length l * k).
Proof.
  intros Hbody l. induction l as [|x l IH]; intros s r s' r' Hrun.
  - simpl in Hrun. inversion Hrun. symmetry. apply advance_0.
  - simpl in Hrun. apply bind_ok in Hrun as (s1 & r1 & H1 & H2).
    apply Hbody in H1 as ->. apply IH in H2 as ->.
    rewrite advance_advance. f_equal. simpl. lia.
Qed.

Section DrawFacts.
Context `{PyNum F}.
Import TournamentSimulator.

Lemma calculate_win_probability_draws (self : MatchAnalyzer.t F)
    match_id tw td r w r' :
  MatchAnalyzer.calculate_win_probability self match_id tw td r = Ok (w, r') ->
  r' = advance r 1.
Proof.
  intros Hok.
  apply calculate_win_probability_ok_inv in Hok
    as (row & h & n & _ & _ & _ & Hh & _).
  apply head_to_head_ok_inv in Hh as (_ & _ & ->). reflexivity.
Qed.

Lemma simulate_optimal_toss_decision_run (self : t F) venue_name r :
  exists d, simulate_optimal_toss_decision self venue_name r
            = Ok (d, advance r 1)
            /\ (d = "Bat" \/ d = "Bowl").
Proof.
  unfold simulate_optimal_toss_decision.
  destruct (filter _ _) as [|row rest].
  - rewrite choice_run. eexists. split; [reflexivity|].
    destruct (Z.even _); auto.
  - destruct (fgtb _ _); [|destruct (fltb _ _)].
    + rewrite (bind_of_ok _ _ _ _ _ (random_run r)). unfold ret.
      eexists. split; [reflexivity|]. destruct (fgtb _ _); auto.
    + rewrite (bind_of_ok _ _ _ _ _ (random_run r)). unfold ret.
      eexists. split; [reflexivity|]. destruct (fgtb _ _); auto.
    + rewrite choice_run. eexists. split; [reflexivity|].
      destruct (Z.even _); auto.
Qed.

(** A simulated match, step by step. *)
Lemma simulate_single_match_run (self : t F) (match_data : Fixture) r res r' :
  simulate_single_match self match_data r = Ok (res, r') ->
  r' = advance r 4
  /\ mr_toss_winner res
     = (if Z.even (tape r (pos r)) then "Team A" else "Team B")
  /\ simulate_optimal_toss_decision self (Venue match_data) (advance r 1)
     = Ok (mr_toss_decision res, advance r 2)
  /\ exists w,
      MatchAnalyzer.calculate_win_probability
        (analyzer self) (Match_ID match_data)
        (mr_toss_winner res) (mr_toss_decision res) (advance r 2)
      = Ok (w, advance r 3)
      /\ win_prob_team1 res = fst (MatchAnalyzer.win_prob w)
      /\ win_prob_team2 res = snd (MatchAnalyzer.win_prob w)
      /\ winner res
         = (if fltb (unit_interval (tape r (3 + pos r)%nat))
                    (fdiv (fst (MatchAnalyzer.win_prob w)) (of_Z 100))
            then Team1 match_data else Team2 match_data).
Proof.
  unfold simulate_single_match. intros E.
  rewrite (bind_of_ok _ _ _ _ _ (choice_run "Team A" "Team B" r)) in E.
  destruct (simulate_optimal_toss_decision_run self (Venue match_data)
              (advance r 1)) as (td & Etd & _).
  rewrite advance_advance in Etd. change (1 + 1)%nat with 2%nat in Etd.
  rewrite (bind_of_ok _ _ _ _ _ Etd) in E.
  apply bind_ok in E as (w & r3 & Hw & E).
  pose proof (calculate_win_probability_draws _ _ _ _ _ _ _ Hw) as ->.
  rewrite advance_advance in Hw, E. change (1 + 2)%nat with 3%nat in Hw, E.
  rewrite (bind_of_ok _ _ _ _ _ (random_run (advance r 3))) in E.
  rewrite advance_advance in E. change (1 + 3)%nat with 4%nat in E.
  change (tape (advance r 3) (pos (advance r 3)))
    with (tape r (3 + pos r)%nat) in E.
  destruct (fltb _ _) eqn:Eu; unfold ret in E; inversion E; subst; clear E;
    cbn [mr_toss_winner mr_toss_decision win_prob_team1 win_prob_team2 winner];
    (split; [reflexivity|]); (split; [reflexivity|]);
    (split; [exact Etd|]); exists w; rewrite Eu; auto.
Qed.

End DrawFacts.

(** X10.  A simulated match that returns has made exactly four calls to the
    random module, in this order: the toss winner (a fair choice), the
    toss decision for the fixture's venue, the head-to-head draw inside
    the win-probability query for the fixture's match id, and the number
    that decides the match.  Team 1 wins exactly when that number is below
    team 1's reported probability divided by 100. *)
Theorem single_match_step_by_step `{PyNum F}
    (self : TournamentSimulator.t F) (match_data : Fixture) (r : Rng)
    (res : TournamentSimulator.MatchResult F) (r' : Rng) :
  TournamentSimulator.simulate_single_match self match_data r = Ok (res, r') ->
  r' = advance r 4
  /\ TournamentSimulator.mr_toss_winner res
     = (if Z.even (tape r (pos r)) then "Team A" else "Team B")
  /\ TournamentSimulator.simulate_optimal_toss_decision
       self (Venue match_data) (advance r 1)
     = Ok (TournamentSimulator.mr_toss_decision res, advance r 2)
  /\ (TournamentSimulator.mr_toss_decision res = "Bat"
      \/ TournamentSimulator.mr_toss_decision res = "Bowl")
  /\ exists w,
      MatchAnalyzer.calculate_win_probability
        (TournamentSimulator.analyzer self) (Match_ID match_data)
        (TournamentSimulator.mr_toss_winner res)
        (TournamentSimulator.mr_toss_decision res) (advance r 2)
      = Ok (w, advance r 3)
      /\ TournamentSimulator.win_prob_team1 res
         = fst (MatchAnalyzer.win_prob w)
      /\ TournamentSimulator.win_prob_team2 res
         = snd (MatchAnalyzer.win_prob w)
      /\ TournamentSimulator.winner res
         = (if fltb (unit_interval (tape r (3 + pos r)%nat))
                    (fdiv (fst (MatchAnalyzer.win_prob w)) (of_Z 100))
            then Team1 match_data else Team2 match_data).
Proof.
  intros Hok.
  destruct (simulate_single_match_run _ _ _ _ _ Hok) as (Hr & Htw & Htd & Hw).
  repeat (split; [assumption|]).
  split; [|exact Hw].
  destruct (simulate_optimal_toss_decision_run self (Venue match_data)
              (advance r 1)) as (d & Ed & Hd).
  rewrite Ed in Htd. inversion Htd; subst. exact Hd.
Qed.

Lemma single_match_step_by_step_witness :
  exists res r',
    TournamentSimulator.simulate_single_match
      (TournamentSimulator.init (two_teams (of_Z 54 : B64.t)) 1)
      (fixture 1 "Oval Invincibles" "Welsh Fire" "Kennington Oval, London")
      (constant_tape 5) = Ok (res, r')
    /\ pos r' = 4%nat
    /\ TournamentSimulator.mr_toss_winner res = "Team B".
Proof.
  destruct (TournamentSimulator.simulate_single_match
              (TournamentSimulator.init (two_teams (of_Z 54 : B64.t)) 1)
              (fixture 1 "Oval Invincibles" "Welsh Fire"
                       "Kennington Oval, London")
              (constant_tape 5)) as [[res r']|e] eqn:E;
    [|vm_compute in E; discriminate E].
  destruct (single_match_step_by_step _ _ _ _ _ E) as (Hr & Htw & _).
  exists res, r'. split; [reflexivity|]. rewrite Hr, Htw.
  split; reflexivity.
Defined.

Section BudgetFacts.
Context `{PyNum F}.
Import TournamentSimulator.

Lemma play_fixture_draws (self : t F) acc match_data r acc' r' :
  play_fixture self acc match_data r = Ok (acc', r') -> r' = advance r 4.
Proof.
  unfold play_fixture. intros E.
  apply bind_ok in E as (res & r1 & Hres & E).
  apply simulate_single_match_run in Hres as (-> & _).
  apply bind_ok in E as (ts & r2 & Hts & E).
  apply update_team_stats_ok_inv in Hts as (-> & _).
  unfold ret in E. inversion E. reflexivity.
Qed.

Lemma simulate_group_stage_draws (self : t F) r gs r' :
  simulate_group_stage self r = Ok (gs, r') ->
  r' = advance r (4 * length (schedule_df self)).
Proof.
  unfold simulate_group_stage. intros E.
  apply bind_ok in E as (acc & r1 & Hloop & E).
  apply (for_each_draws 4) in Hloop; [|apply play_fixture_draws].
  apply bind_ok in E as (st & r2 & Hsort & E).
  apply sort_by_points_ok_inv in Hsort as (-> & _).
  unfold ret in E. inversion E; subst. f_equal. lia.
Qed.

Lemma standings_length (self : t F) r gs r' :
  simulate_group_stage self r = Ok (gs, r') ->
  length (standings gs) = length (initial_stats self).
Proof.
  intros Hok.
  apply simulate_group_stage_ok_inv in Hok as (ts & Hst & Hkeys & _).
  rewrite Hst, sort_desc_length, length_map.
  rewrite <- (length_map fst ts), Hkeys, length_map. reflexivity.
Qed.

Lemma simulate_playoffs_draws (self : t F) pt r w r' :
  simulate_playoffs self pt r = Ok (w, r') ->
  r' = advance r (if (length (top_3 pt) <? 3)%nat then 0 else 4).
Proof.
  unfold simulate_playoffs. destruct (length (top_3 pt) <? 3)%nat.
  - rewrite advance_0.
    destruct (top_3 pt); intros E; apply list_item_ok_inv in E as [-> _];
      reflexivity.
  - intros E.
    apply bind_ok in E as (t1 & r1 & H1 & E).
    apply list_item_ok_inv in H1 as [-> _].
    apply bind_ok in E as (t2 & r2 & H2 & E).
    apply list_item_ok_inv in H2 as [-> _].
    apply bind_ok in E as (res & r3 & Hres & E).
    apply simulate_single_match_run in Hres as (-> & _).
    unfold ret in E. inversion E. reflexivity.
Qed.

Lemma run_simulation_draws (self : t F) r sim r' :
  run_simulation self r = Ok (sim, r') ->
  r' = advance r (draws_per_run self).
Proof.
  unfold run_simulation. intros E.
  apply bind_ok in E as (gs & r1 & Hgs & E).
  pose proof (standings_length _ _ _ _ Hgs) as Hlen.
  apply simulate_group_stage_draws in Hgs as ->.
  apply bind_ok in E as (pt & r2 & Hpt & E).
  apply determine_playoffs_ok_inv in Hpt as (-> & _ & Htop).
  apply bind_ok in E as (w & r3 & Hw & E).
  apply simulate_playoffs_draws in Hw as ->.
  unfold ret in E. inversion E; subst. rewrite advance_advance.
  unfold draws_per_run. f_equal.
  rewrite Htop, length_map, length_take, sort_desc_length, Hlen.
  assert (Hb : (Nat.min 3 (length (initial_stats self)) <? 3)%nat
               = (length (initial_stats self) <? 3)%nat).
  { destruct (Nat.ltb_spec (length (initial_stats self)) 3);
      [apply Nat.ltb_lt | apply Nat.ltb_ge]; lia. }
  rewrite Hb. lia.
Qed.

Lemma simulation_step_draws (self : t F) acc i r acc' r' :
  simulation_step self acc i r = Ok (acc', r') ->
  r' = advance r (draws_per_run self).
Proof.
  unfold simulation_step. intros E.
  apply bind_ok in E as (sim & r1 & Hsim & E).
  apply run_simulation_draws in Hsim as ->.
  unfold ret in E. inversion E. reflexivity.
Qed.

Lemma analyze_results_state (self : t F) data r rows r' :
  analyze_results self data r = Ok (rows, r') -> r' = r.
Proof.
  unfold analyze_results. intros E.
  apply bind_ok in E as (analysis & r1 & Hloop & E).
  apply (for_each_draws 0) in Hloop.
  - rewrite Nat.mul_0_r, advance_0 in Hloop. subst r1.
    destruct analysis; unfold raise, ret in E; inversion E. reflexivity.
  - intros s x r0 s' r0' Hb.
    apply bind_ok in Hb as (q1 & r2 & H1 & Hb).
    apply bind_ok in Hb as (q2 & r3 & H2 & Hb).
    unfold py_int_div, raise, ret in H1, H2, Hb.
    destruct (num_simulations self =? 0); [discriminate|].
    inversion H1; inversion H2; inversion Hb; subst.
    symmetry. apply advance_0.
Qed.

End BudgetFacts.

(** X11.  How many calls to the random module are made.  A returning group
    stage makes four per fixture; a returning tournament run makes four
    more when three or more teams are ranked (the final); the Monte Carlo
    driver makes n times as many as one run; the analysis makes none.
    With distinct team names the ranked teams are the teams of the rating
    table. *)
Theorem random_draws_budget `{PyNum F} (self : TournamentSimulator.t F)
    (r r' : Rng) :
  (forall gs,
      TournamentSimulator.simulate_group_stage self r = Ok (gs, r') ->
      r' = advance r (4 * length (TournamentSimulator.schedule_df self)))
  /\ (forall sim,
         TournamentSimulator.run_simulation self r = Ok (sim, r') ->
         r' = advance r (draws_per_run self))
  /\ (forall data,
         TournamentSimulator.run_multiple_simulations self r = Ok (data, r') ->
         r' = advance r (Z.to_nat (TournamentSimulator.num_simulations self)
                         * draws_per_run self))
  /\ (forall data rows,
         TournamentSimulator.analyze_results self data r = Ok (rows, r') ->
         r' = r)
  /\ (NoDup (TournamentSimulator.teams self) ->
      length (initial_stats self) = length (TournamentSimulator.teams self)).
Proof.
  split; [|split; [|split; [|split]]].
  - intros gs. apply simulate_group_stage_draws.
  - intros sim. apply run_simulation_draws.
  - intros data Hok. unfold TournamentSimulator.run_multiple_simulations in Hok.
    apply (for_each_draws (draws_per_run self)) in Hok.
    + rewrite length_seq in Hok. exact Hok.
    + intros s x r0 s' r0'. apply simulation_step_draws.
  - intros data rows. apply analyze_results_state.
  - intros Hnd. rewrite <- (length_map fst (initial_stats self)).
    rewrite initial_stats_keys_NoDup by exact Hnd. reflexivity.
Qed.

Lemma random_draws_budget_witness :
  exists data r',
    TournamentSimulator.run_multiple_simulations
      (TournamentSimulator.init (two_teams (of_Z 54 : B64.t)) 3)
      (constant_tape 4) = Ok (data, r')
    /\ pos r' = 24%nat.
Proof.
  destruct (TournamentSimulator.run_multiple_simulations
              (TournamentSimulator.init (two_teams (of_Z 54 : B64.t)) 3)
              (constant_tape 4)) as [[data r']|e] eqn:E;
    [|vm_compute in E; discriminate E].
  exists data, r'. split; [reflexivity|].
  destruct (random_draws_budget
              (TournamentSimulator.init (two_teams (of_Z 54 : B64.t)) 3)
              (constant_tape 4) r') as (_ & _ & Hn & _).
  rewrite (Hn data E). reflexivity.
Defined.

Section SeatFacts.
Context `{PyNum F}.
Import TournamentSimulator.

Lemma simulate_single_match_same_id (self : t F) (md1 md2 : Fixture) r :
  Match_ID md1 = Match_ID md2 -> Venue md1 = Venue md2 ->
  match simulate_single_match self md1 r, simulate_single_match self md2 r with
  | Ok (res1, r1), Ok (res2, r2) => r1 = r2 /\ same_course md1 md2 res1 res2
  | Raise e1, Raise e2 => e1 = e2
  | _, _ => False
  end.
Proof.
  intros Hid Hv. unfold simulate_single_match, bind. rewrite Hid, Hv.
  destruct (choice "Team A" "Team B" r) as [[tw r1]|e]; [|reflexivity].
  destruct (simulate_optimal_toss_decision self (Venue md2) r1)
    as [[td r2]|e]; [|reflexivity].
  destruct (MatchAnalyzer.calculate_win_probability _ _ _ _ _)
    as [[w r3]|e]; [|reflexivity].
  destruct (random r3) as [[u r4]|e]; [|reflexivity].
  unfold same_course.
  destruct (fltb u _); unfold ret; simpl; auto 10.
Qed.

Lemma list_item_run {A} (l : list A) (i : nat) (x : A) r :
  l !! i = Some x -> list_item l i r = Ok (x, r).
Proof. unfold list_item. intros ->. reflexivity. Qed.

Lemma lookup_below {A} (l : list A) (i : nat) :
  (i < length l)%nat -> exists x, l !! i = Some x.
Proof. intros Hi. apply lookup_lt_is_Some_2 in Hi as [x Hx]. eauto. Qed.

End SeatFacts.

(** X12.  The odds of a simulated match depend on its match id and venue
    only: from the same random state, two fixtures with the same id and
    venue but different teams go the same way (same probabilities, same
    toss, the winner in the same position) or end with the same error.  In
    particular the final, which is played under the id 999 at Lord's, is
    decided the same way whoever the two finalists are: the same seat of
    top_3 wins. *)
Theorem match_odds_follow_the_match_id `{PyNum F}
    (self : TournamentSimulator.t F) (r : Rng) :
  (forall match_data1 match_data2,
      Match_ID match_data1 = Match_ID match_data2 ->
      Venue match_data1 = Venue match_data2 ->
      match TournamentSimulator.simulate_single_match self match_data1 r,
            TournamentSimulator.simulate_single_match self match_data2 r with
      | Ok (res1, r1), Ok (res2, r2) =>
          r1 = r2 /\ same_course match_data1 match_data2 res1 res2
      | Raise e1, Raise e2 => e1 = e2
      | _, _ => False
      end)
  /\ (forall playoff_teams1 playoff_teams2,
         (3 <= length (TournamentSimulator.top_3 playoff_teams1))%nat ->
         (3 <= length (TournamentSimulator.top_3 playoff_teams2))%nat ->
         match TournamentSimulator.simulate_playoffs self playoff_teams1 r,
               TournamentSimulator.simulate_playoffs self playoff_teams2 r with
         | Ok (champion1, r1), Ok (champion2, r2) =>
             r1 = r2
             /\ exists seat,
                 (seat = 0 \/ seat = 1)%nat
                 /\ TournamentSimulator.top_3 playoff_teams1 !! seat
                    = Some champion1
                 /\ TournamentSimulator.top_3 playoff_teams2 !! seat
                    = Some champion2
         | Raise e1, Raise e2 => e1 = e2
         | _, _ => False
         end).
Proof.
  split.
  - intros md1 md2. apply simulate_single_match_same_id.
  - intros pt1 pt2 H1 H2. unfold TournamentSimulator.simulate_playoffs.
    assert (Hb1 : (length (TournamentSimulator.top_3 pt1) <? 3)%nat = false)
      by (apply Nat.ltb_ge; exact H1).
    assert (Hb2 : (length (TournamentSimulator.top_3 pt2) <? 3)%nat = false)
      by (apply Nat.ltb_ge; exact H2).
    rewrite Hb1, Hb2.
    destruct (lookup_below (TournamentSimulator.top_3 pt1) 0 ltac:(lia))
      as (a1 & Ha1).
    destruct (lookup_below (TournamentSimulator.top_3 pt1) 1 ltac:(lia))
      as (b1 & Hb1').
    destruct (lookup_below (TournamentSimulator.top_3 pt2) 0 ltac:(lia))
      as (a2 & Ha2).
    destruct (lookup_below (TournamentSimulator.top_3 pt2) 1 ltac:(lia))
      as (b2 & Hb2').
    rewrite (bind_of_ok _ _ _ _ _ (list_item_run _ 0%nat a1 r Ha1)).
    rewrite (bind_of_ok _ _ _ _ _ (list_item_run _ 1%nat b1 r Hb1')).
    rewrite (bind_of_ok _ _ _ _ _ (list_item_run _ 0%nat a2 r Ha2)).
    rewrite (bind_of_ok _ _ _ _ _ (list_item_run _ 1%nat b2 r Hb2')).
    unfold bind.
    pose proof (simulate_single_match_same_id self
                  {| Match_ID := 999; Team1 := a1; Team2 := b1;
                     Venue := "Lord's, London"; Date := ""; Time' := "" |}
                  {| Match_ID := 999; Team1 := a2; Team2 := b2;
                     Venue := "Lord's, London"; Date := ""; Time' := "" |}
                  r eq_refl eq_refl) as Hsame.
    destruct (TournamentSimulator.simulate_single_match self
                {| Match_ID := 999; Team1 := a1; Team2 := b1;
                   Venue := "Lord's, London"; Date := ""; Time' := "" |} r)
      as [[res1 r1]|e1];
      destruct (TournamentSimulator.simulate_single_match self
                  {| Match_ID := 999; Team1 := a2; Team2 := b2;
                     Venue := "Lord's, London"; Date := ""; Time' := "" |} r)
        as [[res2 r2]|e2]; try contradiction; try exact Hsame.
    destruct Hsame as (-> & _ & _ & _ & _ & Hseat). unfold ret.
    split; [reflexivity|]. simpl in Hseat.
    destruct Hseat as [[-> ->]|[-> ->]]; [exists 0%nat | exists 1%nat]; auto.
Qed.

Lemma match_odds_follow_the_match_id_witness :
  exists res1 res2 r1 r2,
    TournamentSimulator.simulate_single_match
      (TournamentSimulator.init (two_teams (of_Z 54 : B64.t)) 1)
      (fixture 1 "Oval Invincibles" "Welsh Fire" "Kennington Oval, London")
      (constant_tape 5) = Ok (res1, r1)
    /\ TournamentSimulator.simulate_single_match
         (TournamentSimulator.init (two_teams (of_Z 54 : B64.t)) 1)
         (fixture 1 "Trent Rockets" "London Spirit" "Kennington Oval, London")
         (constant_tape 5) = Ok (res2, r2)
    /\ TournamentSimulator.win_prob_team1 res1
       = TournamentSimulator.win_prob_team1 res2.
Proof.
  pose proof (proj1 (match_odds_follow_the_match_id
                       (TournamentSimulator.init (two_teams (of_Z 54 : B64.t)) 1)
                       (constant_tape 5))
                (fixture 1 "Oval Invincibles" "Welsh Fire"
                         "Kennington Oval, London")
                (fixture 1 "Trent Rockets" "London Spirit"
                         "Kennington Oval, London")
                eq_refl eq_refl) as Hs.
  destruct (TournamentSimulator.simulate_single_match
              (TournamentSimulator.init (two_teams (of_Z 54 : B64.t)) 1)
              (fixture 1 "Oval Invincibles" "Welsh Fire"
                       "Kennington Oval, London")
              (constant_tape 5)) as [[res1 r1]|e1] eqn:E1;
    [|vm_compute in E1; discriminate E1].
  destruct (TournamentSimulator.simulate_single_match
              (TournamentSimulator.init (two_teams (of_Z 54 : B64.t)) 1)
              (fixture 1 "Trent Rockets" "London Spirit"
                       "Kennington Oval, London")
              (constant_tape 5)) as [[res2 r2]|e2]; [|contradiction].
  destruct Hs as (-> & Hp & _). exists res1, res2, r2, r2. auto.
Defined.

(** ** Playoff places and the champion *)

Section SortedZ.
Context {A : Type} (key : A -> Z).

Lemma insert_desc_sorted_Z (x : A) (l : list A) :
  StronglySorted (descending_Z key) l ->
  StronglySorted (descending_Z key) (insert_desc Z.ltb key x l).
Proof.
  induction 1 as [|y l Hl IH Hy]; simpl.
  - constructor; constructor.
  - destruct (Z.ltb_spec (key x) (key y)) as [E|E].
    + constructor; [exact IH|].
      apply Forall_forall. intros z Hz.
      rewrite (insert_desc_perm Z.ltb key) in Hz.
      apply elem_of_cons in Hz as [->|Hz].
      * unfold descending_Z. lia.
      * rewrite Forall_forall in Hy. apply Hy. assumption.
    + constructor; [constructor; assumption|].
      constructor; [exact E|].
      eapply Forall_impl; [exact Hy|].
      intros z Hz. unfold descending_Z in *. lia.
Qed.

Lemma sort_desc_sorted_Z (l : list A) :
  StronglySorted (descending_Z key) (sort_desc Z.ltb key l).
Proof.
  induction l as [|x l IH]; simpl; [constructor|].
  apply insert_desc_sorted_Z, IH.
Qed.

(** Sorting a list that is already in descending order changes nothing. *)
Lemma sort_desc_sorted_id (l : list A) :
  StronglySorted (descending_Z key) l -> sort_desc Z.ltb key l = l.
Proof.
  induction 1 as [|x l Hl IH Hx]; simpl; [reflexivity|].
  rewrite IH. destruct l as [|y l]; simpl; [reflexivity|].
  inversion Hx as [|? ? Hy _]; subst. unfold descending_Z in Hy.
  destruct (Z.ltb_spec (key x) (key y)); [lia | reflexivity].
Qed.

Lemma sorted_app_elem_of (R : A -> A -> Prop) (l1 l2 : list A) (x1 x2 : A) :
  StronglySorted R (l1 ++ l2) -> x1 ∈ l1 -> x2 ∈ l2 -> R x1 x2.
Proof.
  induction l1 as [|y l1 IH]; simpl; intros Hs H1 H2; [inversion H1|].
  inversion Hs as [|? ? Hs' Hy]; subst.
  apply elem_of_cons in H1 as [->|H1].
  - rewrite Forall_forall in Hy. apply Hy. apply elem_of_app. auto.
  - apply IH; assumption.
Qed.
End SortedZ.

Section PlacesFacts.
Context `{PyNum F}.
Import TournamentSimulator.

(** In a ranking with distinct team names, a row whose team is among the
    first [k] has at least the points of a row whose team is not. *)
Lemma ranked_prefix_dominates (ranked : list StandingsRow) (k : nat)
    (a b : StandingsRow) :
  StronglySorted (descending_Z st_points) ranked ->
  NoDup (map st_team ranked) ->
  a ∈ ranked -> b ∈ ranked ->
  st_team a ∈ map st_team (take k ranked) ->
  st_team b ∉ map st_team (take k ranked) ->
  st_points b <= st_points a.
Proof.
  intros Hs Hnd Ha Hb Hin Hout.
  rewrite <- (take_drop k ranked) in Hs, Hnd, Ha, Hb.
  rewrite map_app in Hnd. apply NoDup_app in Hnd as (_ & Hdisj & _).
  apply elem_of_app in Ha as [Ha|Ha].
  - apply elem_of_app in Hb as [Hb|Hb].
    + exfalso. apply Hout. apply list_elem_of_fmap_2. exact Hb.
    + exact (sorted_app_elem_of _ _ _ _ _ Hs Ha Hb).
  - exfalso. apply (Hdisj _ Hin). apply list_elem_of_fmap_2. exact Ha.
Qed.

Lemma determine_playoffs_run (df : list StandingsRow) r :
  df <> [] ->
  determine_playoffs df r
  = Ok ({| top_3 := map st_team (take 3 (sort_desc Z.ltb st_points df));
           eliminator :=
             if (5 <=? length df)%nat
             then map st_team (take 2 (drop 3 (sort_desc Z.ltb st_points df)))
             else [];
           final_4 :=
             map st_team
                 (take (if (5 <=? length df)%nat then 4 else 3)
                       (sort_desc Z.ltb st_points df)) |}, r).
Proof.
  intros Hne. unfold determine_playoffs, sort_by_points.
  destruct df as [|row df]; [congruence|].
  unfold bind, ret. rewrite sort_desc_length.
  generalize (sort_desc_length Z.ltb st_points (row :: df)).
  generalize (sort_desc Z.ltb st_points (row :: df)).
  intros ranked Hlen.
  destruct (Nat.leb_spec 5 (length (row :: df))) as [H5|H5];
    [|reflexivity].
  destruct ranked as [|r1 [|r2 [|r3 [|r4 [|r5 rest]]]]];
    try reflexivity; simpl in Hlen, H5; lia.
Qed.

End PlacesFacts.

(** X13.  Playoff places follow the points.  When [determine_playoffs]
    returns it has made no call to the random module, and for some ranking
    of the standings rows in descending points order top_3 is its first
    three teams, the eliminator its fourth and fifth when there are five
    rows or more (empty otherwise), and final_4 its first four (its first
    three without an eliminator).  With distinct team names no team left
    out of top_3, or of final_4, has more points than a team in it. *)
Theorem playoff_places_follow_points
    (standings_df : list TournamentSimulator.StandingsRow) (r : Rng)
    (playoff_teams : TournamentSimulator.PlayoffTeams) (r' : Rng) :
  TournamentSimulator.determine_playoffs standings_df r
  = Ok (playoff_teams, r') ->
  r' = r
  /\ exists ranked,
      ranked ≡ₚ standings_df
      /\ StronglySorted (descending_Z TournamentSimulator.st_points) ranked
      /\ TournamentSimulator.top_3 playoff_teams
         = map TournamentSimulator.st_team (take 3 ranked)
      /\ TournamentSimulator.eliminator playoff_teams
         = (if (5 <=? length standings_df)%nat
            then map TournamentSimulator.st_team (take 2 (drop 3 ranked))
            else [])
      /\ TournamentSimulator.final_4 playoff_teams
         = map TournamentSimulator.st_team
               (take (if (5 <=? length standings_df)%nat then 4 else 3) ranked)
      /\ (NoDup (map TournamentSimulator.st_team standings_df) ->
          forall a b,
            a ∈ standings_df -> b ∈ standings_df ->
            (TournamentSimulator.st_team a
               ∈ TournamentSimulator.top_3 playoff_teams ->
             TournamentSimulator.st_team b
               ∉ TournamentSimulator.top_3 playoff_teams ->
             TournamentSimulator.st_points b <= TournamentSimulator.st_points a)
            /\ (TournamentSimulator.st_team a
                  ∈ TournamentSimulator.final_4 playoff_teams ->
                TournamentSimulator.st_team b
                  ∉ TournamentSimulator.final_4 playoff_teams ->
                TournamentSimulator.st_points b
                <= TournamentSimulator.st_points a)).
Proof.
  intros Hok.
  pose proof (determine_playoffs_ok_inv _ _ _ _ Hok) as (-> & Hne & _).
  rewrite (determine_playoffs_run _ _ Hne) in Hok.
  inversion Hok; subst playoff_teams; clear Hok.
  split; [reflexivity|].
  exists (sort_desc Z.ltb TournamentSimulator.st_points standings_df).
  cbn [TournamentSimulator.top_3 TournamentSimulator.eliminator
       TournamentSimulator.final_4].
  split; [apply sort_desc_perm|].
  split; [apply sort_desc_sorted_Z|].
  repeat (split; [reflexivity|]).
  intros Hnd a b Ha Hb.
  assert (Hnd' : NoDup (map TournamentSimulator.st_team
                          (sort_desc Z.ltb TournamentSimulator.st_points
                                     standings_df))).
  { rewrite (Permutation_map TournamentSimulator.st_team
               (sort_desc_perm Z.ltb TournamentSimulator.st_points
                               standings_df)).
    exact Hnd. }
  apply (sort_desc_elem_of Z.ltb TournamentSimulator.st_points) in Ha, Hb.
  split; apply ranked_prefix_dominates;
    try assumption; apply sort_desc_sorted_Z.
Qed.

Lemma playoff_places_follow_points_witness :
  exists playoff_teams,
    TournamentSimulator.determine_playoffs five_team_table (constant_tape 0)
    = Ok (playoff_teams, constant_tape 0)
    /\ TournamentSimulator.top_3 playoff_teams
       = ["Oval Invincibles"; "Trent Rockets"; "London Spirit"].
Proof.
  destruct (TournamentSimulator.determine_playoffs five_team_table
              (constant_tape 0)) as [[pt r']|e] eqn:E;
    [|vm_compute in E; discriminate E].
  destruct (playoff_places_follow_points _ _ _ _ E) as (-> & _).
  exists pt. split; [reflexivity|].
  vm_compute in E. inversion E. reflexivity.
Defined.

Section RunPlaces.
Context `{PyNum F}.
Import TournamentSimulator.

Lemma standings_sorted (self : t F) r gs r' :
  simulate_group_stage self r = Ok (gs, r') ->
  StronglySorted (descending_Z st_points) (standings gs)
  /\ standings gs <> []
  /\ NoDup (map st_team (standings gs)).
Proof.
  intros Hok.
  apply simulate_group_stage_ok_inv in Hok as (ts & Hst & Hk & Hne & _).
  rewrite Hst. split; [apply sort_desc_sorted_Z|]. split.
  - intros E. apply sort_desc_nil_inv in E. destruct ts; [congruence|].
    discriminate E.
  - rewrite (Permutation_map st_team (sort_desc_perm Z.ltb st_points _)).
    rewrite standings_teams, Hk. apply dict_of_keys_NoDup. constructor.
Qed.

Lemma simulate_playoffs_top_two (self : t F) pt r w r' :
  simulate_playoffs self pt r = Ok (w, r') ->
  top_3 pt <> [] ->
  w ∈ take 2 (top_3 pt)
  /\ ((length (top_3 pt) < 3)%nat -> top_3 pt !! 0%nat = Some w).
Proof.
  unfold simulate_playoffs. intros E Hne.
  destruct (Nat.ltb_spec (length (top_3 pt)) 3) as [Hlt|Hge].
  - destruct (top_3 pt) as [|a l] eqn:Et; [congruence|].
    apply list_item_ok_inv in E as [_ E]. simpl in E. inversion E; subst.
    split; [left | reflexivity].
  - apply bind_ok in E as (t1 & r1 & H1 & E).
    apply list_item_ok_inv in H1 as [-> H1].
    apply bind_ok in E as (t2 & r2 & H2 & E).
    apply list_item_ok_inv in H2 as [-> H2].
    apply bind_ok in E as (res & r3 & Hres & E).
    apply simulate_single_match_ok_inv in Hres as (_ & _ & _ & _ & Hwl & _).
    unfold ret in E. inversion E; subst. simpl in Hwl.
    split; [|lia].
    destruct (top_3 pt) as [|a [|b l]]; simpl in H1, H2; try discriminate.
    inversion H1; inversion H2; subst. simpl.
    destruct Hwl as [[-> _]|[-> _]]; [left | right; left].
Qed.

(** The places of a run, read off its standings.  Ranking the sorted
    standings again leaves them as they are under the stable order taken
    here; the theorems built on this lemma speak of [top_3] and of points
    only and hold for any order among teams level on points. *)
Lemma run_simulation_places (self : t F) r sim r' :
  run_simulation self r = Ok (sim, r') ->
  StronglySorted (descending_Z st_points) (sim_standings sim)
  /\ sim_standings sim <> []
  /\ NoDup (map st_team (sim_standings sim))
  /\ length (sim_standings sim) = length (initial_stats self)
  /\ top_3 (sim_playoff_teams sim) = map st_team (take 3 (sim_standings sim))
  /\ eliminator (sim_playoff_teams sim)
     = (if (5 <=? length (sim_standings sim))%nat
        then map st_team (take 2 (drop 3 (sim_standings sim))) else [])
  /\ final_4 (sim_playoff_teams sim)
     = map st_team
           (take (if (5 <=? length (sim_standings sim))%nat then 4 else 3)
                 (sim_standings sim))
  /\ sim_winner sim ∈ map st_team (take 2 (sim_standings sim))
  /\ ((length (sim_standings sim) < 3)%nat ->
      map st_team (sim_standings sim) !! 0%nat = Some (sim_winner sim)).
Proof.
  unfold run_simulation. intros E.
  apply bind_ok in E as (gs & r1 & Hgs & E).
  pose proof (standings_length _ _ _ _ Hgs) as Hlen.
  destruct (standings_sorted _ _ _ _ Hgs) as (Hsorted & Hne & Hnd).
  rewrite (bind_of_ok _ _ _ _ _ (determine_playoffs_run _ r1 Hne)) in E.
  rewrite (sort_desc_sorted_id _ _ Hsorted) in E.
  apply bind_ok in E as (w & r3 & Hw & E).
  unfold ret in E. inversion E; subst sim r'; clear E.
  cbn [sim_winner sim_playoff_teams sim_standings top_3 eliminator final_4].
  repeat (split; [assumption || reflexivity|]).
  apply simulate_playoffs_top_two in Hw as [Hin Hfirst].
  - cbn [top_3] in Hin, Hfirst. split.
    + rewrite <- fmap_take, take_take in Hin. exact Hin.
    + intros Hlt. rewrite length_map, length_take in Hfirst.
      specialize (Hfirst ltac:(lia)).
      rewrite take_ge in Hfirst by lia. exact Hfirst.
  - cbn [top_3]. destruct (standings gs); [congruence | discriminate].
Qed.

End RunPlaces.

(** X14.  In a tournament run that returns, the standings are in descending
    points order and the champion is the first or the second team of
    top_3, never the third one or an eliminator team; every team outside
    these two has at most the champion's points.  With fewer than three
    ranked teams the champion is the first team of top_3 and no final is
    simulated. *)
Theorem champion_is_one_of_the_top_two `{PyNum F}
    (self : TournamentSimulator.t F) (r : Rng)
    (sim : TournamentSimulator.Simulation F) (r' : Rng) :
  TournamentSimulator.run_simulation self r = Ok (sim, r') ->
  let table := TournamentSimulator.sim_standings sim in
  let places := TournamentSimulator.sim_playoff_teams sim in
  let champion := TournamentSimulator.sim_winner sim in
  StronglySorted (descending_Z TournamentSimulator.st_points) table
  /\ champion ∈ take 2 (TournamentSimulator.top_3 places)
  /\ ((length table < 3)%nat ->
      TournamentSimulator.top_3 places !! 0%nat = Some champion
      /\ r' = advance r (4 * length (TournamentSimulator.schedule_df self)))
  /\ (forall a b,
         a ∈ table -> b ∈ table ->
         TournamentSimulator.st_team a = champion ->
         TournamentSimulator.st_team b
           ∉ take 2 (TournamentSimulator.top_3 places) ->
         TournamentSimulator.st_points b <= TournamentSimulator.st_points a).
Proof.
  intros Hok. cbv zeta.
  destruct (run_simulation_places _ _ _ _ Hok)
    as (Hs & _ & Hnd & Hlen & Ht & _ & _ & Hw & Hsmall).
  assert (Htwo : take 2 (TournamentSimulator.top_3
                           (TournamentSimulator.sim_playoff_teams sim))
                 = map TournamentSimulator.st_team
                       (take 2 (TournamentSimulator.sim_standings sim))).
  { rewrite Ht, <- fmap_take, take_take. reflexivity. }
  split; [exact Hs|]. split; [rewrite Htwo; exact Hw|]. split.
  - intros Hlt. split.
    + rewrite Ht, take_ge by lia. apply Hsmall, Hlt.
    + rewrite (run_simulation_draws _ _ _ _ Hok). unfold draws_per_run.
      rewrite <- Hlen.
      assert (Hb : (length (TournamentSimulator.sim_standings sim) <? 3)%nat
                   = true) by (apply Nat.ltb_lt; exact Hlt).
      rewrite Hb. f_equal. lia.
  - intros a b Ha Hb Hchamp Hout. rewrite Htwo in Hout.
    apply (ranked_prefix_dominates _ 2 a b Hs Hnd Ha Hb); [|exact Hout].
    rewrite Hchamp. exact Hw.
Qed.

Lemma champion_is_one_of_the_top_two_witness :
  exists sim r',
    TournamentSimulator.run_simulation
      (TournamentSimulator.init (two_teams (of_Z 54 : B64.t)) 1)
      (constant_tape 4) = Ok (sim, r')
    /\ TournamentSimulator.sim_winner sim
       ∈ take 2 (TournamentSimulator.top_3
                   (TournamentSimulator.sim_playoff_teams sim)).
Proof.
  destruct (TournamentSimulator.run_simulation
              (TournamentSimulator.init (two_teams (of_Z 54 : B64.t)) 1)
              (constant_tape 4)) as [[sim r']|e] eqn:E;
    [|vm_compute in E; discriminate E].
  exists sim, r'. split; [reflexivity|].
  destruct (champion_is_one_of_the_top_two _ _ _ _ E) as (_ & Hw & _).
  exact Hw.
Defined.

(** ** When the tournament pipeline returns *)

Lemma dict_set_length {V} (k : string) (v : V) (d : list (string * V)) :
  (length (dict_set k v d) <= S (length d))%nat.
Proof.
  induction d as [|[k' v'] d IH]; simpl; [lia|].
  destruct (String.eqb k k'); simpl; lia.
Qed.

Lemma dict_of_keys_length {V} (l : list string) (v : V) (d : list (string * V)) :
  (length (foldl (fun d k => dict_set k v d) d l) <= length d + length l)%nat.
Proof.
  revert d. induction l as [|k l IH]; intros d; simpl; [lia|].
  specialize (IH (dict_set k v d)).
  pose proof (dict_set_length k v d). lia.
Qed.

Section AnalysisTotal.
Context `{PyNum F}.
Import TournamentSimulator.

(** With a non-zero number of runs the loop of [analyze_results] adds one
    row per team and never raises. *)
Lemma analysis_loop_total (self : t F) (data : SimulationData F)
    (l : list string) (acc : list (AnalysisRow F)) r :
  num_simulations self <> 0 ->
  exists rows,
    for_each l
      (fun analysis team_name =>
         let titles := default 0 (Counter (winners data) !! team_name) in
         let played := default 0 (playoff_appearances data !! team_name) in
         let! q := py_int_div titles (num_simulations self) in
         let win_probability := fmul q (of_Z 100) in
         let! q := py_int_div played (num_simulations self) in
         let playoff_probability := fmul q (of_Z 100) in
         ret (analysis ++
              [{| ar_Team := team_name;
                  Win_Probability := fround1 win_probability;
                  Playoff_Probability := fround1 playoff_probability;
                  Titles_Won := titles;
                  Playoff_Appearances := played |}]))
      acc r
    = Ok (acc ++ rows, r)
    /\ length rows = length l.
Proof.
  intros Hn. apply Z.eqb_neq in Hn.
  revert acc. induction l as [|x l IH]; intros acc.
  - exists []. rewrite app_nil_r. split; reflexivity.
  - simpl. unfold py_int_div. rewrite Hn. unfold bind at 1 2 3, ret at 1 2 3.
    destruct (IH (acc ++
                  [{| ar_Team := x;
                      Win_Probability :=
                        fround1
                          (fmul (fdiv (of_Z (default 0
                                               (Counter (winners data) !! x)))
                                      (of_Z (num_simulations self)))
                                (of_Z 100));
                      Playoff_Probability :=
                        fround1
                          (fmul (fdiv (of_Z (default 0
                                               (playoff_appearances data !! x)))
                                      (of_Z (num_simulations self)))
                                (of_Z 100));
                      Titles_Won := default 0 (Counter (winners data) !! x);
                      Playoff_Appearances :=
                        default 0 (playoff_appearances data !! x) |}]))
      as (rows & E & Hlen).
    unfold py_int_div in E. rewrite Hn in E. rewrite E.
    eexists (_ :: rows). rewrite <- app_assoc. split; [reflexivity|].
    simpl. lia.
Qed.

Lemma analyze_results_total (self : t F) (data : SimulationData F) r :
  num_simulations self <> 0 -> teams self <> [] ->
  exists rows, analyze_results self data r = Ok (rows, r).
Proof.
  intros Hn Ht. unfold analyze_results.
  destruct (analysis_loop_total self data (teams self) [] r Hn)
    as (rows & E & Hlen).
  rewrite (bind_of_ok _ _ _ _ _ E). simpl.
  destruct rows as [|row rows].
  - destruct (teams self); [congruence | discriminate Hlen].
  - unfold ret. eauto.
Qed.
End AnalysisTotal.

Section PipelineTotal.
Import TournamentSimulator.

Lemma simulate_playoffs_total (csv : Files Q) (n : Z) pt r :
  bowling_defined csv ->
  top_3 pt <> [] ->
  (length (top_3 pt) < 3)%nat \/ 999 ∈ map Match_ID (SCHEDULE_FILE csv) ->
  exists w r', simulate_playoffs (init csv n) pt r = Ok (w, r').
Proof.
  intros Hwf Hne Hcase. unfold simulate_playoffs.
  destruct (Nat.ltb_spec (length (top_3 pt)) 3) as [Hlt|Hge].
  - destruct (top_3 pt) as [|a l]; [congruence|].
    unfold list_item. simpl. unfold ret. eauto.
  - destruct Hcase as [Hlt|H999]; [lia|].
    destruct (top_3 pt) as [|a [|b l]]; simpl in Hge; try lia.
    unfold list_item. simpl. unfold bind at 1 2, ret at 1 2.
    destruct (simulate_single_match_total csv n
                {| Match_ID := 999; Team1 := a; Team2 := b;
                   Venue := "Lord's, London"; Date := ""; Time' := "" |} r
                H999 Hwf) as (res & r1 & E).
    rewrite (bind_of_ok _ _ _ _ _ E). unfold ret. eauto.
Qed.

Lemma run_simulation_total (csv : Files Q) (n : Z) r :
  TEAM_RATINGS_FILE csv <> [] ->
  bowling_defined csv ->
  Forall (fun m => Team1 m ∈ map Team (TEAM_RATINGS_FILE csv)
                   /\ Team2 m ∈ map Team (TEAM_RATINGS_FILE csv))
         (SCHEDULE_FILE csv) ->
  (length (TEAM_RATINGS_FILE csv) < 3)%nat
  \/ 999 ∈ map Match_ID (SCHEDULE_FILE csv) ->
  exists sim r', run_simulation (init csv n) r = Ok (sim, r').
Proof.
  intros Hne Hwf Hrated Hcase. unfold run_simulation.
  destruct (simulate_group_stage_total csv n r Hne Hwf Hrated)
    as (gs & r1 & Egs).
  rewrite (bind_of_ok _ _ _ _ _ Egs).
  pose proof (standings_length _ _ _ _ Egs) as Hlen.
  destruct (standings_sorted _ _ _ _ Egs) as (_ & Hgne & _).
  rewrite (bind_of_ok _ _ _ _ _ (determine_playoffs_run _ r1 Hgne)).
  match goal with
  | |- context [bind (simulate_playoffs _ ?pt)] =>
      destruct (simulate_playoffs_total csv n pt r1 Hwf) as (w & r2 & Ew)
  end.
  - cbn [top_3]. rewrite sort_desc_length || idtac.
    intros E. apply (f_equal length) in E.
    rewrite length_map, length_take, sort_desc_length in E.
    destruct (standings gs); [congruence | simpl in E; lia].
  - destruct Hcase as [Hsmall|H999]; [left | right; exact H999].
    cbn [top_3]. rewrite length_map, length_take, sort_desc_length, Hlen.
    pose proof (dict_of_keys_length (teams (init csv n))
                  {| wins := 0; losses := 0; points := 0 |} []) as Hk.
    fold (initial_stats (init csv n)) in Hk.
    cbn [teams init] in Hk. rewrite length_map in Hk. simpl in Hk. lia.
  - rewrite (bind_of_ok _ _ _ _ _ Ew). unfold ret. eauto.
Qed.

End PipelineTotal.



(** ** Standings team by team *)

Section DictLookup.
Context {V : Type}.

Lemma dict_get_elem_of (d : list (string * V)) k v :
  NoDup (map fst d) -> (k, v) ∈ d -> dict_get k d = Some v.
Proof.
  induction d as [|[k' v'] d IH]; intros Hnd Hin; [inversion Hin|].
  simpl in *. apply NoDup_cons in Hnd as [Hno Hnd].
  apply elem_of_cons in Hin as [E|Hin].
  - inversion E; subst. rewrite String.eqb_refl. reflexivity.
  - destruct (String.eqb_spec k k') as [->|NE]; [|apply IH; assumption].
    exfalso. apply Hno. apply (list_elem_of_fmap_2 fst) in Hin. exact Hin.
Qed.
End DictLookup.

Section PerTeam.
Context `{PyNum F}.
Import TournamentSimulator.

(** The entry of every team after one match has been recorded. *)
Lemma update_team_stats_lookup (ts : list (string * TeamStats))
    (res : MatchResult F) r ts' r' k s :
  update_team_stats ts res r = Ok (ts', r') ->
  dict_get k ts = Some s ->
  dict_get k ts'
  = Some {| wins := wins s + (if decide (k = winner res) then 1 else 0);
            losses := losses s + (if decide (k = loser res) then 1 else 0);
            points := points s + (if decide (k = winner res) then 2 else 0) |}.
Proof.
  unfold update_team_stats. intros E Hk.
  apply bind_ok in E as (s0 & r1 & H0 & E).
  apply dict_item_ok_inv in H0 as [-> H0].
  apply bind_ok in E as (s1 & r2 & H1 & E).
  apply dict_item_ok_inv in H1 as [-> H1].
  rewrite dict_get_set_eq in H1. inversion H1; subst s1; clear H1.
  rewrite dict_set_set in E. cbn [wins losses points] in E.
  apply bind_ok in E as (s2 & r3 & H2 & E).
  apply dict_item_ok_inv in H2 as [-> H2].
  unfold ret in E. inversion E; subst ts' r'; clear E.
  destruct (decide (k = loser res)) as [El|Nl].
  - subst k. rewrite dict_get_set_eq. f_equal.
    destruct (decide (loser res = winner res)) as [Ew|Nw].
    + rewrite <- Ew in H2. rewrite dict_get_set_eq in H2.
      inversion H2; subst s2; clear H2. rewrite <- Ew in H0.
      rewrite H0 in Hk. inversion Hk; subst. simpl.
      f_equal; lia.
    + rewrite dict_get_set_ne in H2 by congruence.
      rewrite H2 in Hk. inversion Hk; subst. destruct s; simpl.
      f_equal; lia.
  - rewrite dict_get_set_ne by congruence.
    destruct (decide (k = winner res)) as [Ew|Nw].
    + subst k. rewrite dict_get_set_eq. rewrite H0 in Hk.
      inversion Hk; subst. f_equal. f_equal; lia.
    + rewrite dict_get_set_ne by congruence. rewrite Hk.
      destruct s; simpl. f_equal. f_equal; lia.
Qed.

Lemma fixtures_of_snoc (k : string) (pre : list Fixture) (x : Fixture) :
  fixtures_of k (pre ++ [x])
  = fixtures_of k pre
    + ((if decide (Team1 x = k) then 1 else 0)
       + (if decide (Team2 x = k) then 1 else 0)).
Proof.
  unfold fixtures_of. rewrite sum_with_app. simpl. lia.
Qed.

Lemma fixtures_of_bounds (k : string) (l : list Fixture) :
  0 <= fixtures_of k l <= 2 * Z.of_nat (length l).
Proof.
  unfold fixtures_of. induction l as [|x l IH]; simpl; [lia|].
  destruct (decide (Team1 x = k)), (decide (Team2 x = k)); lia.
Qed.

Lemma simulate_group_stage_per_team (self : t F) r gs r' :
  simulate_group_stage self r = Ok (gs, r') ->
  Forall (fun row =>
            0 <= st_wins row /\ 0 <= st_losses row
            /\ st_wins row + st_losses row
               = fixtures_of (st_team row) (schedule_df self)
            /\ st_points row = 2 * st_wins row)
         (standings gs).
Proof.
  unfold simulate_group_stage. fold (initial_stats self). intros E.
  apply bind_ok in E as ([ts results] & r1 & Hloop & E).
  apply bind_ok in E as (sorted & r2 & Hsort & E).
  unfold ret in E. inversion E; subst gs r'; clear E.
  cbn [fst snd standings] in *.
  apply sort_by_points_ok_inv in Hsort as (_ & _ & ->).
  set (P := fun (pre : list Fixture)
                (acc : list (string * TeamStats) * list (MatchResult F)) =>
              map fst (fst acc) = map fst (initial_stats self)
              /\ forall k s,
                  dict_get k (fst acc) = Some s ->
                  0 <= wins s /\ 0 <= losses s
                  /\ wins s + losses s = fixtures_of k pre
                  /\ points s = 2 * wins s).
  assert (Hvals : Forall (fun kv : string * TeamStats =>
                            snd kv = {| wins := 0; losses := 0; points := 0 |})
                         (initial_stats self)).
  { destruct (dict_of_keys (teams self)
                {| wins := 0; losses := 0; points := 0 |} [])
      as (_ & Hvals & _).
    apply Hvals. constructor. }
  assert (Hinit : P [] (initial_stats self, [])).
  { unfold P. cbn [fst snd]. split; [reflexivity|].
    intros k s Hk. apply dict_get_Some_elem_of in Hk.
    rewrite Forall_forall in Hvals. specialize (Hvals _ Hk).
    simpl in Hvals. subst s. simpl. unfold fixtures_of. simpl. lia. }
  assert (Hstep : forall pre x s r0 s' r0',
             P pre s -> play_fixture self s x r0 = Ok (s', r0') ->
             P (pre ++ [x]) s').
  { intros pre x [ts0 res0] r0 s' r0' (Hk & Hinv) Hbody.
    cbn [fst snd] in *. unfold play_fixture in Hbody. cbn [fst snd] in Hbody.
    apply bind_ok in Hbody as (res & r3 & Hres & Hbody).
    apply bind_ok in Hbody as (ts1 & r4 & Hupd & Hbody).
    unfold ret in Hbody. inversion Hbody; subst s' r0'; clear Hbody.
    pose proof (update_team_stats_ok_inv _ _ _ _ _ Hupd)
      as (_ & _ & _ & Hk1 & _).
    apply simulate_single_match_ok_inv in Hres
      as (_ & _ & _ & _ & Hwl & _).
    unfold P. cbn [fst snd]. split; [congruence|].
    intros k s1 Hs1.
    assert (Hsome : is_Some (dict_get k ts0)).
    { apply dict_get_is_Some. rewrite <- Hk1. apply dict_get_is_Some. eauto. }
    destruct Hsome as [s0 Hs0].
    rewrite (update_team_stats_lookup _ _ _ _ _ _ _ Hupd Hs0) in Hs1.
    inversion Hs1; subst s1; clear Hs1. cbn [wins losses points].
    destruct (Hinv k s0 Hs0) as (Hw & Hl & Hsum & Hpts).
    rewrite fixtures_of_snoc.
    destruct Hwl as [[-> ->]|[-> ->]];
      destruct (decide (k = Team1 x)), (decide (k = Team2 x)),
               (decide (Team1 x = k)), (decide (Team2 x = k));
      try congruence; repeat split; lia. }
  pose proof (for_each_ok_prefix P _ Hstep (schedule_df self) [] _ _ _ _
                Hinit Hloop) as (Hk & Hinv).
  cbn [fst snd app] in *.
  apply sort_desc_Forall. apply Forall_forall. intros row Hrow.
  apply list_elem_of_fmap in Hrow as ([k s] & -> & Hkv).
  cbn [st_wins st_losses st_points st_team fst snd].
  apply Hinv. apply dict_get_elem_of; [|exact Hkv].
  rewrite Hk. apply dict_of_keys_NoDup. constructor.
Qed.

End PerTeam.

(** X16.  In the standings of a returning group stage (any number model),
    which are in descending points order, every team has non-negative
    wins and losses that add up to the number of times the team is named
    in the schedule, and between 0 and twice that many points. *)
Theorem group_stage_per_team_record `{PyNum F}
    (self : TournamentSimulator.t F) (r : Rng)
    (gs : TournamentSimulator.GroupStage F) (r' : Rng) :
  TournamentSimulator.simulate_group_stage self r = Ok (gs, r') ->
  StronglySorted (descending_Z TournamentSimulator.st_points)
                 (TournamentSimulator.standings gs)
  /\ Forall (fun row =>
               0 <= TournamentSimulator.st_wins row
               /\ 0 <= TournamentSimulator.st_losses row
               /\ TournamentSimulator.st_wins row
                  + TournamentSimulator.st_losses row
                  = fixtures_of (TournamentSimulator.st_team row)
                                (TournamentSimulator.schedule_df self)
               /\ 0 <= TournamentSimulator.st_points row
                  <= 2 * fixtures_of (TournamentSimulator.st_team row)
                                     (TournamentSimulator.schedule_df self))
            (TournamentSimulator.standings gs).
Proof.
  intros Hok. split; [apply (standings_sorted _ _ _ _ Hok)|].
  eapply Forall_impl; [apply (simulate_group_stage_per_team _ _ _ _ Hok)|].
  intros row (Hw & Hl & Hsum & Hp). cbn beta. repeat split; lia.
Qed.

Lemma group_stage_per_team_record_witness :
  exists gs r',
    TournamentSimulator.simulate_group_stage
      (TournamentSimulator.init (two_teams (of_Z 54 : B64.t)) 1)
      (constant_tape 5) = Ok (gs, r')
    /\ Forall (fun row =>
                 TournamentSimulator.st_wins row
                 + TournamentSimulator.st_losses row
                 = fixtures_of (TournamentSimulator.st_team row)
                     (SCHEDULE_FILE (two_teams (of_Z 54 : B64.t))))
              (TournamentSimulator.standings gs).
Proof.
  destruct (TournamentSimulator.simulate_group_stage
              (TournamentSimulator.init (two_teams (of_Z 54 : B64.t)) 1)
              (constant_tape 5)) as [[gs r']|e] eqn:E;
    [|vm_compute in E; discriminate E].
  exists gs, r'. split; [reflexivity|].
  destruct (group_stage_per_team_record _ _ _ _ E) as [_ Hrows].
  eapply Forall_impl; [exact Hrows|].
  intros row (_ & _ & Hsum & _). exact Hsum.
Defined.

(** ** The aggregate of the Monte Carlo driver *)

Section CountingFacts.
Import TournamentSimulator.

Lemma foldl_incr_NoDup (l : list string) (d : gmap string Z) (k : string) :
  NoDup l ->
  default 0 (foldl (fun d team_name => incr team_name d) d l !! k)
  = default 0 (d !! k) + (if decide (k ∈ l) then 1 else 0).
Proof.
  intros Hnd. revert d. induction Hnd as [|x l Hx Hl IH]; intros d; simpl.
  - destruct (decide (k ∈ [])) as [Hin|_]; [inversion Hin | lia].
  - rewrite IH, incr_lookup.
    destruct (decide (x = k)) as [->|NE].
    + destruct (decide (k ∈ l)); [contradiction|].
      destruct (decide (k ∈ k :: l)) as [_|Hno]; [lia|].
      exfalso. apply Hno. left.
    + destruct (decide (k ∈ l)) as [Hin|Hno].
      * destruct (decide (k ∈ x :: l)) as [_|Hno]; [lia|].
        exfalso. apply Hno. right. exact Hin.
      * destruct (decide (k ∈ x :: l)) as [Hin|_]; [|lia].
        exfalso. apply elem_of_cons in Hin as [->|Hin]; contradiction.
Qed.

Lemma sum_membership (known q : list string) :
  NoDup known -> NoDup q -> (forall x, x ∈ q -> x ∈ known) ->
  sum_with (fun k => if decide (k ∈ q) then 1 else 0) known
  = Z.of_nat (length q).
Proof.
  intros Hk Hq. induction Hq as [|x q Hx Hq IH]; intros Hsub.
  - simpl. clear Hk Hsub. induction known as [|y known IHk]; simpl;
      [reflexivity|].
    destruct (decide (y ∈ [])) as [Hin|_]; [inversion Hin | exact IHk].
  - rewrite (sum_with_ext _ (fun k => (if decide (x = k) then 1 else 0)
                                       + (if decide (k ∈ q) then 1 else 0))).
    + rewrite sum_with_plus, IH by (intros y Hy; apply Hsub; right; exact Hy).
      rewrite (sum_indicator x known Hk) by (apply Hsub; left).
      simpl length. lia.
    + apply Forall_forall. intros k _.
      destruct (decide (x = k)) as [->|NE].
      * destruct (decide (k ∈ q)); [contradiction|].
        destruct (decide (k ∈ k :: q)) as [_|Hno]; [lia|].
        exfalso. apply Hno. left.
      * destruct (decide (k ∈ q)) as [Hin|Hno].
        -- destruct (decide (k ∈ x :: q)) as [_|Hno]; [lia|].
           exfalso. apply Hno. right. exact Hin.
        -- destruct (decide (k ∈ x :: q)) as [Hin|_]; [|lia].
           exfalso. apply elem_of_cons in Hin as [->|Hin]; contradiction.
Qed.

(** The points lists after one more table has been filed. *)
Lemma foldl_points_lookup (table : list StandingsRow)
    (d : gmap string (list Z)) (k : string) :
  default [] (foldl (fun d row =>
                       <[st_team row :=
                           default [] (d !! st_team row) ++ [st_points row]]> d)
                    d table !! k)
  = default [] (d !! k)
    ++ map st_points (filter (fun row => st_team row = k) table).
Proof.
  revert d. induction table as [|row table IH]; intros d; simpl.
  - rewrite app_nil_r. reflexivity.
  - rewrite IH, filter_cons.
    destruct (decide (st_team row = k)) as [<-|NE].
    + rewrite lookup_insert_eq. simpl. rewrite <- app_assoc. reflexivity.
    + rewrite lookup_insert_ne by exact NE. reflexivity.
Qed.

Lemma filter_unique {A} (f : A -> string) (l : list A) (k : string) :
  NoDup (map f l) ->
  (k ∈ map f l ->
   exists x, x ∈ l /\ f x = k /\ filter (fun y => f y = k) l = [x])
  /\ (k ∉ map f l -> filter (fun y => f y = k) l = []).
Proof.
  induction l as [|y l IH]; intros Hnd; simpl in *.
  - split; [inversion 1 | reflexivity].
  - apply NoDup_cons in Hnd as [Hy Hnd]. destruct (IH Hnd) as [IH1 IH2].
    rewrite filter_cons. destruct (decide (f y = k)) as [E|NE].
    + subst k. rewrite (IH2 Hy). split.
      * intros _. exists y. split; [left | auto].
      * intros Hno. exfalso. apply Hno. left.
    + split.
      * intros Hin. apply elem_of_cons in Hin as [E|Hin]; [congruence|].
        destruct (IH1 Hin) as (x & Hx & Hf & Hfl).
        exists x. split; [right; exact Hx | auto].
      * intros Hno. apply IH2. intros Hin. apply Hno. right. exact Hin.
Qed.

End CountingFacts.

Section RunFacts.
Context `{PyNum F}.
Import TournamentSimulator.

Lemma standings_keys (self : t F) r gs r' :
  simulate_group_stage self r = Ok (gs, r') ->
  map st_team (standings gs) ≡ₚ map fst (initial_stats self).
Proof.
  intros Hok.
  apply simulate_group_stage_ok_inv in Hok as (ts & Hst & Hk & _).
  rewrite Hst.
  rewrite (Permutation_map st_team (sort_desc_perm Z.ltb st_points _)).
  rewrite standings_teams, Hk. reflexivity.
Qed.

Lemma run_simulation_group (self : t F) r sim r' :
  run_simulation self r = Ok (sim, r') ->
  exists gs r1,
    simulate_group_stage self r = Ok (gs, r1)
    /\ sim_standings sim = standings gs
    /\ sim_match_results sim = match_results gs.
Proof.
  unfold run_simulation. intros E.
  apply bind_ok in E as (gs & r1 & Hgs & E).
  apply bind_ok in E as (pt & r2 & Hpt & E).
  apply bind_ok in E as (w & r3 & Hw & E).
  unfold ret in E. inversion E; subst. eauto.
Qed.

(** The teams that one run credits with a playoff appearance. *)
Lemma run_simulation_qualifiers (self : t F) r sim r' :
  run_simulation self r = Ok (sim, r') ->
  let q := top_3 (sim_playoff_teams sim)
           ++ eliminator (sim_playoff_teams sim) in
  NoDup q
  /\ (forall x, x ∈ q -> x ∈ map fst (initial_stats self))
  /\ length q = playoff_places (length (initial_stats self)).
Proof.
  intros Hok. cbv zeta.
  destruct (run_simulation_group _ _ _ _ Hok) as (gs & r1 & Hgs & Hst & _).
  pose proof (standings_keys _ _ _ _ Hgs) as Hkeys. rewrite <- Hst in Hkeys.
  destruct (run_simulation_places _ _ _ _ Hok)
    as (_ & _ & Hnd & Hlen & Ht & He & _).
  set (table := sim_standings sim) in *.
  assert (Hq : top_3 (sim_playoff_teams sim) ++ eliminator (sim_playoff_teams sim)
               = map st_team
                     (take (if (5 <=? length table)%nat then 5 else 3)%nat
                           table)).
  { rewrite Ht, He. destruct (5 <=? length table)%nat.
    - rewrite <- map_app, take_take_drop. reflexivity.
    - rewrite app_nil_r. reflexivity. }
  rewrite Hq. split; [|split].
  - rewrite <- (take_drop (if (5 <=? length table)%nat then 5 else 3)%nat
                          table) in Hnd.
    rewrite map_app in Hnd. apply NoDup_app in Hnd as [Hnd _]. exact Hnd.
  - intros x Hx. rewrite <- Hkeys.
    apply list_elem_of_fmap in Hx as (row & -> & Hrow).
    apply list_elem_of_fmap_2.
    apply elem_of_take in Hrow as (i & Hrow & _).
    apply list_elem_of_lookup_2 in Hrow. exact Hrow.
  - rewrite length_map, length_take, Hlen. unfold playoff_places.
    destruct (Nat.leb_spec 5 (length (initial_stats self))); lia.
Qed.

Lemma simulation_step_bookkeeping (self : t F) pre i acc r acc' r' :
  bookkeeping self pre acc ->
  simulation_step self acc i r = Ok (acc', r') ->
  bookkeeping self (pre ++ [i]) acc'.
Proof.
  intros (Hrange & Hout & Hsum & Hpts & Hnone & Hsample) Hstep.
  unfold simulation_step in Hstep.
  apply bind_ok in Hstep as (sim & r1 & Hsim & Hstep).
  unfold ret in Hstep. inversion Hstep; subst acc' r'; clear Hstep.
  destruct (run_simulation_qualifiers _ _ _ _ Hsim) as (Hnd & Hsub & Hlen).
  destruct (run_simulation_group _ _ _ _ Hsim)
    as (gs & r0 & Hgs & Hst & Hres).
  pose proof (standings_keys _ _ _ _ Hgs) as Hkeys.
  destruct (standings_sorted _ _ _ _ Hgs) as (_ & _ & Hnames).
  pose proof (simulate_group_stage_per_team _ _ _ _ Hgs) as Hteam.
  pose proof (simulate_group_stage_ok_inv _ _ _ _ Hgs)
    as (_ & _ & _ & _ & _ & _ & _ & Hplayed & _).
  assert (Hkn : NoDup (map fst (initial_stats self)))
    by (apply dict_of_keys_NoDup; constructor).
  unfold bookkeeping.
  cbn [playoff_appearances final_standings sample_match_results].
  rewrite <- foldl_app. rewrite length_app. cbn [length].
  split; [|split; [|split; [|split; [|split]]]].
  - intros k. rewrite (foldl_incr_NoDup _ _ _ Hnd).
    specialize (Hrange k). destruct (decide (k ∈ _)); lia.
  - intros k Hk. rewrite (foldl_incr_NoDup _ _ _ Hnd), (Hout k Hk).
    destruct (decide (k ∈ _)) as [Hin|_]; [|reflexivity].
    exfalso. exact (Hk (Hsub k Hin)).
  - rewrite (sum_with_ext _
               (fun k => default 0 (playoff_appearances acc !! k)
                         + (if decide
                                 (k ∈ top_3 (sim_playoff_teams sim)
                                      ++ eliminator (sim_playoff_teams sim))
                            then 1 else 0)))
      by (apply Forall_forall; intros k _; apply (foldl_incr_NoDup _ _ _ Hnd)).
    rewrite sum_with_plus, Hsum, (sum_membership _ _ Hkn Hnd Hsub), Hlen.
    lia.
  - intros k Hk. rewrite foldl_points_lookup, Hst.
    destruct (Hpts k Hk) as [Hl Hall].
    destruct (filter_unique st_team (standings gs) k Hnames) as [Hone _].
    destruct Hone as (row & Hrow & Hname & ->);
      [rewrite Hkeys; exact Hk|].
    simpl. rewrite length_app. simpl. split; [lia|].
    apply Forall_app. split; [exact Hall|].
    constructor; [|constructor].
    rewrite Forall_forall in Hteam.
    destruct (Hteam row Hrow) as (Hw & Hlo & Hs & Hp).
    rewrite Hname in Hs. rewrite Hp.
    split; [lia|]. rewrite Z.even_mul. reflexivity.
  - intros k Hk. rewrite foldl_points_lookup, Hst, (Hnone k Hk).
    destruct (filter_unique st_team (standings gs) k Hnames) as [_ Hzero].
    rewrite Hzero; [reflexivity|]. rewrite Hkeys. exact Hk.
  - destruct pre as [|first pre]; simpl.
    + intros ->. rewrite Hres. exact Hplayed.
    + intros Hfirst. destruct i as [|i]; [|exact (Hsample Hfirst)].
      rewrite Hres. exact Hplayed.
Qed.

Lemma run_multiple_simulations_bookkeeping (self : t F) r data r' :
  run_multiple_simulations self r = Ok (data, r') ->
  bookkeeping self (seq 0 (Z.to_nat (num_simulations self))) data.
Proof.
  unfold run_multiple_simulations. intros E.
  apply (for_each_ok_prefix (bookkeeping self) (simulation_step self)
           (fun pre i s r0 s' r0' => simulation_step_bookkeeping
                                       self pre i s r0 s' r0')
           _ [] _ _ _ _) in E; [exact E|].
  unfold bookkeeping.
  cbn [playoff_appearances final_standings sample_match_results length].
  split; [|split; [|split; [|split; [|split]]]].
  - intros k. rewrite lookup_empty. simpl. lia.
  - intros k _. rewrite lookup_empty. reflexivity.
  - simpl. induction (map fst (initial_stats self)) as [|k l IH]; simpl;
      [reflexivity|]. rewrite lookup_empty. simpl. exact IH.
  - intros k Hk. rewrite lookup_empty. simpl. split; [reflexivity|constructor].
  - intros k _. rewrite lookup_empty. reflexivity.
  - reflexivity.
Qed.

End RunFacts.

(** An invariant that the body keeps on the elements of the list is kept
    by the loop. *)
Lemma for_each_ok_elem {A S} (P : S -> Prop) (body : S -> A -> M S)
    (l : list A) :
  (forall s x r s' r', x ∈ l -> P s -> body s x r = Ok (s', r') -> P s') ->
  forall s r s' r', P s -> for_each l body s r = Ok (s', r') -> P s'.
Proof.
  induction l as [|x l IH]; intros Hbody s r s' r' Hs Hrun.
  - simpl in Hrun. inversion Hrun; subst. exact Hs.
  - simpl in Hrun. apply bind_ok in Hrun as (s1 & r1 & H1 & H2).
    eapply IH; [| |exact H2].
    + intros s0 y r0 s0' r0' Hy. apply Hbody. right. exact Hy.
    + eapply Hbody; [left | exact Hs | exact H1].
Qed.

Section FirstRun.
Context `{PyNum F}.
Import TournamentSimulator.

(** The sample kept by the driver is the list of match results of the
    first run, which starts from the driver's own random state. *)
Lemma sample_is_first_run (self : t F) r data r' :
  run_multiple_simulations self r = Ok (data, r') ->
  1 <= num_simulations self ->
  exists gs r1,
    simulate_group_stage self r = Ok (gs, r1)
    /\ sample_match_results data = match_results gs.
Proof.
  unfold run_multiple_simulations. intros Hrun Hn.
  destruct (Z.to_nat (num_simulations self)) as [|n] eqn:En; [lia|].
  simpl in Hrun. apply bind_ok in Hrun as (acc1 & r1 & Hstep & Hrest).
  unfold simulation_step in Hstep.
  apply bind_ok in Hstep as (sim & r2 & Hsim & Hstep).
  unfold ret in Hstep. inversion Hstep; subst acc1 r1; clear Hstep.
  destruct (run_simulation_group _ _ _ _ Hsim) as (gs & r3 & Hgs & _ & Hres).
  exists gs, r3. split; [exact Hgs|]. rewrite <- Hres.
  apply (for_each_ok_elem
           (fun acc => sample_match_results acc = sim_match_results sim)
           (simulation_step self) (seq 1 n)) in Hrest;
    [exact Hrest | | reflexivity].
  intros s i r0 s' r0' Hi Hs Hbody.
  apply elem_of_seq in Hi. unfold simulation_step in Hbody.
  apply bind_ok in Hbody as (sim' & r4 & _ & Hbody).
  unfold ret in Hbody. inversion Hbody; subst.
  cbn [sample_match_results]. destruct i; [lia | exact Hs].
Qed.

(** Every result of a returning group stage carries the pair that a
    win-probability query returned. *)
Lemma match_results_odds (self : t F) r gs r' :
  simulate_group_stage self r = Ok (gs, r') ->
  Forall (fun res =>
            exists match_id tw td r0 w r1,
              MatchAnalyzer.calculate_win_probability
                (analyzer self) match_id tw td r0 = Ok (w, r1)
              /\ win_prob_team1 res = fst (MatchAnalyzer.win_prob w)
              /\ win_prob_team2 res = snd (MatchAnalyzer.win_prob w))
         (match_results gs).
Proof.
  unfold simulate_group_stage. intros E.
  apply bind_ok in E as ([ts results] & r1 & Hloop & E).
  apply bind_ok in E as (sorted & r2 & _ & E).
  unfold ret in E. inversion E; subst gs r'; clear E.
  cbn [match_results snd].
  apply (for_each_ok_elem
           (fun acc : list (string * TeamStats) * list (MatchResult F) =>
              Forall (fun res =>
                        exists match_id tw td r0 w r1,
                          MatchAnalyzer.calculate_win_probability
                            (analyzer self) match_id tw td r0 = Ok (w, r1)
                          /\ win_prob_team1 res = fst (MatchAnalyzer.win_prob w)
                          /\ win_prob_team2 res = snd (MatchAnalyzer.win_prob w))
                     (snd acc))
           (play_fixture self) (schedule_df self)) in Hloop;
    [exact Hloop | | constructor].
  intros [ts0 res0] x r0 s' r0' _ Hs Hbody. cbn [snd] in Hs.
  unfold play_fixture in Hbody. cbn [fst snd] in Hbody.
  apply bind_ok in Hbody as (res & r3 & Hres & Hbody).
  apply bind_ok in Hbody as (ts1 & r4 & _ & Hbody).
  unfold ret in Hbody. inversion Hbody; subst s' r0'; clear Hbody.
  cbn [snd]. apply Forall_app. split; [exact Hs|].
  constructor; [|constructor].
  apply simulate_single_match_run in Hres as (_ & _ & _ & w & Hw & H1 & H2 & _).
  eauto 10.
Qed.

End FirstRun.

(** X17.  The aggregate of a returning Monte Carlo driver holds one
    champion per run, each of them a known team; every team's playoff
    appearances lie between 0 and n, a team that is not known has none,
    and with distinct team names the appearances add up to n times the
    playoff places of one run (5 with five teams or more, otherwise the
    number of teams up to 3). *)
Theorem playoff_appearances_accounting `{PyNum F}
    (self : TournamentSimulator.t F) (r : Rng)
    (data : TournamentSimulator.SimulationData F) (r' : Rng) :
  TournamentSimulator.run_multiple_simulations self r = Ok (data, r') ->
  let n := Z.to_nat (TournamentSimulator.num_simulations self) in
  let appearances team_name :=
    default 0 (TournamentSimulator.playoff_appearances data !! team_name) in
  length (TournamentSimulator.winners data) = n
  /\ Forall (fun w => w ∈ TournamentSimulator.teams self)
            (TournamentSimulator.winners data)
  /\ (forall team_name, 0 <= appearances team_name <= Z.of_nat n)
  /\ (forall team_name,
         team_name ∉ TournamentSimulator.teams self ->
         appearances team_name = 0)
  /\ (NoDup (TournamentSimulator.teams self) ->
      sum_with appearances (TournamentSimulator.teams self)
      = Z.of_nat (n * playoff_places
                        (length (TournamentSimulator.teams self)))).
Proof.
  intros Hok. cbv zeta.
  destruct (run_multiple_simulations_winners _ _ _ _ Hok) as [Hlen Hall].
  destruct (run_multiple_simulations_bookkeeping _ _ _ _ Hok)
    as (Hrange & Hout & Hsum & _).
  rewrite length_seq in Hrange, Hsum.
  split; [exact Hlen|]. split; [exact Hall|]. split; [exact Hrange|].
  split.
  - intros k Hk. apply Hout. rewrite initial_stats_keys. exact Hk.
  - intros Hnd. rewrite (initial_stats_keys_NoDup self Hnd) in Hsum.
    rewrite <- (length_map fst (initial_stats self)) in Hsum.
    rewrite (initial_stats_keys_NoDup self Hnd) in Hsum. exact Hsum.
Qed.

Lemma playoff_appearances_accounting_witness :
  exists data r',
    TournamentSimulator.run_multiple_simulations
      (TournamentSimulator.init (two_teams (of_Z 54 : B64.t)) 3)
      (constant_tape 4) = Ok (data, r')
    /\ length (TournamentSimulator.winners data) = 3%nat
    /\ sum_with
         (fun team_name =>
            default 0 (TournamentSimulator.playoff_appearances data
                         !! team_name))
         ["Oval Invincibles"; "Welsh Fire"] = 6.
Proof.
  destruct (TournamentSimulator.run_multiple_simulations
              (TournamentSimulator.init (two_teams (of_Z 54 : B64.t)) 3)
              (constant_tape 4)) as [[data r']|e] eqn:E;
    [|vm_compute in E; discriminate E].
  exists data, r'. split; [reflexivity|].
  destruct (playoff_appearances_accounting _ _ _ _ E)
    as (Hlen & _ & _ & _ & Hsum).
  split; [exact Hlen|]. apply Hsum.
  simpl. repeat (apply NoDup_cons; split;
                 [intros Hin;
                  repeat (apply elem_of_cons in Hin as [Hin|Hin];
                          [discriminate Hin|]);
                  inversion Hin|]).
  apply NoDup_nil. exact I.
Defined.

(** X18.  In the aggregate of a returning driver the points history of
    every known team has one entry per run, each an even number between 0
    and twice the number of times the team is named in the schedule, and a
    team that is not known has no history.  For n >= 1 the sample of match
    results is that of the first run: the results of the group stage
    started from the driver's initial random state, one per fixture.  For
    n <= 0 nothing is simulated. *)
Theorem points_history_and_sample `{PyNum F}
    (self : TournamentSimulator.t F) (r : Rng)
    (data : TournamentSimulator.SimulationData F) (r' : Rng) :
  TournamentSimulator.run_multiple_simulations self r = Ok (data, r') ->
  let history team_name :=
    default [] (TournamentSimulator.final_standings data !! team_name) in
  (forall team_name,
      team_name ∈ TournamentSimulator.teams self ->
      length (history team_name)
      = Z.to_nat (TournamentSimulator.num_simulations self)
      /\ Forall (fun p =>
                   0 <= p <= 2 * fixtures_of team_name
                                   (TournamentSimulator.schedule_df self)
                   /\ Z.even p = true)
                (history team_name))
  /\ (forall team_name,
         team_name ∉ TournamentSimulator.teams self ->
         history team_name = [])
  /\ (1 <= TournamentSimulator.num_simulations self ->
      exists gs r1,
        TournamentSimulator.simulate_group_stage self r = Ok (gs, r1)
        /\ TournamentSimulator.sample_match_results data
           = TournamentSimulator.match_results gs
        /\ Forall2 played (TournamentSimulator.schedule_df self)
                   (TournamentSimulator.sample_match_results data))
  /\ (TournamentSimulator.num_simulations self <= 0 ->
      TournamentSimulator.sample_match_results data = [] /\ r' = r).
Proof.
  intros Hok. cbv zeta.
  destruct (run_multiple_simulations_bookkeeping _ _ _ _ Hok)
    as (_ & _ & _ & Hpts & Hnone & Hsample).
  split; [|split; [|split]].
  - intros k Hk. rewrite <- initial_stats_keys in Hk.
    destruct (Hpts k Hk) as [Hlen Hall]. rewrite length_seq in Hlen. auto.
  - intros k Hk. apply Hnone. rewrite initial_stats_keys. exact Hk.
  - intros Hn.
    destruct (sample_is_first_run _ _ _ _ Hok Hn) as (gs & r1 & Hgs & Hres).
    exists gs, r1. split; [exact Hgs|]. split; [exact Hres|].
    destruct (Z.to_nat (TournamentSimulator.num_simulations self)) eqn:En;
      [lia|].
    simpl in Hsample. apply Hsample. reflexivity.
  - intros Hn.
    assert (En : Z.to_nat (TournamentSimulator.num_simulations self) = 0%nat)
      by lia.
    unfold TournamentSimulator.run_multiple_simulations in Hok.
    rewrite En in Hok. simpl in Hok. unfold ret in Hok.
    inversion Hok; subst. split; reflexivity.
Qed.

Lemma points_history_and_sample_witness :
  exists data r',
    TournamentSimulator.run_multiple_simulations
      (TournamentSimulator.init (two_teams (of_Z 54 : B64.t)) 3)
      (constant_tape 4) = Ok (data, r')
    /\ length (default [] (TournamentSimulator.final_standings data
                             !! "Welsh Fire")) = 3%nat.
Proof.
  destruct (TournamentSimulator.run_multiple_simulations
              (TournamentSimulator.init (two_teams (of_Z 54 : B64.t)) 3)
              (constant_tape 4)) as [[data r']|e] eqn:E;
    [|vm_compute in E; discriminate E].
  exists data, r'. split; [reflexivity|].
  destruct (points_history_and_sample _ _ _ _ E) as (Hpts & _).
  apply (Hpts "Welsh Fire"). simpl. right. left.
Defined.

Section AnalysisFacts.
Import TournamentSimulator.
Local Open Scope Q_scope.

Lemma analyze_results_sorted (self : t Q) data r rows r' :
  analyze_results self data r = Ok (rows, r') ->
  StronglySorted (descending Win_Probability) rows.
Proof.
  unfold analyze_results. intros E.
  apply bind_ok in E as (analysis & r1 & _ & E).
  destruct analysis as [|row analysis]; [discriminate|].
  unfold ret in E. inversion E; subst.
  apply (sort_desc_sorted Win_Probability (row :: analysis)).
Qed.

Lemma Counter_nonneg (l : list string) (k : string) :
  (0 <= default 0 (Counter l !! k))%Z.
Proof.
  unfold Counter.
  etransitivity; [|apply foldl_incr_ge]. rewrite lookup_empty. reflexivity.
Qed.

Lemma percent_rounded (a n : Z) :
  (0 <= a <= n)%Z -> (1 <= n)%Z ->
  0 <= QNum.round1 (inject_Z a / inject_Z n * 100) <= 100.
Proof.
  intros Ha Hn. destruct (percent_range a n Ha Hn) as [Hlo Hhi].
  apply (QFacts.round1_bounds _ 0 100); assumption.
Qed.

End AnalysisFacts.

(** X19.  The analysis table of n >= 1 returning runs (exact rationals) is
    in descending order of win probability and has one row per known
    team; in every row the titles lie between 0 and the playoff
    appearances, which are at most n, and both probabilities lie between 0
    and 100; with distinct team names the titles add up to n and the
    playoff appearances to n times the playoff places of one run. *)
Theorem analysis_table_shape (self : TournamentSimulator.t Q) (r : Rng)
    (data : TournamentSimulator.SimulationData Q) (r' : Rng)
    (rows : list (TournamentSimulator.AnalysisRow Q)) (r'' : Rng) :
  1 <= TournamentSimulator.num_simulations self ->
  TournamentSimulator.run_multiple_simulations self r = Ok (data, r') ->
  TournamentSimulator.analyze_results self data r' = Ok (rows, r'') ->
  let n := TournamentSimulator.num_simulations self in
  StronglySorted (descending TournamentSimulator.Win_Probability) rows
  /\ map TournamentSimulator.ar_Team rows ≡ₚ TournamentSimulator.teams self
  /\ Forall (fun row =>
               0 <= TournamentSimulator.Titles_Won row
               <= TournamentSimulator.Playoff_Appearances row
               /\ TournamentSimulator.Playoff_Appearances row <= n
               /\ (0 <= TournamentSimulator.Win_Probability row <= 100)%Q
               /\ (0 <= TournamentSimulator.Playoff_Probability row <= 100)%Q)
            rows
  /\ (NoDup (TournamentSimulator.teams self) ->
      sum_with TournamentSimulator.Titles_Won rows = n
      /\ sum_with TournamentSimulator.Playoff_Appearances rows
         = n * Z.of_nat (playoff_places
                           (length (TournamentSimulator.teams self)))).
Proof.
  intros Hn Hrun Han. cbv zeta.
  pose proof (analyze_results_sorted _ _ _ _ _ Han) as Hsorted.
  pose proof (run_multiple_simulations_invariant _ _ _ _ Hrun) as Htitles.
  destruct (run_multiple_simulations_winners _ _ _ _ Hrun) as [Hlen Hall].
  destruct (run_multiple_simulations_bookkeeping _ _ _ _ Hrun)
    as (Hrange & _ & Hsum & _).
  rewrite length_seq in Hrange, Hsum.
  destruct (analyze_results_ok_inv _ _ _ _ _ Han) as (_ & Hrows & Hperm).
  split; [exact Hsorted|]. split; [exact Hperm|]. split.
  - eapply Forall_impl; [exact Hrows|].
    intros row (Ht & Hp & Hw & Hpp). cbn beta.
    specialize (Htitles (TournamentSimulator.ar_Team row)).
    specialize (Hrange (TournamentSimulator.ar_Team row)).
    pose proof (Counter_nonneg (TournamentSimulator.winners data)
                  (TournamentSimulator.ar_Team row)) as H0.
    rewrite <- Ht in Htitles, H0. rewrite <- Hp in Htitles, Hrange.
    split; [lia|]. split; [lia|].
    rewrite Hw, Hpp. split; apply percent_rounded; lia.
  - intros Hnd. split.
    + rewrite (sum_with_ext TournamentSimulator.Titles_Won
                 (fun row => default 0
                               (TournamentSimulator.Counter
                                  (TournamentSimulator.winners data)
                                  !! TournamentSimulator.ar_Team row))).
      * rewrite <- (sum_with_map TournamentSimulator.ar_Team
                      (fun team_name =>
                         default 0
                           (TournamentSimulator.Counter
                              (TournamentSimulator.winners data)
                              !! team_name))).
        rewrite (sum_with_perm _ _ _ Hperm).
        rewrite (Counter_total _ _ Hnd Hall), Hlen. lia.
      * eapply Forall_impl; [exact Hrows|]. intros row (Ht & _). exact Ht.
    + rewrite (sum_with_ext TournamentSimulator.Playoff_Appearances
                 (fun row => default 0
                               (TournamentSimulator.playoff_appearances data
                                  !! TournamentSimulator.ar_Team row))).
      * rewrite <- (sum_with_map TournamentSimulator.ar_Team
                      (fun team_name =>
                         default 0
                           (TournamentSimulator.playoff_appearances data
                              !! team_name))).
        rewrite (sum_with_perm _ _ _ Hperm).
        rewrite <- (initial_stats_keys_NoDup self Hnd) at 1.
        rewrite Hsum.
        rewrite <- (length_map fst (initial_stats self)).
        rewrite (initial_stats_keys_NoDup self Hnd). lia.
      * eapply Forall_impl; [exact Hrows|]. intros row (_ & Hp & _). exact Hp.
Qed.

Lemma analysis_table_shape_witness :
  exists data r' rows r'',
    TournamentSimulator.run_multiple_simulations
      (TournamentSimulator.init (two_teams (54 : Q)) 3) (constant_tape 4)
    = Ok (data, r')
    /\ TournamentSimulator.analyze_results
         (TournamentSimulator.init (two_teams (54 : Q)) 3) data r'
       = Ok (rows, r'')
    /\ StronglySorted (descending TournamentSimulator.Win_Probability) rows.
Proof.
  eexists _, _, _, _.
  split; [vm_compute; reflexivity|].
  split; [vm_compute; reflexivity|].
  refine (proj1 (analysis_table_shape
                   (TournamentSimulator.init (two_teams (54 : Q)) 3)
                   (constant_tape 4) _ _ _ _ _ _ _)).
  - simpl. lia.
  - vm_compute. reflexivity.
  - vm_compute. reflexivity.
Defined.

(** ** Match predictions *)

Section PredictionFacts.
Import TournamentSimulator.
Local Open Scope Q_scope.

Lemma round1_idempotent (x : Q) : QNum.round1 (QNum.round1 x) == QNum.round1 x.
Proof. unfold QNum.round1 at 2 3. apply QFacts.round1_tenth. Qed.

End PredictionFacts.


